(** * whats-nya-backend: session orchestration and synchronisation engine

    A shallow embedding of [src/services/whatsapp/SessionManager.ts],
    [src/services/whatsapp/SocketManager.ts] and of the Mongoose models they
    write through ([models/Session.ts], [models/Message.ts],
    [models/Chat.ts]), followed by the properties of the orchestrator.

    Modelling conventions.
    - The process state (the three collections, the handle registry
      [SessionManager.sessions], the Socket.IO server, the logger output) is
      one record [World]; every method is a computation in the state and
      exception monad [M], so [await]ed calls are sequenced with bind and a
      [throw] short-circuits to the enclosing [try_catch].
    - The store answers every request: an operation on a collection fails
      only on a unique-index conflict (error code 11000).
    - What the outside world decides (the payload of an SDK event, whether
      [client.destroy()] rejects, what [chat.fetchMessages] returns, the
      generated session identifier) is an explicit argument of the handler
      that consumes it; [new Date()] reads the field [clock].
    - An event handler runs to completion before the next one starts; the
      fire-and-forget call [this.startBackgroundSync(...)] of the [ready]
      handler is recorded in [syncLaunches] and its body is the separate
      computation [startBackgroundSync]; the promise returned by
      [client.initialize()] is queued in [pendingInitialize] with the way it
      will settle, and its [.catch] callback runs when the queue is drained.
    - A JavaScript [Number] that holds a count, an ordinal or a timestamp is a
      [Z]; the one genuinely fractional computation, the progress percentage,
      is carried out on IEEE-754 binary64 values ([spec_float] with
      [prec = 53], [emax = 1024]). *)

From Stdlib Require Import ZArith List String Ascii Bool Lia.
From Stdlib Require Import Floats.SpecFloat.
From stdpp Require Import base option list gmap strings pretty.

Local Open Scope Z_scope.
Local Open Scope string_scope.

(** ** Shared types ([src/types/index.ts]) *)

Inductive SessionStatus :=
  | INITIALIZING
  | QR_SCAN_PENDING
  | SYNCING
  | READY
  | DISCONNECTED
  | FAILED.

Global Instance SessionStatus_eq_dec : EqDecision SessionStatus.
Proof. solve_decision. Defined.

Inductive WSEvents :=
  | QR_CODE
  | SESSION_STATUS
  | MESSAGE_RECEIVED
  | SYNC_PROGRESS
  | ERROR.

Global Instance WSEvents_eq_dec : EqDecision WSEvents.
Proof. solve_decision. Defined.

(** A thrown JavaScript error: the driver's numeric [code] when it has one
    (11000 is MongoDB's duplicate-key error) and the [message]. *)
Record JsError := { code : option Z; message : string }.

Inductive result (A : Type) :=
  | Ok (a : A)
  | Throw (e : JsError).
Arguments Ok {A} a.
Arguments Throw {A} e.

(** ** Documents of the three collections *)

Module SessionDoc.
Record t := {
  userId : string;
  sessionId : string;
  phoneNumber : option string;
  status : SessionStatus;
  qrCode : option string;
  syncProgress : Z;
  lastSyncedAt : option Z
}.

Definition set_status (st : SessionStatus) (d : t) : t :=
  {| userId := userId d; sessionId := sessionId d;
     phoneNumber := phoneNumber d; status := st; qrCode := qrCode d;
     syncProgress := syncProgress d; lastSyncedAt := lastSyncedAt d |}.

Definition set_qrCode (q : option string) (d : t) : t :=
  {| userId := userId d; sessionId := sessionId d;
     phoneNumber := phoneNumber d; status := status d; qrCode := q;
     syncProgress := syncProgress d; lastSyncedAt := lastSyncedAt d |}.

Definition set_phoneNumber (p : option string) (d : t) : t :=
  {| userId := userId d; sessionId := sessionId d;
     phoneNumber := p; status := status d; qrCode := qrCode d;
     syncProgress := syncProgress d; lastSyncedAt := lastSyncedAt d |}.

Definition set_syncProgress (p : Z) (d : t) : t :=
  {| userId := userId d; sessionId := sessionId d;
     phoneNumber := phoneNumber d; status := status d; qrCode := qrCode d;
     syncProgress := p; lastSyncedAt := lastSyncedAt d |}.

Definition set_lastSyncedAt (ts : option Z) (d : t) : t :=
  {| userId := userId d; sessionId := sessionId d;
     phoneNumber := phoneNumber d; status := status d; qrCode := qrCode d;
     syncProgress := syncProgress d; lastSyncedAt := ts |}.

(** [sessionSchema.methods.isActive] *)
Definition isActive (d : t) : bool := bool_decide (status d = READY).
End SessionDoc.

Module MessageDoc.
Record t := {
  _id : nat;
  sessionId : string;
  chatId : string;
  messageId : string;
  body : string;
  timestamp : Z;
  fromMe : bool;
  sender : string;
  isGroupMsg : bool;
  ackStatus : Z;
  hasMedia : bool;
  isRead : bool;
  readBy : list string;
  createdAt : Z;
  updatedAt : Z
}.

Definition set_ackStatus (a : Z) (d : t) : t :=
  {| _id := _id d; sessionId := sessionId d; chatId := chatId d;
     messageId := messageId d; body := body d; timestamp := timestamp d;
     fromMe := fromMe d; sender := sender d; isGroupMsg := isGroupMsg d;
     ackStatus := a; hasMedia := hasMedia d; isRead := isRead d;
     readBy := readBy d; createdAt := createdAt d; updatedAt := updatedAt d |}.
End MessageDoc.

Module ChatDoc.
Record t := {
  sessionId : string;
  chatId : string;
  name : string;
  isGroup : bool;
  participants : list string;
  lastMessage : option string;
  lastMessageTime : option Z;
  unreadCount : Z
}.
End ChatDoc.

(** ** What the external SDK hands to the orchestrator *)

(** A [whatsapp-web.js] message as the handlers read it: [message.from],
    [message.id._serialized], [message.body], ... *)
Record WAMessage := {
  wa_from : string;
  wa_id_serialized : string;
  wa_body : option string;
  wa_timestamp : Z;
  wa_fromMe : bool;
  wa_isGroupMsg : option bool;
  wa_ack : option Z;
  wa_hasMedia : bool
}.

(** A remote conversation, together with what [chat.fetchMessages] answers
    when the pass reaches it. *)
Record WAChat := {
  wc_id_serialized : string;
  wc_id_user : string;
  wc_name : option string;
  wc_isGroup : bool;
  wc_participants : list string;
  wc_unreadCount : option Z;
  wc_fetchMessages : result (list WAMessage)
}.

(** The client handle kept in the registry; [clientId] is the identifier its
    [LocalAuth] strategy was created with. *)
Record Client := { clientId : string }.

(** ** Fan-out payloads and log lines *)

Inductive Payload :=
  | QrPayload (sessionId qrCode : string)
  | StatusPayload (sessionId : string) (status : SessionStatus)
  | MessagePayload (sessionId : string) (message : MessageDoc.t)
  | ProgressPayload (sessionId : string) (progress : Z)
  | ErrorPayload (error : string).

Record Emission := { room : string; event : WSEvents; data : Payload }.

Inductive LogLevel := LInfo | LWarn | LError | LDebug.

Record EnvironmentConfig := { maxSessionsPerUser : Z }.

(** ** The process state *)

Record World := {
  config : EnvironmentConfig;
  clock : Z;
  sessionsColl : list SessionDoc.t;
  chatsColl : list ChatDoc.t;
  messagesColl : list MessageDoc.t;
  nextObjectId : nat;
  sessions : gmap string Client;
  io : bool;
  emitted : list Emission;
  logged : list (LogLevel * string);
  syncLaunches : list string;
  pendingInitialize : list (string * result unit)
}.

Definition with_sessionsColl (c : list SessionDoc.t) (w : World) : World :=
  {| config := config w; clock := clock w; sessionsColl := c;
     chatsColl := chatsColl w; messagesColl := messagesColl w;
     nextObjectId := nextObjectId w; sessions := sessions w; io := io w;
     emitted := emitted w; logged := logged w; syncLaunches := syncLaunches w;
     pendingInitialize := pendingInitialize w |}.

Definition with_chatsColl (c : list ChatDoc.t) (w : World) : World :=
  {| config := config w; clock := clock w; sessionsColl := sessionsColl w;
     chatsColl := c; messagesColl := messagesColl w;
     nextObjectId := nextObjectId w; sessions := sessions w; io := io w;
     emitted := emitted w; logged := logged w; syncLaunches := syncLaunches w;
     pendingInitialize := pendingInitialize w |}.

Definition with_messagesColl (c : list MessageDoc.t) (n : nat) (w : World) : World :=
  {| config := config w; clock := clock w; sessionsColl := sessionsColl w;
     chatsColl := chatsColl w; messagesColl := c;
     nextObjectId := n; sessions := sessions w; io := io w;
     emitted := emitted w; logged := logged w; syncLaunches := syncLaunches w;
     pendingInitialize := pendingInitialize w |}.

Definition with_sessions (r : gmap string Client) (w : World) : World :=
  {| config := config w; clock := clock w; sessionsColl := sessionsColl w;
     chatsColl := chatsColl w; messagesColl := messagesColl w;
     nextObjectId := nextObjectId w; sessions := r; io := io w;
     emitted := emitted w; logged := logged w; syncLaunches := syncLaunches w;
     pendingInitialize := pendingInitialize w |}.

Definition with_emitted (e : list Emission) (w : World) : World :=
  {| config := config w; clock := clock w; sessionsColl := sessionsColl w;
     chatsColl := chatsColl w; messagesColl := messagesColl w;
     nextObjectId := nextObjectId w; sessions := sessions w; io := io w;
     emitted := e; logged := logged w; syncLaunches := syncLaunches w;
     pendingInitialize := pendingInitialize w |}.

Definition with_logged (l : list (LogLevel * string)) (w : World) : World :=
  {| config := config w; clock := clock w; sessionsColl := sessionsColl w;
     chatsColl := chatsColl w; messagesColl := messagesColl w;
     nextObjectId := nextObjectId w; sessions := sessions w; io := io w;
     emitted := emitted w; logged := l; syncLaunches := syncLaunches w;
     pendingInitialize := pendingInitialize w |}.

Definition with_syncLaunches (l : list string) (w : World) : World :=
  {| config := config w; clock := clock w; sessionsColl := sessionsColl w;
     chatsColl := chatsColl w; messagesColl := messagesColl w;
     nextObjectId := nextObjectId w; sessions := sessions w; io := io w;
     emitted := emitted w; logged := logged w; syncLaunches := l;
     pendingInitialize := pendingInitialize w |}.

Definition with_pendingInitialize (l : list (string * result unit)) (w : World) : World :=
  {| config := config w; clock := clock w; sessionsColl := sessionsColl w;
     chatsColl := chatsColl w; messagesColl := messagesColl w;
     nextObjectId := nextObjectId w; sessions := sessions w; io := io w;
     emitted := emitted w; logged := logged w; syncLaunches := syncLaunches w;
     pendingInitialize := l |}.

Definition with_clock (t : Z) (w : World) : World :=
  {| config := config w; clock := t; sessionsColl := sessionsColl w;
     chatsColl := chatsColl w; messagesColl := messagesColl w;
     nextObjectId := nextObjectId w; sessions := sessions w; io := io w;
     emitted := emitted w; logged := logged w; syncLaunches := syncLaunches w;
     pendingInitialize := pendingInitialize w |}.

(** ** The state and exception monad *)

Definition M (A : Type) : Type := World -> result A * World.

Global Instance M_ret : MRet M := fun A a w => (Ok a, w).

Global Instance M_bind : MBind M := fun A B f m w =>
  match m w with
  | (Ok a, w') => f a w'
  | (Throw e, w') => (Throw e, w')
  end.

Definition throw {A : Type} (e : JsError) : M A := fun w => (Throw e, w).

(** [try { body } catch (error) { handler(error) }] *)
Definition try_catch {A : Type} (body : M A) (handler : JsError -> M A) : M A :=
  fun w =>
    match body w with
    | (Ok a, w') => (Ok a, w')
    | (Throw e, w') => handler e w'
    end.

Definition get : M World := fun w => (Ok w, w).
Definition modify (f : World -> World) : M unit := fun w => (Ok tt, f w).

(** Lifting of an outcome decided by the outside world. *)
Definition settle {A : Type} (r : result A) : M A := fun w => (r, w).

Definition exec {A : Type} (m : M A) (w : World) : World := snd (m w).
Definition outcome {A : Type} (m : M A) (w : World) : result A := fst (m w).

(** ** Logger *)

Definition logger (lvl : LogLevel) (msg : string) : M unit :=
  modify (fun w => with_logged (logged w ++ [(lvl, msg)]) w).

(** ** Collection helpers *)

(** The first document that satisfies [p] is replaced by its image under
    [f]; without a match the collection is unchanged (no [upsert]). *)
Fixpoint update_first {A : Type} (p : A -> bool) (f : A -> A) (l : list A) : list A :=
  match l with
  | [] => []
  | x :: l' => if p x then f x :: l' else x :: update_first p f l'
  end.

(** ** Schema setters

    A string is the sequence of its code units, each below 256.
    [String.prototype.trim] removes the white space and the line
    terminators at both ends: among these code units the tab, the line
    feed, the vertical tab, the form feed, the carriage return, the space
    and the no-break space. A path declared with [trim: true] is trimmed
    when a document is saved and when an update sets it. *)

Definition is_white_space (c : ascii) : bool :=
  let n := nat_of_ascii c in
  ((9 <=? n)%nat && (n <=? 13)%nat) || (n =? 32)%nat || (n =? 160)%nat.

Fixpoint trimStart (s : string) : string :=
  match s with
  | String c rest => if is_white_space c then trimStart rest else s
  | EmptyString => EmptyString
  end.

Fixpoint trimEnd (s : string) : string :=
  match s with
  | EmptyString => EmptyString
  | String c rest =>
      match trimEnd rest with
      | EmptyString => if is_white_space c then EmptyString else String c EmptyString
      | rest' => String c rest'
      end
  end.

Definition trim (s : string) : string := trimEnd (trimStart s).

(** ** SocketManager ([src/services/whatsapp/SocketManager.ts]) *)

Module SocketManager.
(** [this.io?.to(`user:${userId}`).emit(event, data)]: nothing is sent
    while the Socket.IO server is not initialised. *)
Definition emitToUser (userId : string) (ev : WSEvents) (d : Payload) : M unit :=
  logger LInfo "Emitting to user";;
  modify (fun w =>
    if io w
    then with_emitted (emitted w ++ [{| room := "user:" ++ userId; event := ev; data := d |}]) w
    else w).

Definition emitQRCode (sessionId userId qrCode : string) : M unit :=
  emitToUser userId QR_CODE (QrPayload sessionId qrCode).

Definition emitSessionStatus (sessionId userId : string) (status : SessionStatus) : M unit :=
  emitToUser userId SESSION_STATUS (StatusPayload sessionId status).

Definition emitMessage (sessionId userId : string) (message : MessageDoc.t) : M unit :=
  logger LInfo "Emitting message to user";;
  emitToUser userId MESSAGE_RECEIVED (MessagePayload sessionId message).

Definition emitSyncProgress (sessionId userId : string) (progress : Z) : M unit :=
  emitToUser userId SYNC_PROGRESS (ProgressPayload sessionId progress).

Definition emitError (userId error : string) : M unit :=
  emitToUser userId ERROR (ErrorPayload error).
End SocketManager.

(** ** The Session model ([src/models/Session.ts]) *)

Module Session.
Definition has_sessionId (sid : string) (d : SessionDoc.t) : bool :=
  bool_decide (SessionDoc.sessionId d = sid).

(** [Session.findOne({ sessionId })] *)
Definition findOne (sid : string) : M (option SessionDoc.t) :=
  w ← get; mret (List.find (has_sessionId sid) (sessionsColl w)).

(** [Session.findOneAndUpdate({ sessionId }, update)] *)
Definition findOneAndUpdate (sid : string) (update : SessionDoc.t -> SessionDoc.t) : M unit :=
  modify (fun w => with_sessionsColl (update_first (has_sessionId sid) update (sessionsColl w)) w).

(** [Session.find({ status: { $in: statuses } })] *)
Definition find_status_in (statuses : list SessionStatus) : M (list SessionDoc.t) :=
  w ← get;
  mret (List.filter (fun d => bool_decide (SessionDoc.status d ∈ statuses)) (sessionsColl w)).

(** [Session.create({ userId, sessionId, status })]; [sessionId] carries a
    unique index, the other fields take the schema defaults. *)
Definition create (uid sid : string) (st : SessionStatus) : M SessionDoc.t :=
  w ← get;
  if existsb (has_sessionId sid) (sessionsColl w)
  then throw {| code := Some 11000; message := "E11000 duplicate key error" |}
  else
    let d := {| SessionDoc.userId := uid; SessionDoc.sessionId := sid;
                SessionDoc.phoneNumber := None; SessionDoc.status := st;
                SessionDoc.qrCode := None; SessionDoc.syncProgress := 0;
                SessionDoc.lastSyncedAt := None |} in
    modify (with_sessionsColl (sessionsColl w ++ [d]));;
    mret d.

Definition is_active_of (uid : string) (d : SessionDoc.t) : bool :=
  bool_decide (SessionDoc.userId d = uid)
  && bool_decide (SessionDoc.status d ∈ [READY; SYNCING]).

(** [sessionSchema.statics.getActiveSessionsCount] *)
Definition getActiveSessionsCount (uid : string) : M Z :=
  w ← get;
  mret (Z.of_nat (length (List.filter (is_active_of uid) (sessionsColl w)))).
End Session.

(** ** The Message model ([src/models/Message.ts]) *)

Module Message.
Definition has_key (sid mid : string) (d : MessageDoc.t) : bool :=
  bool_decide (MessageDoc.sessionId d = sid)
  && bool_decide (MessageDoc.messageId d = mid).

(** [Message.collection.insertOne(doc)] under the unique index
    [{ messageId: 1, sessionId: 1 }]: a second document with the same key
    is refused with error code 11000; otherwise the document is stored
    under a fresh [_id], which is returned as [insertedId]. *)
Definition collection_insertOne (mk : nat -> MessageDoc.t) : M nat :=
  w ← get;
  let d := mk (nextObjectId w) in
  if existsb (has_key (MessageDoc.sessionId d) (MessageDoc.messageId d)) (messagesColl w)
  then throw {| code := Some 11000; message := "E11000 duplicate key error" |}
  else
    modify (with_messagesColl (messagesColl w ++ [d]) (S (nextObjectId w)));;
    mret (nextObjectId w).

(** [Message.findById(id)] *)
Definition findById (id : nat) : M (option MessageDoc.t) :=
  w ← get;
  mret (List.find (fun d => bool_decide (MessageDoc._id d = id)) (messagesColl w)).

(** [Message.findOneAndUpdate({ sessionId, messageId }, update)] *)
Definition findOneAndUpdate (sid mid : string) (update : MessageDoc.t -> MessageDoc.t) : M unit :=
  modify (fun w => with_messagesColl (update_first (has_key sid mid) update (messagesColl w)) (nextObjectId w) w).
End Message.

(** ** The Chat model ([src/models/Chat.ts]) *)

Module Chat.
Definition has_key (sid cid : string) (d : ChatDoc.t) : bool :=
  bool_decide (ChatDoc.sessionId d = sid)
  && bool_decide (ChatDoc.chatId d = cid).

(** [Chat.findOneAndUpdate({ sessionId, chatId }, update)] *)
Definition findOneAndUpdate (sid cid : string) (update : ChatDoc.t -> ChatDoc.t) : M unit :=
  modify (fun w => with_chatsColl (update_first (has_key sid cid) update (chatsColl w)) w).

(** What the schema makes of a document that is written through the
    model: [name] is declared with [trim: true]. *)
Definition cast (d : ChatDoc.t) : ChatDoc.t :=
  {| ChatDoc.sessionId := ChatDoc.sessionId d; ChatDoc.chatId := ChatDoc.chatId d;
     ChatDoc.name := trim (ChatDoc.name d); ChatDoc.isGroup := ChatDoc.isGroup d;
     ChatDoc.participants := ChatDoc.participants d;
     ChatDoc.lastMessage := ChatDoc.lastMessage d;
     ChatDoc.lastMessageTime := ChatDoc.lastMessageTime d;
     ChatDoc.unreadCount := ChatDoc.unreadCount d |}.

(** [Chat.findOneAndUpdate({ sessionId, chatId }, doc, { upsert: true })]
    with a replacement for every field of the schema. *)
Definition upsert (d : ChatDoc.t) : M unit :=
  modify (fun w =>
    let d := cast d in
    let p := has_key (ChatDoc.sessionId d) (ChatDoc.chatId d) in
    if existsb p (chatsColl w)
    then with_chatsColl (update_first p (fun _ => d) (chatsColl w)) w
    else with_chatsColl (chatsColl w ++ [d]) w).
End Chat.

(** ** JavaScript numbers that are not integers

    [/] and [*] on [Number]s are the IEEE-754 binary64 operations, rounding
    to nearest with ties to even: [SFdiv] and [SFmul] at [prec = 53],
    [emax = 1024]. [Math.round] returns the integer nearest to its argument,
    the larger one on a tie. *)

Module Number.
Definition prec : Z := 53.
Definition emax : Z := 1024.

(** The [Number] that holds the integer [z] (exact below [2^53]). *)
Definition of_Z (z : Z) : spec_float := binary_normalize prec emax z 0 false.

Definition div (x y : spec_float) : spec_float := SFdiv prec emax x y.
Definition mul (x y : spec_float) : spec_float := SFmul prec emax x y.

(** [Math.round(x)] for a finite [x], as an integer: [floor (x + 1/2)]
    computed exactly from the mantissa and the exponent. The handlers
    never apply it to an infinity or a NaN; it answers [0] there. *)
Definition Math_round (x : spec_float) : Z :=
  match x with
  | S754_finite s m e =>
      let v := if s then Zneg m else Zpos m in
      match e with
      | Zneg p => (2 * v + 2 ^ Zpos p) / 2 ^ (Zpos p + 1)
      | _ => v * 2 ^ e
      end
  | _ => 0
  end.
End Number.

(** [Math.round(((i + 1) / totalChats) * 100)] *)
Definition progress_of (i totalChats : Z) : Z :=
  Number.Math_round
    (Number.mul (Number.div (Number.of_Z (i + 1)) (Number.of_Z totalChats))
                (Number.of_Z 100)).

(** [a || b] on a possibly undefined string: the empty string is falsy. *)
Definition or_string (a : option string) (b : string) : string :=
  match a with
  | Some s => if bool_decide (s = "") then b else s
  | None => b
  end.

(** [a || 0] on a possibly undefined number. *)
Definition or_zero (a : option Z) : Z := default 0 a.

(** [a || false] on a possibly undefined boolean. *)
Definition or_false (a : option bool) : bool := default false a.

(** [for (const x of xs) { body(x) }] *)
Fixpoint for_of {A : Type} (xs : list A) (body : A -> M unit) : M unit :=
  match xs with
  | [] => mret tt
  | x :: xs' => body x;; for_of xs' body
  end.

(** ** SessionManager ([src/services/whatsapp/SessionManager.ts]) *)

Module SessionManager.

Record SessionCallbacks := {
  onQR : option (string -> M unit);
  onReady : option (M unit);
  onDisconnected : option (M unit)
}.

(** The default argument [callbacks = {}]. *)
Definition no_callbacks : SessionCallbacks :=
  {| onQR := None; onReady := None; onDisconnected := None |}.

(** [await callbacks.f?.()] *)
Definition call (cb : option (M unit)) : M unit :=
  match cb with
  | Some f => f
  | None => mret tt
  end.

(** [this.sessions.get], [.set] and [.delete] *)
Definition sessions_get (sessionId : string) : M (option Client) :=
  w ← get; mret (sessions w !! sessionId).

Definition sessions_set (sessionId : string) (client : Client) : M unit :=
  modify (fun w => with_sessions (<[sessionId := client]> (sessions w)) w).

Definition sessions_delete (sessionId : string) : M unit :=
  modify (fun w => with_sessions (delete sessionId (sessions w)) w).

Definition now : M Z := w ← get; mret (clock w).

(** The document both ingestion paths hand to [insertOne]. *)
Definition message_row (sessionId chatId : string) (msg : WAMessage) (t : Z) (id : nat) : MessageDoc.t :=
  {| MessageDoc._id := id;
     MessageDoc.sessionId := sessionId;
     MessageDoc.chatId := chatId;
     MessageDoc.messageId := wa_id_serialized msg;
     MessageDoc.body := or_string (wa_body msg) "";
     MessageDoc.timestamp := wa_timestamp msg * 1000;
     MessageDoc.fromMe := wa_fromMe msg;
     MessageDoc.sender := wa_from msg;
     MessageDoc.isGroupMsg := or_false (wa_isGroupMsg msg);
     MessageDoc.ackStatus := or_zero (wa_ack msg);
     MessageDoc.hasMedia := wa_hasMedia msg;
     MessageDoc.isRead := wa_fromMe msg;
     MessageDoc.readBy := [];
     MessageDoc.createdAt := t;
     MessageDoc.updatedAt := t |}.

(** *** [initializeClient]

    [construct] is what [new Client(...)] does (it returns or throws) and
    [initialize] is how the promise of [client.initialize()] will settle. *)
Definition initializeClient (sessionId userId : string) (callbacks : SessionCallbacks)
    (construct initialize : result unit) : M unit :=
  settle construct;;
  sessions_set sessionId {| clientId := sessionId |};;
  modify (fun w => with_pendingInitialize (pendingInitialize w ++ [(sessionId, initialize)]) w).

(** The callback of [client.initialize().catch(...)]. *)
Definition initialize_catch (sessionId : string) (error : JsError) : M unit :=
  logger LError "Failed to initialize WhatsApp client";;
  Session.findOneAndUpdate sessionId (SessionDoc.set_status FAILED);;
  sessions_delete sessionId.

(** Settling the queued [initialize] promises, oldest first. *)
Fixpoint settle_initialize (pending : list (string * result unit)) : M unit :=
  match pending with
  | [] => mret tt
  | (sessionId, Ok _) :: rest => settle_initialize rest
  | (sessionId, Throw error) :: rest =>
      initialize_catch sessionId error;; settle_initialize rest
  end.

Definition drain_initialize : M unit :=
  w ← get;
  modify (with_pendingInitialize []);;
  settle_initialize (pendingInitialize w).

(** *** [restoreSession] and [restoreSessions] *)
Definition restoreSession (sessionId userId : string) (callbacks : SessionCallbacks)
    (construct initialize : result unit) : M unit :=
  try_catch
    (logger LInfo "Restoring WhatsApp session";;
     Session.findOneAndUpdate sessionId (SessionDoc.set_status INITIALIZING);;
     initializeClient sessionId userId callbacks construct initialize;;
     logger LInfo "Session restore initiated")
    (fun error =>
       logger LError "Failed to restore session";;
       Session.findOneAndUpdate sessionId (SessionDoc.set_status FAILED);;
       throw error).

(** What the SDK does for the client of each session identifier. *)
Record Sdk := {
  construct_of : string -> result unit;
  initialize_of : string -> result unit
}.

(** The body of the loop of [restoreSessions] for one persisted record. *)
Definition restore_each (sdk : Sdk) (session : SessionDoc.t) : M unit :=
  try_catch
    (logger LInfo "Attempting to restore session";;
     restoreSession (SessionDoc.sessionId session) (SessionDoc.userId session)
       no_callbacks
       (construct_of sdk (SessionDoc.sessionId session))
       (initialize_of sdk (SessionDoc.sessionId session)))
    (fun error => logger LError "Failed to restore session").

Definition restoreSessions (sdk : Sdk) : M unit :=
  try_catch
    (found ← Session.find_status_in [READY; SYNCING; DISCONNECTED];
     logger LInfo "Found sessions to restore";;
     if bool_decide (length found = 0%nat)
     then logger LInfo "No sessions to restore"
     else
       for_of found (restore_each sdk);;
       logger LInfo "Session restoration completed")
    (fun error => logger LError "Failed to restore sessions").

(** *** [createSession]; [generated] is the value of [generateSessionId()]. *)
Definition createSession (userId : string) (callbacks : SessionCallbacks)
    (generated : string) (construct initialize : result unit)
    : M (string * SessionDoc.t) :=
  logger LInfo "Creating WhatsApp session";;
  activeCount ← Session.getActiveSessionsCount userId;
  w ← get;
  if bool_decide (activeCount >= maxSessionsPerUser (config w))
  then throw {| code := None;
                message := "Maximum " ++ pretty (maxSessionsPerUser (config w))
                           ++ " sessions allowed" |}
  else
    let sessionId := generated in
    try_catch
      (sessionDoc ← Session.create userId sessionId INITIALIZING;
       initializeClient sessionId userId callbacks construct initialize;;
       mret (sessionId, sessionDoc))
      (fun error => logger LError "Error creating session";; throw error).

(** *** The event handlers wired by [setupClientHandlers] *)

(** [client.on('qr', ...)] *)
Definition on_qr (sessionId userId : string) (callbacks : SessionCallbacks)
    (qr : string) : M unit :=
  logger LInfo "QR Code generated";;
  Session.findOneAndUpdate sessionId
    (fun d => SessionDoc.set_qrCode (Some qr) (SessionDoc.set_status QR_SCAN_PENDING d));;
  SocketManager.emitQRCode sessionId userId qr;;
  match onQR callbacks with
  | Some f => f qr
  | None => mret tt
  end.

(** [client.on('ready', ...)]; [wid_user] is [client.info.wid.user], which
    the schema trims ([phoneNumber] is declared with [trim: true]). The
    last statement starts the background pass without awaiting it. *)
Definition on_ready (sessionId userId : string) (callbacks : SessionCallbacks)
    (wid_user : string) : M unit :=
  logger LInfo "Client is ready";;
  Session.findOneAndUpdate sessionId
    (fun d => SessionDoc.set_qrCode None
                (SessionDoc.set_phoneNumber (Some (trim wid_user))
                   (SessionDoc.set_status READY d)));;
  SocketManager.emitSessionStatus sessionId userId READY;;
  call (onReady callbacks);;
  modify (fun w => with_syncLaunches (syncLaunches w ++ [sessionId]) w).

(** [client.on('message', ...)] *)
Definition on_message (sessionId userId : string) (message : WAMessage) : M unit :=
  try_catch
    (logger LInfo "New message received";;
     t ← now;
     insertedId ← Message.collection_insertOne
                    (message_row sessionId (wa_from message) message t);
     savedMessage ← Message.findById insertedId;
     match savedMessage with
     | Some saved =>
         SocketManager.emitMessage sessionId userId saved;;
         logger LInfo "Message emitted via WebSocket"
     | None => mret tt
     end;;
     Chat.findOneAndUpdate sessionId (wa_from message)
       (fun c =>
          {| ChatDoc.sessionId := ChatDoc.sessionId c;
             ChatDoc.chatId := ChatDoc.chatId c;
             ChatDoc.name := ChatDoc.name c;
             ChatDoc.isGroup := ChatDoc.isGroup c;
             ChatDoc.participants := ChatDoc.participants c;
             ChatDoc.lastMessage := Some (or_string (wa_body message) "");
             ChatDoc.lastMessageTime := Some (wa_timestamp message * 1000);
             ChatDoc.unreadCount :=
               ChatDoc.unreadCount c + (if wa_fromMe message then 0 else 1) |}))
    (fun error =>
       if bool_decide (code error ≠ Some 11000)
       then logger LError "Error handling incoming message"
       else mret tt).

(** [client.on('message_ack', ...)] *)
Definition on_message_ack (sessionId : string) (message : WAMessage) (ack : Z) : M unit :=
  try_catch
    (Message.findOneAndUpdate sessionId (wa_id_serialized message)
       (MessageDoc.set_ackStatus ack))
    (fun error => logger LError "Error updating message ACK").

(** [client.on('authenticated', ...)] *)
Definition on_authenticated (sessionId : string) : M unit :=
  logger LInfo "Client authenticated".

(** [client.on('auth_failure', ...)] *)
Definition on_auth_failure (sessionId : string) (msg : string) : M unit :=
  logger LError "Authentication failure";;
  Session.findOneAndUpdate sessionId (SessionDoc.set_status FAILED).

(** [client.on('disconnected', ...)] *)
Definition on_disconnected (sessionId : string) (callbacks : SessionCallbacks)
    (reason : string) : M unit :=
  logger LWarn "Client disconnected";;
  Session.findOneAndUpdate sessionId (SessionDoc.set_status DISCONNECTED);;
  call (onDisconnected callbacks);;
  sessions_delete sessionId.

(** *** [startBackgroundSync] *)

(** The body of the inner loop [for (const msg of messages) { ... }]: one
    message of the fetched window; the result is the new [savedCount]. *)
Definition save_message (sessionId chatId : string) (msg : WAMessage)
    (savedCount : Z) : M Z :=
  try_catch
    (t ← now;
     Message.collection_insertOne (message_row sessionId chatId msg t);;
     mret (savedCount + 1))
    (fun msgError =>
       (if bool_decide (code msgError ≠ Some 11000)
        then logger LError "Failed to save message"
        else mret tt);;
       mret savedCount).

Fixpoint save_messages (sessionId chatId : string) (messages : list WAMessage)
    (savedCount : Z) : M Z :=
  match messages with
  | [] => mret savedCount
  | msg :: rest =>
      saved ← save_message sessionId chatId msg savedCount;
      save_messages sessionId chatId rest saved
  end.

(** The body of the outer loop for the conversation at index [i]. *)
Definition sync_chat (sessionId userId : string) (totalChats i : Z) (chat : WAChat) : M unit :=
  let progress := progress_of i totalChats in
  try_catch
    (messages ← settle (wc_fetchMessages chat);
     let lastMessage := head messages in
     t ← now;
     Chat.upsert
       {| ChatDoc.sessionId := sessionId;
          ChatDoc.chatId := wc_id_serialized chat;
          ChatDoc.name := or_string (wc_name chat) (wc_id_user chat);
          ChatDoc.isGroup := wc_isGroup chat;
          ChatDoc.participants := if wc_isGroup chat then wc_participants chat else [];
          ChatDoc.lastMessage := Some (or_string (lastMessage ≫= wa_body) "");
          ChatDoc.lastMessageTime :=
            Some (match lastMessage with
                  | Some m => if bool_decide (wa_timestamp m = 0) then t
                              else wa_timestamp m * 1000
                  | None => t
                  end);
          ChatDoc.unreadCount := or_zero (wc_unreadCount chat) |};;
     save_messages sessionId (wc_id_serialized chat) messages 0;;
     logger LInfo "Chat synced")
    (fun chatError => logger LError "Failed to sync chat");;
  Session.findOneAndUpdate sessionId (SessionDoc.set_syncProgress progress);;
  SocketManager.emitSyncProgress sessionId userId progress.

(** [for (let i = 0; i < totalChats; i++) { ... }], entered at index [i]
    with the conversations from that index on. *)
Fixpoint sync_chats (sessionId userId : string) (totalChats i : Z) (chats : list WAChat) : M unit :=
  match chats with
  | [] => mret tt
  | chat :: rest =>
      sync_chat sessionId userId totalChats i chat;;
      sync_chats sessionId userId totalChats (i + 1) rest
  end.

(** [getChats] is what [client.getChats()] answers. *)
Definition startBackgroundSync (sessionId : string) (client : Client) (userId : string)
    (getChats : result (list WAChat)) : M unit :=
  try_catch
    (session ← Session.findOne sessionId;
     match session with
     | None => mret tt
     | Some _ =>
         Session.findOneAndUpdate sessionId
           (fun d => SessionDoc.set_syncProgress 0 (SessionDoc.set_status SYNCING d));;
         SocketManager.emitSyncProgress sessionId userId 0;;
         chats ← settle getChats;
         let totalChats := Z.of_nat (length chats) in
         logger LInfo "Starting background sync";;
         sync_chats sessionId userId totalChats 0 chats;;
         t ← now;
         Session.findOneAndUpdate sessionId
           (fun d => SessionDoc.set_lastSyncedAt (Some t)
                       (SessionDoc.set_syncProgress 100
                          (SessionDoc.set_status READY d)));;
         SocketManager.emitSessionStatus sessionId userId READY;;
         logger LInfo "Background sync completed"
     end)
    (fun error =>
       logger LError "Background sync failed";;
       session ← Session.findOne sessionId;
       match session with
       | Some s =>
           Session.findOneAndUpdate sessionId (SessionDoc.set_status FAILED);;
           SocketManager.emitSessionStatus sessionId (SessionDoc.userId s) FAILED
       | None => mret tt
       end).

(** *** [getSession], [getAllSessions], [destroySession] *)

Definition getSession (sessionId : string) : M (option Client) :=
  sessions_get sessionId.

Definition getAllSessions : M (gmap string Client) :=
  w ← get; mret (sessions w).

(** [teardown] is how [client.destroy()] settles when it is called. *)
Definition destroySession (sessionId : string) (teardown : result unit) : M unit :=
  client ← sessions_get sessionId;
  match client with
  | Some _ => settle teardown;; sessions_delete sessionId
  | None => mret tt
  end;;
  Session.findOneAndUpdate sessionId (SessionDoc.set_status DISCONNECTED);;
  logger LInfo "Session destroyed".

End SessionManager.

(** ** WhatsAppController ([src/controllers/WhatsAppController.ts]) *)

Module WhatsAppController.
(** The callbacks [createSession] hands to the orchestrator;
    [generateQRCodeDataURL] is the QR renderer of [QRManager]. *)
Definition callbacks (sessionId userId : string)
    (generateQRCodeDataURL : string -> string) : SessionManager.SessionCallbacks :=
  {| SessionManager.onQR := Some (fun qr =>
       SocketManager.emitQRCode sessionId userId (generateQRCodeDataURL qr));
     SessionManager.onReady := Some (SocketManager.emitSessionStatus sessionId userId READY);
     SessionManager.onDisconnected :=
       Some (SocketManager.emitSessionStatus sessionId userId DISCONNECTED) |}.
End WhatsAppController.

(** ** Observations on a state *)

(** The record [Session.findOne({ sessionId })] answers. *)
Definition session_of (w : World) (sessionId : string) : option SessionDoc.t :=
  List.find (Session.has_sessionId sessionId) (sessionsColl w).

Definition status_of (w : World) (sessionId : string) : option SessionStatus :=
  SessionDoc.status <$> session_of w sessionId.

(** The stored message [Message.findOne({ sessionId, messageId })] answers. *)
Definition message_of (w : World) (sessionId messageId : string) : option MessageDoc.t :=
  List.find (Message.has_key sessionId messageId) (messagesColl w).

(** The stored rows of a key, oldest first. *)
Definition rows_of (w : World) (sessionId messageId : string) : list MessageDoc.t :=
  List.filter (Message.has_key sessionId messageId) (messagesColl w).

(** How many rows the [messages] collection holds for a key. *)
Definition rows_for (w : World) (sessionId messageId : string) : nat :=
  length (List.filter (Message.has_key sessionId messageId) (messagesColl w)).

(** The count [getActiveSessionsCount] computes. *)
Definition activeSessionsCount (w : World) (userId : string) : Z :=
  Z.of_nat (length (List.filter (Session.is_active_of userId) (sessionsColl w))).

(** The [sync_progress] event of a session. *)
Definition progress_emission (sessionId userId : string) (p : Z) : Emission :=
  {| room := "user:" ++ userId; event := SYNC_PROGRESS;
     data := ProgressPayload sessionId p |}.

(** The [session_status] event of a session. *)
Definition status_emission (sessionId userId : string) (st : SessionStatus) : Emission :=
  {| room := "user:" ++ userId; event := SESSION_STATUS;
     data := StatusPayload sessionId st |}.

(** The [session_status] events published so far for a session. *)
Definition status_events (w : World) (sessionId : string) : list SessionStatus :=
  omap (fun e =>
          match event e, data e with
          | SESSION_STATUS, StatusPayload sid st =>
              if bool_decide (sid = sessionId) then Some st else None
          | _, _ => None
          end) (emitted w).

(** The [sync_progress] values published so far for a session. *)
Definition progress_events (w : World) (sessionId : string) : list Z :=
  omap (fun e =>
          match event e, data e with
          | SYNC_PROGRESS, ProgressPayload sid p =>
              if bool_decide (sid = sessionId) then Some p else None
          | _, _ => None
          end) (emitted w).

Definition is_received_for (sessionId messageId : string) (e : Emission) : bool :=
  match event e, data e with
  | MESSAGE_RECEIVED, MessagePayload sid m =>
      bool_decide (sid = sessionId)
      && bool_decide (MessageDoc.messageId m = messageId)
  | _, _ => false
  end.

(** How many [message_received] events were published for a key. *)
Definition received_events (w : World) (sessionId messageId : string) : nat :=
  length (List.filter (is_received_for sessionId messageId) (emitted w)).

(** Both pairing fields of the record are set. *)
Definition both_set (d : SessionDoc.t) : Prop :=
  is_Some (SessionDoc.qrCode d) /\ is_Some (SessionDoc.phoneNumber d).

(** ** Event delivery

    The events a client handle raises, and the handler
    [setupClientHandlers] registered for each of them. *)

Inductive ClientEvent :=
  | EvQr (qr : string)
  | EvReady (wid_user : string)
  | EvMessage (message : WAMessage)
  | EvMessageAck (message : WAMessage) (ack : Z)
  | EvAuthenticated
  | EvAuthFailure (msg : string)
  | EvDisconnected (reason : string).

Definition dispatch (sessionId userId : string)
    (callbacks : SessionManager.SessionCallbacks) (ev : ClientEvent) : M unit :=
  match ev with
  | EvQr qr => SessionManager.on_qr sessionId userId callbacks qr
  | EvReady wid_user => SessionManager.on_ready sessionId userId callbacks wid_user
  | EvMessage message => SessionManager.on_message sessionId userId message
  | EvMessageAck message ack => SessionManager.on_message_ack sessionId message ack
  | EvAuthenticated => SessionManager.on_authenticated sessionId
  | EvAuthFailure msg => SessionManager.on_auth_failure sessionId msg
  | EvDisconnected reason => SessionManager.on_disconnected sessionId callbacks reason
  end.

(** The handlers run one after the other, in the order of the events. *)
Definition run_events (sessionId userId : string)
    (callbacks : SessionManager.SessionCallbacks) (evs : list ClientEvent) (w : World) : World :=
  fold_left (fun w ev => exec (dispatch sessionId userId callbacks ev) w) evs w.

Definition is_qr (ev : ClientEvent) : bool :=
  match ev with EvQr _ => true | _ => false end.

Definition is_ready (ev : ClientEvent) : bool :=
  match ev with EvReady _ => true | _ => false end.

(** No [qr] event comes after a [ready] event. *)
Fixpoint pairing_precedes_ready (evs : list ClientEvent) : bool :=
  match evs with
  | [] => true
  | ev :: rest =>
      if is_ready ev then negb (existsb is_qr rest)
      else pairing_precedes_ready rest
  end.

(** What a handler does to the record of its session (established for the
    handlers themselves in [dispatch_frame]). *)
Definition record_effect (ev : ClientEvent) (d : SessionDoc.t) : SessionDoc.t :=
  match ev with
  | EvQr qr => SessionDoc.set_qrCode (Some qr) (SessionDoc.set_status QR_SCAN_PENDING d)
  | EvReady wid_user =>
      SessionDoc.set_qrCode None
        (SessionDoc.set_phoneNumber (Some (trim wid_user)) (SessionDoc.set_status READY d))
  | EvAuthFailure _ => SessionDoc.set_status FAILED d
  | EvDisconnected _ => SessionDoc.set_status DISCONNECTED d
  | _ => d
  end.

(** The record of a session after the handlers of [evs] ran on it. *)
Definition record_after (evs : list ClientEvent) (d : SessionDoc.t) : SessionDoc.t :=
  fold_left (fun d ev => record_effect ev d) evs d.

(** ** Computations that keep to themselves *)

(** A callback that only publishes and logs: it returns normally and
    leaves the collections, the registry and the task bookkeeping alone. *)
Definition emits_only (m : M unit) : Prop :=
  forall w,
    fst (m w) = Ok tt
    /\ config (snd (m w)) = config w
    /\ clock (snd (m w)) = clock w
    /\ sessionsColl (snd (m w)) = sessionsColl w
    /\ chatsColl (snd (m w)) = chatsColl w
    /\ messagesColl (snd (m w)) = messagesColl w
    /\ nextObjectId (snd (m w)) = nextObjectId w
    /\ sessions (snd (m w)) = sessions w
    /\ io (snd (m w)) = io w
    /\ syncLaunches (snd (m w)) = syncLaunches w
    /\ pendingInitialize (snd (m w)) = pendingInitialize w.

Definition quiet_callbacks (callbacks : SessionManager.SessionCallbacks) : Prop :=
  (forall f qr, SessionManager.onQR callbacks = Some f -> emits_only (f qr))
  /\ (forall m, SessionManager.onReady callbacks = Some m -> emits_only m)
  /\ (forall m, SessionManager.onDisconnected callbacks = Some m -> emits_only m).

(** A computation that leaves the session records, the published events
    and the Socket.IO server alone, whatever its outcome. *)
Definition silent {A : Type} (m : M A) : Prop :=
  forall w,
    sessionsColl (snd (m w)) = sessionsColl w
    /\ emitted (snd (m w)) = emitted w
    /\ io (snd (m w)) = io w.

(** A computation that always returns. *)
Definition returns {A : Type} (m : M A) : Prop :=
  forall w, exists a, fst (m w) = Ok a.

(** ** The message ingestion path

    A message reaches the store either through the live [message] handler
    or through the inner loop of a synchronisation pass; [t] is the wall
    clock at that moment. *)

Inductive Ingestion :=
  | Live (t : Z) (sessionId userId : string) (message : WAMessage)
  | Synced (t : Z) (sessionId chatId : string) (msg : WAMessage).

Definition ingest (i : Ingestion) : M unit :=
  match i with
  | Live t sessionId userId message =>
      modify (with_clock t);;
      SessionManager.on_message sessionId userId message
  | Synced t sessionId chatId msg =>
      modify (with_clock t);;
      SessionManager.save_message sessionId chatId msg 0;;
      mret tt
  end.

Definition run_ingestions (l : list Ingestion) (w : World) : World :=
  fold_left (fun w i => exec (ingest i) w) l w.

(** The key [(sessionId, messageId)] an invocation writes under. *)
Definition sessionId_of (i : Ingestion) : string :=
  match i with Live _ sid _ _ | Synced _ sid _ _ => sid end.

Definition messageId_of (i : Ingestion) : string :=
  match i with Live _ _ _ m | Synced _ _ _ m => wa_id_serialized m end.

Definition has_key_of (sessionId messageId : string) (i : Ingestion) : bool :=
  bool_decide (sessionId_of i = sessionId) && bool_decide (messageId_of i = messageId).

Definition is_live (i : Ingestion) : bool :=
  match i with Live _ _ _ _ => true | Synced _ _ _ _ => false end.

(** The row an invocation stores when it is the one that inserts. *)
Definition row_of (i : Ingestion) (id : nat) : MessageDoc.t :=
  match i with
  | Live t sid _ m => SessionManager.message_row sid (wa_from m) m t id
  | Synced t sid cid m => SessionManager.message_row sid cid m t id
  end.

(** What an invocation publishes when it is the one that inserts. *)
Definition published_by (i : Ingestion) (id : nat) : list Emission :=
  match i with
  | Live t sid uid m =>
      [{| room := "user:" ++ uid; event := MESSAGE_RECEIVED;
          data := MessagePayload sid (row_of i id) |}]
  | Synced _ _ _ _ => []
  end.

(** Object identifiers are allocated from the counter. *)
Definition ids_fresh (w : World) : Prop :=
  Forall (fun d => (MessageDoc._id d < nextObjectId w)%nat) (messagesColl w).

(** ** Startup

    [server.ts] awaits [restoreSessions()]; the promises of
    [client.initialize()] it left behind settle afterwards. *)

Definition startup (sdk : SessionManager.Sdk) : M unit :=
  SessionManager.restoreSessions sdk;;
  SessionManager.drain_initialize.

(** The statuses [restoreSessions] selects. *)
Definition restorable (d : SessionDoc.t) : bool :=
  bool_decide (SessionDoc.status d ∈ [READY; SYNCING; DISCONNECTED]).

Definition is_ok {A : Type} (r : result A) : bool :=
  match r with Ok _ => true | Throw _ => false end.

(** The client of a session is constructed and its initialisation
    succeeds. *)
Definition restores (sdk : SessionManager.Sdk) (sessionId : string) : bool :=
  is_ok (SessionManager.construct_of sdk sessionId)
  && is_ok (SessionManager.initialize_of sdk sessionId).

(** An [initialize] promise queued for the session is going to reject. *)
Definition rejected (pending : list (string * result unit)) (sessionId : string) : bool :=
  existsb (fun p => bool_decide (fst p = sessionId) && negb (is_ok (snd p))) pending.

(** ** The progress percentage *)

(** The percentages a pass over [n] conversations computes, in order. *)
Definition progress_sequence (n : nat) : list Z :=
  (fun k => progress_of (Z.of_nat k) (Z.of_nat n)) <$> seq 0 n.

(** *** The percentage as the specification words it

    [round(100 * processedCount / totalCount)] on exact rationals, with the
    tie rule of [Math.round] (a half rounds up). *)

Definition exact_round_percent (processedCount totalCount : Z) : Z :=
  (2 * (100 * processedCount) + totalCount) / (2 * totalCount).

(** *** Correct rounding

    The notions the proofs about [progress_of] are stated with. *)

Local Close Scope string_scope.

(** The integer nearest to [n / d], the even one on a tie. *)
Definition rne_div (n d : Z) : Z :=
  let q := n / d in
  let r := n mod d in
  if 2 * r <? d then q
  else if d <? 2 * r then q + 1
  else if Z.even q then q else q + 1.

(** The binary64 number with significand [rho] in [2^52, 2^53] and
    exponent [e]; a significand of [2^53] is renormalised. *)
Definition normal53 (rho e : Z) : spec_float :=
  if rho <? 2 ^ 53
  then S754_finite false (Z.to_pos rho) e
  else S754_finite false (Z.to_pos (2 ^ 52)) (e + 1).

(** [x] is the positive rational [n / d] correctly rounded to binary64:
    scaled by the power of two that brings it into [2^52, 2^53), then
    rounded to the nearest integer. *)
Definition rounds_to (n d : Z) (x : spec_float) : Prop :=
  exists g, 2 <= g <= 1000
    /\ 2 ^ 52 * d <= n * 2 ^ g < 2 ^ 53 * d
    /\ x = normal53 (rne_div (n * 2 ^ g) d) (- g).

(** The order of two positive binary64 numbers with negative exponents. *)
Definition float_le (x y : spec_float) : Prop :=
  match x, y with
  | S754_finite false m (Zneg g), S754_finite false m' (Zneg g') =>
      Zpos m * 2 ^ Zpos g' <= Zpos m' * 2 ^ Zpos g
  | _, _ => False
  end.

(** What the bits of a shift record say about the part of [n / h] that was
    shifted out: [shr_r] is set from one half on, [shr_s] when the part is
    neither zero nor one half. *)
Definition shr_represents (n h : Z) (mrs : shr_record) : Prop :=
  shr_m mrs = n / h
  /\ shr_r mrs = (h <=? 2 * (n mod h))
  /\ shr_s mrs = negb (n mod h =? 0) && negb (2 * (n mod h) =? h).

Local Open Scope string_scope.

(** ** Sample states and scenarios

    A configuration with the default limit of five sessions per user, an
    initialised Socket.IO server and empty collections; and the records and
    event sequences the examples below start from. *)

Definition world0 : World :=
  {| config := {| maxSessionsPerUser := 5 |};
     clock := 1700000000000;
     sessionsColl := [];
     chatsColl := [];
     messagesColl := [];
     nextObjectId := 0;
     sessions := ∅;
     io := true;
     emitted := [];
     logged := [];
     syncLaunches := [];
     pendingInitialize := [] |}.

Definition session_doc (uid sid : string) (st : SessionStatus) : SessionDoc.t :=
  {| SessionDoc.userId := uid; SessionDoc.sessionId := sid;
     SessionDoc.phoneNumber := None; SessionDoc.status := st;
     SessionDoc.qrCode := None; SessionDoc.syncProgress := 0;
     SessionDoc.lastSyncedAt := None |}.

(** User [u1] owns session [s1], whose handle is registered. *)
Definition world_s1 (st : SessionStatus) : World :=
  with_sessions {[ "s1" := {| clientId := "s1" |} ]}
    (with_sessionsColl [session_doc "u1" "s1" st] world0).

(** The same record without a registered handle. *)
Definition world_s1_no_handle (st : SessionStatus) : World :=
  with_sessionsColl [session_doc "u1" "s1" st] world0.

Definition boom : JsError := {| code := None; message := "Protocol error: Target closed" |}.

(** User [u1] with one READY session under a limit of one session per user. *)
Definition world_full : World :=
  {| config := {| maxSessionsPerUser := 1 |};
     clock := 1700000000000;
     sessionsColl := [session_doc "u1" "s1" READY];
     chatsColl := [];
     messagesColl := [];
     nextObjectId := 0;
     sessions := {[ "s1" := {| clientId := "s1" |} ]};
     io := true;
     emitted := [];
     logged := [];
     syncLaunches := [];
     pendingInitialize := [] |}.

Definition sample_message (mid : string) (ack : Z) : WAMessage :=
  {| wa_from := "15550002@c.us"; wa_id_serialized := mid; wa_body := Some "hello";
     wa_timestamp := 1700000000; wa_fromMe := false; wa_isGroupMsg := None;
     wa_ack := Some ack; wa_hasMedia := false |}.

(** Session [s1] holds message [m1], already acknowledged as read (3). *)
Definition world_read : World :=
  with_messagesColl
    [SessionManager.message_row "s1" "15550002@c.us" (sample_message "m1" 3) 1700000000000 0]
    1 (world_s1 READY).

(** One message of session [s1], seen first by the synchronisation pass and
    then by the live handler. *)
Definition sync_then_live : list Ingestion :=
  [Synced 1700000000100 "s1" "15550002@c.us" (sample_message "m1" 1);
   Live 1700000000200 "s1" "u1" (sample_message "m1" 1)].

(** The external SDK raises [ready] twice for the handle of [s1]. *)
Definition ready_twice : list ClientEvent :=
  [EvReady "15550001"; EvReady "15550001"].

(** A restored session is asked to pair again after it had been ready. *)
Definition ready_then_qr : list ClientEvent :=
  [EvReady "15550001"; EvQr "ABC"].

(** Three persisted sessions; the SDK cannot bring the second one back (its
    browser fails to start) and refuses to construct the client of the
    fourth, which is not restorable anyway. *)
Definition world_three : World :=
  with_sessionsColl
    [session_doc "u1" "s1" READY; session_doc "u1" "s2" SYNCING;
     session_doc "u2" "s3" DISCONNECTED; session_doc "u2" "s4" FAILED]
    world0.

Definition sdk_s2_fails : SessionManager.Sdk :=
  {| SessionManager.construct_of := fun sid =>
       if bool_decide (sid = "s4") then Throw boom else Ok tt;
     SessionManager.initialize_of := fun sid =>
       if bool_decide (sid = "s2") then Throw boom else Ok tt |}.

(** Three conversations with 10, 0 and 5 recent messages. *)
Definition numbered_messages (chat : string) (n : nat) : list WAMessage :=
  (fun k => sample_message (chat ++ "-" ++ pretty k) 1) <$> seq 0 n.

Definition sample_chat (chat : string) (n : nat) : WAChat :=
  {| wc_id_serialized := chat; wc_id_user := chat; wc_name := None;
     wc_isGroup := false; wc_participants := []; wc_unreadCount := None;
     wc_fetchMessages := Ok (numbered_messages chat n) |}.

Definition three_chats : list WAChat :=
  [sample_chat "a@c.us" 10; sample_chat "b@c.us" 0; sample_chat "c@c.us" 5].

(** Session [s1] as [restoreSession] leaves it when it had been paired
    before the restart: INITIALIZING, with the phone number of the earlier
    run still recorded. *)
Definition world_restored_paired : World :=
  with_sessions {[ "s1" := {| clientId := "s1" |} ]}
    (with_sessionsColl
       [SessionDoc.set_phoneNumber (Some "15550001") (session_doc "u1" "s1" INITIALIZING)]
       world0).

(** ** Tactics *)

(** Unfolding of the monadic plumbing. *)
Ltac munfold :=
  unfold exec, outcome, mbind, mret, M_bind, M_ret, throw, try_catch, get,
    modify, settle, logger in *.

(** Projections of an updated state. *)
Ltac wsimpl :=
  unfold with_sessionsColl, with_chatsColl, with_messagesColl, with_sessions,
    with_emitted, with_logged, with_syncLaunches, with_pendingInitialize,
    with_clock in *;
  simpl in *.

(** * The HTTP and Socket.IO layers around the orchestrator

    The middleware, the request handlers and the connection handlers that
    call the orchestrator or are called with what it publishes. What an
    external package decides ([jwt.verify], the renderers of [qrcode], the
    calls on a client of the SDK, [mongoose.connection.close]) is an
    argument of the function that consumes it. A string being the sequence
    of its code units, [String.length] is [value.length]. *)

(** ** HTTP requests and responses *)

(** [IUserPayload] ([src/types/index.ts]): what a verified token carries
    and what [authenticate] attaches to the request as [req.user]. *)
Module UserPayload.
Record t := { userId : string; email : string }.
End UserPayload.

(** The [data] member of the responses of the handlers below. *)
Inductive ResponseData :=
  | SessionIdData (sessionId : string)
  | SessionData (session : SessionDoc.t)
  | QrCodeData (qrCode : string)
  | UnreadCountData (unreadCount : Z).

(** [ApiResponse] ([src/types/index.ts]) *)
Module ApiResponse.
Record t := {
  success : bool;
  message : string;
  data : option ResponseData;
  error : option string
}.
End ApiResponse.

(** What a handler does with [res]: [res.status(statusCode).json(body)], or
    [res.setHeader('Content-Type', contentType); res.send(buffer)]. *)
Inductive HttpResponse :=
  | Json (statusCode : Z) (body : ApiResponse.t)
  | Send (contentType : string) (buffer : string).

(** A middleware either hands the request on with [next()], with what it
    attached to it, or answers it. *)
Inductive Middleware (A : Type) :=
  | Next (a : A)
  | Respond (r : HttpResponse).
Arguments Next {A} a.
Arguments Respond {A} r.

(** ** ResponseUtil ([src/utils/response.ts]); an omitted argument is
    [None] and takes the default of the signature. *)

Module ResponseUtil.
Definition success (message : string) (data : option ResponseData)
    (statusCode : option Z) : HttpResponse :=
  Json (default 200 statusCode)
    {| ApiResponse.success := true; ApiResponse.message := message;
       ApiResponse.data := data; ApiResponse.error := None |}.

Definition error (message : string) (statusCode : option Z)
    (error : option string) : HttpResponse :=
  Json (default 500 statusCode)
    {| ApiResponse.success := false; ApiResponse.message := message;
       ApiResponse.data := None; ApiResponse.error := error |}.

Definition unauthorized (message : option string) : HttpResponse :=
  error (default "Unauthorized" message) (Some 401) None.

Definition forbidden (message : option string) : HttpResponse :=
  error (default "Forbidden" message) (Some 403) None.

Definition notFound (message : option string) : HttpResponse :=
  error (default "Resource not found" message) (Some 404) None.

Definition badRequest (message : string) (err : option string) : HttpResponse :=
  error message (Some 400) err.
End ResponseUtil.

(** The status code and the body of a JSON answer. *)
Definition status_code (r : HttpResponse) : option Z :=
  match r with Json c _ => Some c | Send _ _ => None end.

Definition response_body (r : HttpResponse) : option ApiResponse.t :=
  match r with Json _ b => Some b | Send _ _ => None end.

(** ** The global error handler ([src/middleware/errorHandler.ts]) *)

Module ErrorHandler.
(** An error object as [errorHandler] reads it; [appStatusCode] is the
    [statusCode] of an [AppError] and is absent on any other error
    ([err instanceof AppError] is false). *)
Record Err := {
  name : string;
  message : string;
  stack : option string;
  code : option Z;
  appStatusCode : option Z
}.

(** [new AppError(message, statusCode = 500)]; the class does not set
    [name], which stays [Error]'s. [captured] is the stack trace. *)
Definition AppError (message : string) (statusCode : option Z)
    (captured : option string) : Err :=
  {| name := "Error"; message := message; stack := captured; code := None;
     appStatusCode := Some (default 500 statusCode) |}.

(** [nodeEnv] is [process.env.NODE_ENV]. *)
Definition errorHandler (err : Err) (nodeEnv : option string) : M HttpResponse :=
  let statusCode := 500 in
  let message_ := "Internal server error" in
  let '(statusCode, message_) :=
    match appStatusCode err with
    | Some c => (c, message err)
    | None => (statusCode, message_)
    end in
  let '(statusCode, message_) :=
    if bool_decide (name err = "ValidationError")
    then (400, "Validation error") else (statusCode, message_) in
  let '(statusCode, message_) :=
    if bool_decide (name err = "MongoError") && bool_decide (code err = Some 11000)
    then (409, "Duplicate entry") else (statusCode, message_) in
  let '(statusCode, message_) :=
    if bool_decide (name err = "JsonWebTokenError")
    then (401, "Invalid token") else (statusCode, message_) in
  let '(statusCode, message_) :=
    if bool_decide (name err = "TokenExpiredError")
    then (401, "Token expired") else (statusCode, message_) in
  logger LError "Error occurred";;
  mret (ResponseUtil.error message_ (Some statusCode)
          (if bool_decide (nodeEnv = Some "development") then stack err else None)).

(** [notFoundHandler]; [originalUrl] is [req.originalUrl]. *)
Definition notFoundHandler (originalUrl : string) : HttpResponse :=
  ResponseUtil.notFound (Some ("Route " ++ originalUrl ++ " not found")).
End ErrorHandler.

(** ** Request validation ([src/middleware/validator.ts]) *)

Local Set Warnings "-register-all".

(** The values a parsed request holds. *)
Inductive JValue :=
  | JUndefined
  | JNull
  | JBool (b : bool)
  | JNumber (x : spec_float)
  | JString (s : string)
  | JArray (items : list JValue)
  | JObject (members : list (string * JValue)).

(** [typeof value] *)
Definition typeof (value : JValue) : string :=
  match value with
  | JUndefined => "undefined"
  | JNull => "object"
  | JBool _ => "boolean"
  | JNumber _ => "number"
  | JString _ => "string"
  | JArray _ => "object"
  | JObject _ => "object"
  end.

Definition Array_isArray (value : JValue) : bool :=
  match value with JArray _ => true | _ => false end.

(** [value === undefined || value === null] *)
Definition is_nullish (value : JValue) : bool :=
  match value with JUndefined | JNull => true | _ => false end.

(** [value === ''] *)
Definition is_empty_string (value : JValue) : bool :=
  match value with JString s => bool_decide (s = "") | _ => false end.

(** The body, the query string and the route parameters of a request, each
    an object with the members it was parsed into. *)
Record Request := {
  body : gmap string JValue;
  query : gmap string JValue;
  params : gmap string JValue
}.

(** [{ ...req.body, ...req.query, ...req.params }]: a later spread
    overwrites the members of an earlier one. *)
Definition request_data (req : Request) : gmap string JValue :=
  params req ∪ (query req ∪ body req).

(** [data[field]] for a member name that is not one of [Object.prototype]. *)
Definition member (data : gmap string JValue) (field : string) : JValue :=
  default JUndefined (data !! field).

Inductive RuleType := TString | TNumber | TBoolean | TEmail | TArray | TObject.

(** What [rule.custom(value)] returned. *)
Inductive CustomResult :=
  | CustomBoolean (b : bool)
  | CustomString (s : string).

(** [ValidationRule]; an omitted [required] is [false], the other omitted
    members are [None]. [pattern] is [rule.pattern.test] on a string. *)
Module ValidationRule.
Record t := {
  field : string;
  required : bool;
  type : option RuleType;
  minLength : option Z;
  maxLength : option Z;
  pattern : option (string -> bool);
  custom : option (JValue -> CustomResult)
}.
End ValidationRule.

(** The two coercing built-ins the type checks go through:
    [/^\S+@\S+\.\S+$/.test(value)] and [isNaN(Number(value))]. *)
Record Coercions := {
  emailPattern_test : JValue -> bool;
  isNaN_Number : JValue -> bool
}.

(** The [switch (rule.type)] of the loop body. *)
Definition type_errors (js : Coercions) (field : string) (type : RuleType)
    (value : JValue) : list string :=
  match type with
  | TEmail =>
      if negb (emailPattern_test js value)
      then [field ++ " must be a valid email address"] else []
  | TString =>
      if negb (bool_decide (typeof value = "string"))
      then [field ++ " must be a string"] else []
  | TNumber =>
      if negb (bool_decide (typeof value = "number")) && isNaN_Number js value
      then [field ++ " must be a number"] else []
  | TBoolean =>
      if negb (bool_decide (typeof value = "boolean"))
      then [field ++ " must be a boolean"] else []
  | TArray =>
      if negb (Array_isArray value)
      then [field ++ " must be an array"] else []
  | TObject =>
      if negb (bool_decide (typeof value = "object")) || Array_isArray value
      then [field ++ " must be an object"] else []
  end.

(** [rule.minLength && value.length < rule.minLength] and its twin: a
    bound of [0] is falsy and checks nothing. *)
Definition minLength_errors (rule : ValidationRule.t) (s : string) : list string :=
  match ValidationRule.minLength rule with
  | Some n =>
      if negb (bool_decide (n = 0)) && bool_decide (Z.of_nat (String.length s) < n)
      then [ValidationRule.field rule ++ " must be at least " ++ pretty n ++ " characters"]
      else []
  | None => []
  end.

Definition maxLength_errors (rule : ValidationRule.t) (s : string) : list string :=
  match ValidationRule.maxLength rule with
  | Some n =>
      if negb (bool_decide (n = 0)) && bool_decide (n < Z.of_nat (String.length s))
      then [ValidationRule.field rule ++ " must be at most " ++ pretty n ++ " characters"]
      else []
  | None => []
  end.

(** [if (typeof value === 'string') { ... }] *)
Definition length_errors (rule : ValidationRule.t) (value : JValue) : list string :=
  match value with
  | JString s => (minLength_errors rule s ++ maxLength_errors rule s)%list
  | _ => []
  end.

Definition pattern_errors (rule : ValidationRule.t) (value : JValue) : list string :=
  match ValidationRule.pattern rule, value with
  | Some test, JString s =>
      if negb (test s) then [ValidationRule.field rule ++ " format is invalid"] else []
  | _, _ => []
  end.

Definition custom_errors (rule : ValidationRule.t) (value : JValue) : list string :=
  match ValidationRule.custom rule with
  | Some custom =>
      match custom value with
      | CustomBoolean true => []
      | CustomBoolean false => [ValidationRule.field rule ++ " is invalid"]
      | CustomString result => [result]
      end
  | None => []
  end.

(** One turn of [for (const rule of rules)]: the messages it pushes. *)
Definition rule_errors (js : Coercions) (rule : ValidationRule.t)
    (data : gmap string JValue) : list string :=
  let value := member data (ValidationRule.field rule) in
  if ValidationRule.required rule && (is_nullish value || is_empty_string value)
  then [ValidationRule.field rule ++ " is required"]
  else if negb (ValidationRule.required rule) && is_nullish value
  then []
  else
    ((match ValidationRule.type rule with
      | Some type => type_errors js (ValidationRule.field rule) type value
      | None => []
      end)
     ++ length_errors rule value
     ++ pattern_errors rule value
     ++ custom_errors rule value)%list.

(** [errors.join(', ')] *)
Definition join (sep : string) (parts : list string) : string :=
  String.concat sep parts.

(** The middleware [validate(rules)] returns. *)
Definition validate (js : Coercions) (rules : list ValidationRule.t)
    (req : Request) : Middleware unit :=
  let data := request_data req in
  let errors := flat_map (fun rule => rule_errors js rule data) rules in
  if bool_decide (0 < Z.of_nat (length errors))
  then Respond (ResponseUtil.badRequest "Validation failed" (Some (join ", " errors)))
  else Next tt.

(** The rule shapes the routes use. *)
Definition rule_required_string (field : string) (minLength : option Z) : ValidationRule.t :=
  {| ValidationRule.field := field; ValidationRule.required := true;
     ValidationRule.type := Some TString; ValidationRule.minLength := minLength;
     ValidationRule.maxLength := None; ValidationRule.pattern := None;
     ValidationRule.custom := None |}.

Definition rule_optional (field : string) (type : RuleType) : ValidationRule.t :=
  {| ValidationRule.field := field; ValidationRule.required := false;
     ValidationRule.type := Some type; ValidationRule.minLength := None;
     ValidationRule.maxLength := None; ValidationRule.pattern := None;
     ValidationRule.custom := None |}.

(** ** TokenService ([src/services/auth/TokenService.ts]) *)

Module TokenService.
(** [verifyToken]; [jwt_verify token] is what
    [jwt.verify(token, config.jwt.secret)] does with the token: it returns
    the decoded payload or throws. *)
Definition verifyToken (jwt_verify : string -> result UserPayload.t)
    (token : string) : option UserPayload.t :=
  match jwt_verify token with
  | Ok decoded => Some decoded
  | Throw _ => None
  end.
End TokenService.

(** ** The authentication middleware ([src/middleware/auth.ts]) *)

(** [s.split(sep)] for a separator of one character. *)
Fixpoint split (sep : ascii) (s : string) : list string :=
  match s with
  | EmptyString => [""]
  | String c rest =>
      if Ascii.eqb c sep then "" :: split sep rest
      else match split sep rest with
           | first :: others => String c first :: others
           | [] => [String c ""]
           end
  end.

Module AuthMiddleware.
(** [!authHeader || !authHeader.startsWith('Bearer ')] *)
Definition no_bearer (authHeader : option string) : bool :=
  match authHeader with
  | None => true
  | Some h => bool_decide (h = "") || negb (String.prefix "Bearer " h)
  end.

(** [authenticate]; [authorization] is [req.headers.authorization], the
    result of [Next] is the [req.user] the request goes on with. *)
Definition authenticate (jwt_verify : string -> result UserPayload.t)
    (authorization : option string) : M (Middleware UserPayload.t) :=
  try_catch
    (if no_bearer authorization
     then mret (Respond (ResponseUtil.unauthorized (Some "No token provided")))
     else
       (* [authHeader.split(' ')[1]]; a header that starts with [Bearer ]
          has this element, and [jwt.verify] rejects [undefined] *)
       match split " " (default "" authorization) !! 1%nat
               ≫= TokenService.verifyToken jwt_verify with
       | None => mret (Respond (ResponseUtil.unauthorized (Some "Invalid or expired token")))
       | Some payload => mret (Next payload)
       end)
    (fun error =>
       logger LError "Authentication error";;
       mret (Respond (ResponseUtil.unauthorized (Some "Authentication failed")))).

(** [optionalAuth] *)
Definition optionalAuth (jwt_verify : string -> result UserPayload.t)
    (authorization : option string) : M (Middleware (option UserPayload.t)) :=
  try_catch
    (if negb (no_bearer authorization)
     then
       match split " " (default "" authorization) !! 1%nat
               ≫= TokenService.verifyToken jwt_verify with
       | Some payload => mret (Next (Some payload))
       | None => mret (Next None)
       end
     else mret (Next None))
    (fun error => mret (Next None)).
End AuthMiddleware.

(** ** SocketManager: the connection side
    ([src/services/whatsapp/SocketManager.ts]) *)

Module SocketConnections.
(** [Logger.debug] writes only in development ([src/utils/logger.ts]). *)
Definition logger_debug (nodeEnv : option string) (msg : string) : M unit :=
  if bool_decide (nodeEnv = Some "development") then logger LDebug msg else mret tt.

(** The middleware of [setupMiddleware]: [next()] with the user
    identifier it attached to the socket, or [next(new Error(...))].
    [token] is [socket.handshake.auth.token]. *)
Definition handshake (jwt_verify : string -> result UserPayload.t)
    (token : option string) : result string :=
  match token with
  | None => Throw {| code := None; message := "Authentication token required" |}
  | Some token =>
      if bool_decide (token = "")
      then Throw {| code := None; message := "Authentication token required" |}
      else
        match TokenService.verifyToken jwt_verify token with
        | None => Throw {| code := None; message := "Invalid or expired token" |}
        | Some payload => Ok (UserPayload.userId payload)
        end
  end.

(** The state the handlers of [setupConnectionHandler] work on:
    [this.userSockets] and, for every socket (its [id] and the [userId]
    attached to it), the rooms the handlers made it join. *)
Record Connections := {
  userSockets : gmap string (gset string);
  rooms : gmap (string * string) (gset string)
}.

Definition no_connections : Connections :=
  {| userSockets := ∅; rooms := ∅ |}.

(** The sockets [userSockets] lists for a user, and the rooms of a socket. *)
Definition sockets_of (c : Connections) (userId : string) : gset string :=
  default ∅ (userSockets c !! userId).

Definition rooms_of (c : Connections) (socket : string * string) : gset string :=
  default ∅ (rooms c !! socket).

Definition socket_join (socket : string * string) (room : string)
    (c : Connections) : Connections :=
  {| userSockets := userSockets c;
     rooms := <[socket := default ∅ (rooms c !! socket) ∪ {[room]}]> (rooms c) |}.

Definition socket_leave (socket : string * string) (room : string)
    (c : Connections) : Connections :=
  {| userSockets := userSockets c;
     rooms := <[socket := default ∅ (rooms c !! socket) ∖ {[room]}]> (rooms c) |}.

Definition with_userSockets (us : gmap string (gset string)) (c : Connections) : Connections :=
  {| userSockets := us; rooms := rooms c |}.

(** [this.io.on('connection', ...)] for the socket [socketId] of [userId]. *)
Definition on_connection (socketId userId : string) (c : Connections) : M Connections :=
  logger LInfo "Socket connected";;
  let c := socket_join (socketId, userId) ("user:" ++ userId) c in
  logger LInfo "Socket joined user room";;
  let us := userSockets c in
  let us := if bool_decide (is_Some (us !! userId)) then us else <[userId := ∅]> us in
  let us := match us !! userId with
            | Some sockets => <[userId := sockets ∪ {[socketId]}]> us
            | None => us
            end in
  mret (with_userSockets us c).

(** [socket.on('disconnect', ...)] *)
Definition on_disconnect (socketId userId : string) (c : Connections) : M Connections :=
  logger LInfo "Socket disconnected";;
  let us := userSockets c in
  let us := match us !! userId with
            | Some sockets => <[userId := sockets ∖ {[socketId]}]> us
            | None => us
            end in
  let us := match us !! userId with
            | Some sockets => if bool_decide (size sockets = 0%nat) then delete userId us else us
            | None => us
            end in
  mret (with_userSockets us c).

(** [socket.on('join_session', ...)] and [socket.on('leave_session', ...)] *)
Definition on_join_session (nodeEnv : option string) (socketId userId sessionId : string)
    (c : Connections) : M Connections :=
  let c := socket_join (socketId, userId) ("session:" ++ sessionId) c in
  logger_debug nodeEnv "Socket joined session room";;
  mret c.

Definition on_leave_session (nodeEnv : option string) (socketId userId sessionId : string)
    (c : Connections) : M Connections :=
  let c := socket_leave (socketId, userId) ("session:" ++ sessionId) c in
  logger_debug nodeEnv "Socket left session room";;
  mret c.

(** What a connected socket makes the server run. *)
Inductive SocketEvent :=
  | Connection (socketId userId : string)
  | Disconnect (socketId userId : string)
  | JoinSession (socketId userId sessionId : string)
  | LeaveSession (socketId userId sessionId : string).

Definition handle (nodeEnv : option string) (ev : SocketEvent) (c : Connections) : M Connections :=
  match ev with
  | Connection socketId userId => on_connection socketId userId c
  | Disconnect socketId userId => on_disconnect socketId userId c
  | JoinSession socketId userId sessionId => on_join_session nodeEnv socketId userId sessionId c
  | LeaveSession socketId userId sessionId => on_leave_session nodeEnv socketId userId sessionId c
  end.

(** The handlers run one after the other; the result is the connection
    state they leave. *)
Fixpoint run (nodeEnv : option string) (evs : list SocketEvent) (c : Connections) : M Connections :=
  match evs with
  | [] => mret c
  | ev :: rest => c' ← handle nodeEnv ev c; run nodeEnv rest c'
  end.

(** The socket [socketId] of [userId] is connected after [evs]: its last
    connection event was not followed by its disconnection. *)
Fixpoint connected (evs : list SocketEvent) (socketId userId : string) (before : bool) : bool :=
  match evs with
  | [] => before
  | Connection s u :: rest =>
      connected rest socketId userId
        (if bool_decide (u = userId)
         then (bool_decide (s = socketId) || before) else before)
  | Disconnect s u :: rest =>
      connected rest socketId userId
        (if bool_decide (u = userId)
         then (negb (bool_decide (s = socketId)) && before) else before)
  | _ :: rest => connected rest socketId userId before
  end.
End SocketConnections.

(** A string that is not falsy: neither undefined nor empty. *)
Definition truthy (a : option string) : option string :=
  match a with
  | Some s => if bool_decide (s = "") then None else Some s
  | None => None
  end.

(** ** The queries of the controllers *)

Module Queries.
Definition owned_by (sessionId userId : string) (d : SessionDoc.t) : bool :=
  Session.has_sessionId sessionId d && bool_decide (SessionDoc.userId d = userId).

(** [Session.findOne({ sessionId, userId })]; the schema keeps [qrCode] out
    of the answer ([select: false]) unless the query asks for it with
    [.select('+qrCode')]. *)
Definition Session_findOne (sessionId userId : string) (select_qrCode : bool)
    : M (option SessionDoc.t) :=
  w ← get;
  mret ((fun d => if select_qrCode then d else SessionDoc.set_qrCode None d)
          <$> List.find (owned_by sessionId userId) (sessionsColl w)).

(** What an update through the model does to a matched message besides the
    update itself: the schema option [timestamps: true] sets [updatedAt]. *)
Definition touch (t : Z) (d : MessageDoc.t) : MessageDoc.t :=
  {| MessageDoc._id := MessageDoc._id d; MessageDoc.sessionId := MessageDoc.sessionId d;
     MessageDoc.chatId := MessageDoc.chatId d; MessageDoc.messageId := MessageDoc.messageId d;
     MessageDoc.body := MessageDoc.body d; MessageDoc.timestamp := MessageDoc.timestamp d;
     MessageDoc.fromMe := MessageDoc.fromMe d; MessageDoc.sender := MessageDoc.sender d;
     MessageDoc.isGroupMsg := MessageDoc.isGroupMsg d;
     MessageDoc.ackStatus := MessageDoc.ackStatus d;
     MessageDoc.hasMedia := MessageDoc.hasMedia d; MessageDoc.isRead := MessageDoc.isRead d;
     MessageDoc.readBy := MessageDoc.readBy d; MessageDoc.createdAt := MessageDoc.createdAt d;
     MessageDoc.updatedAt := t |}.

(** [{ $set: { isRead: true } }] *)
Definition set_isRead (b : bool) (d : MessageDoc.t) : MessageDoc.t :=
  {| MessageDoc._id := MessageDoc._id d; MessageDoc.sessionId := MessageDoc.sessionId d;
     MessageDoc.chatId := MessageDoc.chatId d; MessageDoc.messageId := MessageDoc.messageId d;
     MessageDoc.body := MessageDoc.body d; MessageDoc.timestamp := MessageDoc.timestamp d;
     MessageDoc.fromMe := MessageDoc.fromMe d; MessageDoc.sender := MessageDoc.sender d;
     MessageDoc.isGroupMsg := MessageDoc.isGroupMsg d;
     MessageDoc.ackStatus := MessageDoc.ackStatus d;
     MessageDoc.hasMedia := MessageDoc.hasMedia d; MessageDoc.isRead := b;
     MessageDoc.readBy := MessageDoc.readBy d; MessageDoc.createdAt := MessageDoc.createdAt d;
     MessageDoc.updatedAt := MessageDoc.updatedAt d |}.

(** [Message.updateMany(filter, update)] *)
Definition Message_updateMany (filter : MessageDoc.t -> bool)
    (update : MessageDoc.t -> MessageDoc.t) : M unit :=
  t ← SessionManager.now;
  modify (fun w =>
    with_messagesColl
      ((fun d => if filter d then touch t (update d) else d) <$> messagesColl w)
      (nextObjectId w) w).

(** [Message.countDocuments(query)] *)
Definition Message_countDocuments (query_ : MessageDoc.t -> bool) : M Z :=
  w ← get; mret (Z.of_nat (length (List.filter query_ (messagesColl w)))).

(** The first document that satisfies [p] is removed. *)
Fixpoint remove_first {A : Type} (p : A -> bool) (l : list A) : list A :=
  match l with
  | [] => []
  | x :: l' => if p x then l' else x :: remove_first p l'
  end.

(** [Message.findOneAndDelete({ sessionId, messageId })] *)
Definition Message_findOneAndDelete (sessionId messageId : string) : M unit :=
  modify (fun w =>
    with_messagesColl (remove_first (Message.has_key sessionId messageId) (messagesColl w))
      (nextObjectId w) w).
End Queries.

(** ** QRManager ([src/services/whatsapp/QRManager.ts]); the three
    renderers of the [qrcode] package return or throw. *)

Record QRCode := {
  toDataURL : string -> result string;
  toBuffer : string -> result string;
  toString_svg : string -> result string
}.

Module QRManager.
Definition generateQRCodeDataURL (lib : QRCode) (qrString : string) : M string :=
  try_catch (settle (toDataURL lib qrString))
    (fun error =>
       logger LError "Error generating QR code";;
       throw {| code := None; message := "Failed to generate QR code" |}).

Definition generateQRCodeBuffer (lib : QRCode) (qrString : string) : M string :=
  try_catch (settle (toBuffer lib qrString))
    (fun error =>
       logger LError "Error generating QR code buffer";;
       throw {| code := None; message := "Failed to generate QR code buffer" |}).

Definition generateQRCodeSVG (lib : QRCode) (qrString : string) : M string :=
  try_catch (settle (toString_svg lib qrString))
    (fun error =>
       logger LError "Error generating QR code SVG";;
       throw {| code := None; message := "Failed to generate QR code SVG" |}).
End QRManager.

(** ** The request handlers of WhatsAppController
    ([src/controllers/WhatsAppController.ts])

    [user] is [req.user]; the route parameters and the members of the body
    and the query a handler reads are its arguments. *)

Module WhatsAppHandlers.
(** [createSession]; [render] is the QR renderer the [onQR] callback
    uses, [generated], [construct] and [initialize] are as in
    [SessionManager.createSession]. *)
Definition createSession (user : option UserPayload.t) (render : string -> string)
    (generated : string) (construct initialize : result unit) : M HttpResponse :=
  try_catch
    (match user with
     | None => mret (ResponseUtil.unauthorized None)
     | Some user =>
         created ← SessionManager.createSession (UserPayload.userId user)
                     (WhatsAppController.callbacks generated (UserPayload.userId user) render)
                     generated construct initialize;
         mret (ResponseUtil.success "WhatsApp session created"
                 (Some (SessionIdData (fst created))) (Some 201))
     end)
    (fun error =>
       logger LError "Error creating session";;
       mret (ResponseUtil.badRequest
               (or_string (Some (message error)) "Failed to create session") None)).

(** [getSession] *)
Definition getSession (user : option UserPayload.t) (sessionId : string) : M HttpResponse :=
  try_catch
    (match user with
     | None => mret (ResponseUtil.unauthorized None)
     | Some user =>
         session ← Queries.Session_findOne sessionId (UserPayload.userId user) false;
         match session with
         | None => mret (ResponseUtil.notFound (Some "Session not found"))
         | Some session =>
             mret (ResponseUtil.success "Session retrieved" (Some (SessionData session)) None)
         end
     end)
    (fun error =>
       logger LError "Error getting session";;
       mret (ResponseUtil.error "Failed to retrieve session" None None)).

(** [getQRCode]; [format] is [req.query.format]. *)
Definition getQRCode (lib : QRCode) (user : option UserPayload.t) (sessionId : string)
    (format : option string) : M HttpResponse :=
  try_catch
    (match user with
     | None => mret (ResponseUtil.unauthorized None)
     | Some user =>
         let format := default "dataurl" format in
         session ← Queries.Session_findOne sessionId (UserPayload.userId user) true;
         match session with
         | None => mret (ResponseUtil.notFound (Some "Session not found"))
         | Some session =>
             match truthy (SessionDoc.qrCode session) with
             | None =>
                 mret (ResponseUtil.badRequest
                         "QR code not available. Session may already be connected." None)
             | Some stored =>
               if bool_decide (format = "svg")
               then
                 qrCode ← QRManager.generateQRCodeSVG lib stored;
                 mret (ResponseUtil.success "QR code retrieved" (Some (QrCodeData qrCode)) None)
               else if bool_decide (format = "buffer")
               then
                 buffer ← QRManager.generateQRCodeBuffer lib stored;
                 mret (Send "image/png" buffer)
               else
                 qrCode ← QRManager.generateQRCodeDataURL lib stored;
                 mret (ResponseUtil.success "QR code retrieved" (Some (QrCodeData qrCode)) None)
             end
         end
     end)
    (fun error =>
       logger LError "Error getting QR code";;
       mret (ResponseUtil.error "Failed to retrieve QR code" None None)).

(** [disconnectSession]; [teardown] is as in [SessionManager.destroySession]. *)
Definition disconnectSession (user : option UserPayload.t) (sessionId : string)
    (teardown : result unit) : M HttpResponse :=
  try_catch
    (match user with
     | None => mret (ResponseUtil.unauthorized None)
     | Some user =>
         session ← Queries.Session_findOne sessionId (UserPayload.userId user) false;
         match session with
         | None => mret (ResponseUtil.notFound (Some "Session not found"))
         | Some _ =>
             SessionManager.destroySession sessionId teardown;;
             mret (ResponseUtil.success "Session disconnected successfully" None None)
         end
     end)
    (fun error =>
       logger LError "Error disconnecting session";;
       mret (ResponseUtil.error "Failed to disconnect session" None None)).
End WhatsAppHandlers.

(** ** The request handlers of MessageController
    ([src/controllers/MessageController.ts]) *)

Module MessageController.
(** The filter of the first [updateMany] of [markAsRead]:
    [{ sessionId, chatId, messageId: { $in: messageIds } }]. *)
Definition listed (sessionId chatId : string) (messageIds : list string)
    (d : MessageDoc.t) : bool :=
  bool_decide (MessageDoc.sessionId d = sessionId)
  && bool_decide (MessageDoc.chatId d = chatId)
  && bool_decide (MessageDoc.messageId d ∈ messageIds).

(** The filter of the second one: [{ sessionId, chatId, fromMe: false }]. *)
Definition received_in (sessionId chatId : string) (d : MessageDoc.t) : bool :=
  bool_decide (MessageDoc.sessionId d = sessionId)
  && bool_decide (MessageDoc.chatId d = chatId)
  && negb (MessageDoc.fromMe d).

(** [markAsRead]; [messageIds] is [req.body.messageIds] and [sendSeen] is
    how [client.getChatById(chatId)] followed by [chat.sendSeen()]
    settles. *)
Definition markAsRead (user : option UserPayload.t) (sessionId chatId : string)
    (messageIds : option (list string)) (sendSeen : result unit) : M HttpResponse :=
  try_catch
    (match user with
     | None => mret (ResponseUtil.unauthorized None)
     | Some user =>
         logger LInfo "Marking as read";;
         sessionDoc ← Queries.Session_findOne sessionId (UserPayload.userId user) false;
         match sessionDoc with
         | None => mret (ResponseUtil.notFound (Some "Session not found"))
         | Some _ =>
             client ← SessionManager.getSession sessionId;
             match client with
             | Some _ =>
                 try_catch
                   (settle sendSeen;;
                    logger LInfo "Chat marked as seen in WhatsApp")
                   (fun error => logger LError "Failed to mark as seen in WhatsApp")
             | None => mret tt
             end;;
             match messageIds with
             | Some (id :: ids) =>
                 Queries.Message_updateMany (listed sessionId chatId (id :: ids))
                   (Queries.set_isRead true)
             | _ =>
                 Queries.Message_updateMany (received_in sessionId chatId)
                   (Queries.set_isRead true)
             end;;
             mret (ResponseUtil.success "Messages marked as read" None None)
         end
     end)
    (fun error =>
       logger LError "Error marking messages as read";;
       mret (ResponseUtil.error "Failed to mark messages as read" None None)).

(** The query of [getUnreadCount]:
    [{ sessionId, fromMe: false, isRead: false }], narrowed to a
    conversation when [req.query.chatId] is truthy. *)
Definition unread_in (sessionId : string) (chatId : option string) (d : MessageDoc.t) : bool :=
  bool_decide (MessageDoc.sessionId d = sessionId)
  && negb (MessageDoc.fromMe d)
  && negb (MessageDoc.isRead d)
  && match truthy chatId with
     | Some chatId => bool_decide (MessageDoc.chatId d = chatId)
     | None => true
     end.

(** [getUnreadCount] *)
Definition getUnreadCount (user : option UserPayload.t) (sessionId : string)
    (chatId : option string) : M HttpResponse :=
  try_catch
    (match user with
     | None => mret (ResponseUtil.unauthorized None)
     | Some user =>
         sessionDoc ← Queries.Session_findOne sessionId (UserPayload.userId user) false;
         match sessionDoc with
         | None => mret (ResponseUtil.notFound (Some "Session not found"))
         | Some _ =>
             count ← Queries.Message_countDocuments (unread_in sessionId chatId);
             mret (ResponseUtil.success "Unread count retrieved"
                     (Some (UnreadCountData count)) None)
         end
     end)
    (fun error =>
       logger LError "Error getting unread count";;
       mret (ResponseUtil.error "Failed to retrieve unread count" None None)).

(** [deleteMessage]; [getMessageById] is what
    [client.getMessageById(messageId)] answers (whether it found the
    message) and [delete] how [message.delete(forEveryone)] settles. *)
Definition deleteMessage (user : option UserPayload.t) (sessionId messageId : string)
    (getMessageById : result bool) (delete : result unit) : M HttpResponse :=
  try_catch
    (match user with
     | None => mret (ResponseUtil.unauthorized None)
     | Some user =>
         sessionDoc ← Queries.Session_findOne sessionId (UserPayload.userId user) false;
         match sessionDoc with
         | None => mret (ResponseUtil.notFound (Some "Session not found"))
         | Some _ =>
             client ← SessionManager.getSession sessionId;
             match client with
             | None => mret (ResponseUtil.badRequest "Session is not ready" None)
             | Some _ =>
                 found ← settle getMessageById;
                 if negb found
                 then mret (ResponseUtil.notFound (Some "Message not found"))
                 else
                   settle delete;;
                   Queries.Message_findOneAndDelete sessionId messageId;;
                   mret (ResponseUtil.success "Message deleted successfully" None None)
             end
         end
     end)
    (fun error =>
       logger LError "Error deleting message";;
       mret (ResponseUtil.error "Failed to delete message" None None)).
End MessageController.

(** ** Shutdown ([src/server.ts], [src/config/database.ts])

    [gracefulShutdown] sets a timer of ten seconds that ends the process
    with code 1, and the callback of [server.close] ends it with code 0.
    Each call the callback awaits has either settled when the timer fires
    or is still pending; the first pending one is where the timer ends the
    run. The emoji a log line of [server.ts] starts with has no code unit
    below 256 and is written as its UTF-8 bytes. *)

Inductive Awaited :=
  | Settled (r : result unit)
  | Pending.


Module Database.
(** [disconnect]; [close] is how [mongoose.connection.close()] settles. *)
Definition disconnect (close : result unit) : M unit :=
  try_catch
    (settle close;; logger LInfo "MongoDB connection closed")
    (fun error => logger LError "Error closing MongoDB connection").
End Database.

Module Server.
(** The callback of the timer [gracefulShutdown] sets: [process.exit(1)]
    after its line is logged. The result is the exit code. *)
Definition force_exit : M Z :=
  logger LError "⏰ Could not close connections in time, forcefully shutting down";;
  mret 1.

(** [for (const [sessionId, client] of sessions) { try { ... } catch { ... } }];
    [teardown_of sessionId] is how [client.destroy()] stands for that
    handle. The result says whether the loop came to its end: it does not
    when a teardown is still pending as the timer fires. *)
Fixpoint destroy_each (teardown_of : string -> Awaited)
    (entries : list (string * Client)) : M bool :=
  match entries with
  | [] => mret true
  | (sessionId, client) :: rest =>
      match teardown_of sessionId with
      | Pending => mret false
      | Settled destroyed =>
          try_catch
            (settle destroyed;;
             logger LInfo ("✅ Session " ++ sessionId ++ " destroyed"))
            (fun error => logger LError ("❌ Error destroying session " ++ sessionId));;
          destroy_each teardown_of rest
      end
  end.

(** The callback [gracefulShutdown] hands to [this.server.close]; the
    registry is visited in the order [map_to_list] lists it. [close] is
    how [mongoose.connection.close()] stands. *)
Definition on_server_closed (teardown_of : string -> Awaited) (close : Awaited) : M Z :=
  logger LInfo "🔌 HTTP server closed";;
  sessions ← SessionManager.getAllSessions;
  logger LInfo ("📱 Disconnecting " ++ pretty (size sessions) ++ " active sessions...");;
  finished ← destroy_each teardown_of (map_to_list sessions);
  if negb finished then force_exit
  else
    match close with
    | Pending => force_exit
    | Settled closed =>
        Database.disconnect closed;;
        logger LInfo "🗄️  Database connection closed";;
        logger LInfo "👋 Shutdown complete";;
        mret 0
    end.

(** One run of [gracefulShutdown(signal)]; [server_closed] says whether
    the HTTP server closes, so that the callback runs, before the timer
    fires. *)
Definition gracefulShutdown (signal : string) (server_closed : bool)
    (teardown_of : string -> Awaited) (close : Awaited) : M Z :=
  logger LInfo ("⚠️  " ++ signal ++ " received, shutting down gracefully");;
  if server_closed then on_server_closed teardown_of close else force_exit.
End Server.

(** ** The routes on one session

    The requests of [routes/whatsapp.routes.ts] and
    [routes/message.routes.ts] that are modelled, with what the outside
    world contributes to each, and the handler each is routed to. *)

Inductive SessionRequest :=
  | GetSession
  | GetQRCode (lib : QRCode) (format : option string)
  | DisconnectSession (teardown : result unit)
  | MarkAsRead (chatId : string) (messageIds : option (list string)) (sendSeen : result unit)
  | GetUnreadCount (chatId : option string)
  | DeleteMessage (messageId : string) (getMessageById : result bool) (delete : result unit).

Definition serve (user : option UserPayload.t) (sessionId : string)
    (request : SessionRequest) : M HttpResponse :=
  match request with
  | GetSession => WhatsAppHandlers.getSession user sessionId
  | GetQRCode lib format => WhatsAppHandlers.getQRCode lib user sessionId format
  | DisconnectSession teardown => WhatsAppHandlers.disconnectSession user sessionId teardown
  | MarkAsRead chatId messageIds sendSeen =>
      MessageController.markAsRead user sessionId chatId messageIds sendSeen
  | GetUnreadCount chatId => MessageController.getUnreadCount user sessionId chatId
  | DeleteMessage messageId getMessageById delete =>
      MessageController.deleteMessage user sessionId messageId getMessageById delete
  end.


(** The record of a session as its owner finds it. *)
Definition owned_session (w : World) (sessionId userId : string) : option SessionDoc.t :=
  List.find (Queries.owned_by sessionId userId) (sessionsColl w).

(** Two states that differ in the log at most. *)
Definition same_but_log (w w' : World) : Prop :=
  w' = with_logged (logged w') w.

(** The count [getUnreadCount] answers with. *)
Definition unread_count (w : World) (sessionId : string) (chatId : option string) : Z :=
  Z.of_nat (length (List.filter (MessageController.unread_in sessionId chatId)
                      (messagesColl w))).

(** What [markAsRead] without identifiers does to one stored message at
    time [t]. *)
Definition read_all (sessionId chatId : string) (t : Z) (d : MessageDoc.t) : MessageDoc.t :=
  if MessageController.received_in sessionId chatId d
  then Queries.touch t (Queries.set_isRead true d) else d.

(** ** Scenarios of several requests *)

(** A user creates one session after the other; [generated] are the
    identifiers [generateSessionId()] returns. *)
Definition create_sessions (userId : string) (callbacks : SessionManager.SessionCallbacks)
    (generated : list string) (w : World) : World :=
  fold_left
    (fun w g => exec (SessionManager.createSession userId callbacks g (Ok tt) (Ok tt)) w)
    generated w.

(** ** Observations on the conversations *)

(** The record [Chat.findOne({ sessionId, chatId })] answers. *)
Definition chat_of (w : World) (sessionId chatId : string) : option ChatDoc.t :=
  List.find (Chat.has_key sessionId chatId) (chatsColl w).

(** How many records the [chats] collection holds for a key. *)
Definition chats_for (w : World) (sessionId chatId : string) : nat :=
  length (List.filter (Chat.has_key sessionId chatId) (chatsColl w)).

(** The update the synchronisation pass hands to [Chat.findOneAndUpdate] for
    a conversation whose recent messages are [messages], at time [t]. *)
Definition chat_update (sessionId : string) (chat : WAChat) (messages : list WAMessage)
    (t : Z) : ChatDoc.t :=
  {| ChatDoc.sessionId := sessionId;
     ChatDoc.chatId := wc_id_serialized chat;
     ChatDoc.name := or_string (wc_name chat) (wc_id_user chat);
     ChatDoc.isGroup := wc_isGroup chat;
     ChatDoc.participants := if wc_isGroup chat then wc_participants chat else [];
     ChatDoc.lastMessage := Some (or_string (head messages ≫= wa_body) "");
     ChatDoc.lastMessageTime :=
       Some (match head messages with
             | Some m => if bool_decide (wa_timestamp m = 0) then t
                         else wa_timestamp m * 1000
             | None => t
             end);
     ChatDoc.unreadCount := or_zero (wc_unreadCount chat) |}.

(** The record the pass leaves for that conversation: the update with its
    name trimmed by the schema. *)
Definition synced_chat (sessionId : string) (chat : WAChat) (messages : list WAMessage)
    (t : Z) : ChatDoc.t :=
  {| ChatDoc.sessionId := sessionId;
     ChatDoc.chatId := wc_id_serialized chat;
     ChatDoc.name := trim (or_string (wc_name chat) (wc_id_user chat));
     ChatDoc.isGroup := wc_isGroup chat;
     ChatDoc.participants := if wc_isGroup chat then wc_participants chat else [];
     ChatDoc.lastMessage := Some (or_string (head messages ≫= wa_body) "");
     ChatDoc.lastMessageTime :=
       Some (match head messages with
             | Some m => if bool_decide (wa_timestamp m = 0) then t
                         else wa_timestamp m * 1000
             | None => t
             end);
     ChatDoc.unreadCount := or_zero (wc_unreadCount chat) |}.

(** Session [s1] of user [u1] after a completed pass: READY with progress
    100. *)
Definition world_synced : World :=
  with_sessionsColl [SessionDoc.set_syncProgress 100 (session_doc "u1" "s1" READY)]
    (world_s1 READY).

(** A conversation whose name the SDK reports with white space around it. *)
Definition padded_chat : WAChat :=
  {| wc_id_serialized := "f@g.us"; wc_id_user := "f"; wc_name := Some "  Family chat ";
     wc_isGroup := false; wc_participants := []; wc_unreadCount := Some 2;
     wc_fetchMessages := Ok [] |}.

(** A conversation whose messages the SDK fails to fetch. *)
Definition unreachable_chat (chat : string) : WAChat :=
  {| wc_id_serialized := chat; wc_id_user := chat; wc_name := None;
     wc_isGroup := false; wc_participants := []; wc_unreadCount := None;
     wc_fetchMessages := Throw boom |}.

(** The [qr_code] event of a session. *)
Definition qr_emission (sessionId userId qrCode : string) : Emission :=
  {| room := "user:" ++ userId; event := QR_CODE; data := QrPayload sessionId qrCode |}.

(** What a computation published: the events after those of [w]. *)
Definition published (w w' : World) : list Emission :=
  drop (length (emitted w)) (emitted w').

(** A computation that publishes into the room [r] only, whatever its
    outcome: the events published before stay, and every event it adds is
    addressed to [r]. *)
Definition publishes_into {A : Type} (r : string) (m : M A) : Prop :=
  forall w, exists added,
    emitted (snd (m w)) = (emitted w ++ added)%list
    /\ Forall (fun e => room e = r) added.

(** The users of the examples. *)
Definition user1 : UserPayload.t :=
  {| UserPayload.userId := "u1"; UserPayload.email := "u1@example.org" |}.

Definition user2 : UserPayload.t :=
  {| UserPayload.userId := "u2"; UserPayload.email := "u2@example.org" |}.

(** A renderer for the examples: it renders data URLs and buffers and fails
    on SVG. *)
Definition sample_renderer : QRCode :=
  {| toDataURL := fun qr => Ok ("data:image/png;base64," ++ qr);
     toBuffer := fun qr => Ok qr;
     toString_svg := fun qr => Throw boom |}.

(** * Properties *)

(** ** Basic facts on [update_first] *)

Section UpdateFirst.
Context {A : Type}.
Implicit Types (p q : A -> bool) (f : A -> A) (l : list A).

Lemma find_update_first_same p f l :
  (forall x, p x = true -> p (f x) = true) ->
  List.find p (update_first p f l) = f <$> List.find p l.
Proof.
  intros Hp. induction l as [|x l IH]; simpl; [done|].
  destruct (p x) eqn:E; simpl.
  - by rewrite (Hp x E).
  - by rewrite E.
Qed.

Lemma find_update_first_other p q f l :
  (forall x, p x = true -> q x = false /\ q (f x) = false) ->
  List.find q (update_first p f l) = List.find q l.
Proof.
  intros Hpq. induction l as [|x l IH]; simpl; [done|].
  destruct (p x) eqn:E; simpl.
  - destruct (Hpq x E) as [-> ->]. done.
  - by rewrite IH.
Qed.

End UpdateFirst.

(** ** destroySession *)

Section Destroy.
Import SessionManager.

Lemma destroySession_no_handle w sid teardown :
  sessions w !! sid = None ->
  destroySession sid teardown w =
    (Ok tt,
     with_logged (logged w ++ [(LInfo, "Session destroyed")])
       (with_sessionsColl
          (update_first (Session.has_sessionId sid)
             (SessionDoc.set_status DISCONNECTED) (sessionsColl w)) w)).
Proof.
  intros H. unfold destroySession, sessions_get, Session.findOneAndUpdate.
  munfold. simpl. rewrite H. reflexivity.
Qed.

Lemma destroySession_teardown_ok w sid c :
  sessions w !! sid = Some c ->
  destroySession sid (Ok tt) w =
    (Ok tt,
     with_logged (logged w ++ [(LInfo, "Session destroyed")])
       (with_sessionsColl
          (update_first (Session.has_sessionId sid)
             (SessionDoc.set_status DISCONNECTED) (sessionsColl w))
          (with_sessions (delete sid (sessions w)) w))).
Proof.
  intros H. unfold destroySession, sessions_get, sessions_delete,
    Session.findOneAndUpdate.
  munfold. simpl. rewrite H. reflexivity.
Qed.

Lemma destroySession_teardown_throws w sid c e :
  sessions w !! sid = Some c ->
  destroySession sid (Throw e) w = (Throw e, w).
Proof.
  intros H. unfold destroySession, sessions_get.
  munfold. simpl. rewrite H. reflexivity.
Qed.

Lemma status_of_set_status w sid st :
  status_of
    (with_sessionsColl
       (update_first (Session.has_sessionId sid) (SessionDoc.set_status st)
          (sessionsColl w)) w) sid
  = (fun _ => st) <$> status_of w sid.
Proof.
  unfold status_of, session_of. simpl.
  rewrite find_update_first_same by done.
  by destruct (List.find _ _).
Qed.
End Destroy.

Section DestroyClaims.
Import SessionManager.

(** C10. For every session identifier without a handle in the Client
    Handle Registry, [destroySession] completes without error, leaves the
    registry as it is, and persists status DISCONNECTED on the record of
    that session identifier: the registry test guards the teardown only,
    not the status write. *)
Theorem destroySession_unregistered_persists_disconnected w sid teardown :
  sessions w !! sid = None ->
  outcome (destroySession sid teardown) w = Ok tt
  /\ sessions (exec (destroySession sid teardown) w) = sessions w
  /\ sessionsColl (exec (destroySession sid teardown) w)
     = update_first (Session.has_sessionId sid)
         (SessionDoc.set_status DISCONNECTED) (sessionsColl w)
  /\ status_of (exec (destroySession sid teardown) w) sid
     = (fun _ => DISCONNECTED) <$> status_of w sid.
Proof.
  intros H. unfold exec, outcome.
  rewrite (destroySession_no_handle w sid teardown H). simpl.
  repeat split. apply (status_of_set_status w sid DISCONNECTED).
Qed.

Lemma destroySession_unregistered_witness :
  sessions (world_s1_no_handle READY) !! "s1" = None
  /\ outcome (destroySession "s1" (Throw boom)) (world_s1_no_handle READY) = Ok tt
  /\ status_of (exec (destroySession "s1" (Throw boom)) (world_s1_no_handle READY)) "s1"
     = Some DISCONNECTED.
Proof.
  split; [reflexivity|].
  pose proof (destroySession_unregistered_persists_disconnected
                (world_s1_no_handle READY) "s1" (Throw boom) eq_refl) as (Ho & _ & _ & Hs).
  split; [exact Ho|]. rewrite Hs. reflexivity.
Defined.

(** C7 at the failing input: session [s1] of user [u1] is READY with a
    registered handle whose [destroy()] rejects. The error reaches the
    caller of [destroySession], the handle stays in the registry, the stored
    status stays READY and nothing is logged: the teardown is not
    best-effort. *)
Lemma destroySession_teardown_error_propagates :
  outcome (destroySession "s1" (Throw boom)) (world_s1 READY) = Throw boom
  /\ sessions (exec (destroySession "s1" (Throw boom)) (world_s1 READY)) !! "s1"
     = Some {| clientId := "s1" |}
  /\ status_of (exec (destroySession "s1" (Throw boom)) (world_s1 READY)) "s1"
     = Some READY
  /\ logged (exec (destroySession "s1" (Throw boom)) (world_s1 READY)) = [].
Proof. vm_compute. repeat split. Qed.
End DestroyClaims.

(** ** createSession *)

Section Create.
Import SessionManager.

Lemma createSession_at_capacity w uid cbs gen ctor init :
  maxSessionsPerUser (config w) <= activeSessionsCount w uid ->
  createSession uid cbs gen ctor init w =
    (Throw {| code := None;
              message := "Maximum " ++ pretty (maxSessionsPerUser (config w))
                         ++ " sessions allowed" |},
     with_logged (logged w ++ [(LInfo, "Creating WhatsApp session")]) w).
Proof.
  intros H. unfold createSession, Session.getActiveSessionsCount.
  munfold. simpl. fold (activeSessionsCount w uid).
  rewrite bool_decide_eq_true_2 by lia. reflexivity.
Qed.

(** Below the limit, with a fresh identifier and a constructor that
    returns, the record is created in INITIALIZING and the handle is
    registered. *)
Lemma createSession_below_capacity w uid cbs gen init :
  activeSessionsCount w uid < maxSessionsPerUser (config w) ->
  session_of w gen = None ->
  let r := createSession uid cbs gen (Ok tt) init w in
  fst r = Ok (gen, session_doc uid gen INITIALIZING)
  /\ sessionsColl (snd r) = (sessionsColl w ++ [session_doc uid gen INITIALIZING])%list
  /\ sessions (snd r) = <[gen := {| clientId := gen |}]> (sessions w).
Proof.
  intros Hlt Hfresh. unfold createSession, Session.getActiveSessionsCount,
    Session.create, initializeClient, sessions_set.
  munfold. simpl. fold (activeSessionsCount w uid).
  rewrite bool_decide_eq_false_2 by lia.
  unfold session_of in Hfresh.
  assert (existsb (Session.has_sessionId gen) (sessionsColl w) = false) as Hex.
  { apply not_true_is_false. intros (x & Hin & Hx)%existsb_exists.
    apply (find_none _ _ Hfresh) in Hin. congruence. }
  wsimpl. rewrite Hex. wsimpl. done.
Qed.

(** C3. When the user already has at least [maxSessionsPerUser] sessions
    whose status is READY or SYNCING, [createSession] rejects with the
    capacity error, and on that rejection the Client Handle Registry and the
    persistent store are as before: no session record is created, no handle
    is registered, no initialisation is started. *)
Theorem createSession_capacity_rejects_without_mutation w uid cbs gen ctor init :
  maxSessionsPerUser (config w) <= activeSessionsCount w uid ->
  outcome (createSession uid cbs gen ctor init) w
    = Throw {| code := None;
               message := "Maximum " ++ pretty (maxSessionsPerUser (config w))
                          ++ " sessions allowed" |}
  /\ sessions (exec (createSession uid cbs gen ctor init) w) = sessions w
  /\ sessionsColl (exec (createSession uid cbs gen ctor init) w) = sessionsColl w
  /\ chatsColl (exec (createSession uid cbs gen ctor init) w) = chatsColl w
  /\ messagesColl (exec (createSession uid cbs gen ctor init) w) = messagesColl w
  /\ pendingInitialize (exec (createSession uid cbs gen ctor init) w) = pendingInitialize w.
Proof.
  intros H. unfold outcome, exec.
  rewrite (createSession_at_capacity w uid cbs gen ctor init H). simpl. done.
Qed.

Lemma createSession_capacity_witness :
  maxSessionsPerUser (config world_full) <= activeSessionsCount world_full "u1"
  /\ outcome (createSession "u1" no_callbacks "s2" (Ok tt) (Ok tt)) world_full
     = Throw {| code := None; message := "Maximum 1 sessions allowed" |}
  /\ sessions (exec (createSession "u1" no_callbacks "s2" (Ok tt) (Ok tt)) world_full)
     = sessions world_full
  /\ sessionsColl (exec (createSession "u1" no_callbacks "s2" (Ok tt) (Ok tt)) world_full)
     = sessionsColl world_full.
Proof.
  assert (maxSessionsPerUser (config world_full) <= activeSessionsCount world_full "u1")
    as Hcap by (vm_compute; discriminate).
  split; [exact Hcap|].
  destruct (createSession_capacity_rejects_without_mutation
              world_full "u1" no_callbacks "s2" (Ok tt) (Ok tt) Hcap)
    as (Ho & Hr & Hs & _).
  split; [exact Ho|]. split; [exact Hr|exact Hs].
Defined.
End Create.

(** ** Acknowledgments *)

Section Ack.
Import SessionManager.

Lemma on_message_ack_eq w sid msg ack :
  on_message_ack sid msg ack w =
    (Ok tt,
     with_messagesColl
       (update_first (Message.has_key sid (wa_id_serialized msg))
          (MessageDoc.set_ackStatus ack) (messagesColl w))
       (nextObjectId w) w).
Proof. reflexivity. Qed.

Lemma has_key_set_ackStatus sid mid a d :
  Message.has_key sid mid (MessageDoc.set_ackStatus a d) = Message.has_key sid mid d.
Proof. done. Qed.

Lemma has_key_exclusive sid mid sid' mid' d :
  (sid', mid') <> (sid, mid) ->
  Message.has_key sid mid d = true -> Message.has_key sid' mid' d = false.
Proof.
  unfold Message.has_key. intros Hne [H1 H2]%andb_prop.
  apply bool_decide_eq_true in H1, H2. subst.
  apply andb_false_iff.
  destruct (decide (MessageDoc.sessionId d = sid')) as [<-|];
    [|left; by apply bool_decide_eq_false].
  right. apply bool_decide_eq_false. congruence.
Qed.

(** C8 as stated fails: a [message_ack] event that carries level 1 for a
    message stored at level 3 lowers the stored level to 1. *)
Lemma message_ack_lowers_ackStatus :
  MessageDoc.ackStatus <$> message_of world_read "s1" "m1" = Some 3
  /\ MessageDoc.ackStatus
       <$> message_of (exec (on_message_ack "s1" (sample_message "m1" 1) 1) world_read)
             "s1" "m1" = Some 1.
Proof. vm_compute. done. Qed.

(** C8, amended. Every execution of the [message_ack] handler returns
    normally and overwrites the stored [ackStatus] of the message with the
    event's key by the acknowledgment level the event carries, whatever the
    stored level was (the last event wins; the level is not compared with
    the stored one); every other stored message is left as it is. *)
Theorem message_ack_overwrites_ackStatus w sid msg ack :
  outcome (on_message_ack sid msg ack) w = Ok tt
  /\ MessageDoc.ackStatus
       <$> message_of (exec (on_message_ack sid msg ack) w) sid (wa_id_serialized msg)
     = (fun _ => ack) <$> message_of w sid (wa_id_serialized msg)
  /\ (forall sid' mid', (sid', mid') <> (sid, wa_id_serialized msg) ->
        message_of (exec (on_message_ack sid msg ack) w) sid' mid'
        = message_of w sid' mid').
Proof.
  unfold outcome, exec. rewrite on_message_ack_eq. simpl.
  split; [done|]. unfold message_of. simpl. split.
  - rewrite find_update_first_same by done.
    by destruct (List.find _ _).
  - intros sid' mid' Hne. apply find_update_first_other.
    intros d Hd. rewrite has_key_set_ackStatus.
    split; by apply (has_key_exclusive sid (wa_id_serialized msg)).
Qed.
End Ack.

(** ** The handlers and the session record *)

Section Handlers.
Import SessionManager.

Lemma update_first_id {A : Type} (p : A -> bool) (l : list A) :
  update_first p (fun d => d) l = l.
Proof. induction l as [|x l IH]; simpl; [done|]. destruct (p x); congruence. Qed.

Lemma emitToUser_fields uid ev d w :
  fst (SocketManager.emitToUser uid ev d w) = Ok tt
  /\ config (snd (SocketManager.emitToUser uid ev d w)) = config w
  /\ clock (snd (SocketManager.emitToUser uid ev d w)) = clock w
  /\ sessionsColl (snd (SocketManager.emitToUser uid ev d w)) = sessionsColl w
  /\ chatsColl (snd (SocketManager.emitToUser uid ev d w)) = chatsColl w
  /\ messagesColl (snd (SocketManager.emitToUser uid ev d w)) = messagesColl w
  /\ nextObjectId (snd (SocketManager.emitToUser uid ev d w)) = nextObjectId w
  /\ sessions (snd (SocketManager.emitToUser uid ev d w)) = sessions w
  /\ io (snd (SocketManager.emitToUser uid ev d w)) = io w
  /\ syncLaunches (snd (SocketManager.emitToUser uid ev d w)) = syncLaunches w
  /\ pendingInitialize (snd (SocketManager.emitToUser uid ev d w)) = pendingInitialize w.
Proof.
  unfold SocketManager.emitToUser. munfold. simpl. destruct (io w) eqn:E; simpl; rewrite ?E; done.
Qed.

Lemma emitToUser_emits_only uid ev d : emits_only (SocketManager.emitToUser uid ev d).
Proof. intros w. apply emitToUser_fields. Qed.

Lemma no_callbacks_quiet : quiet_callbacks no_callbacks.
Proof. repeat split; simpl in *; discriminate. Qed.

Lemma controller_callbacks_quiet sid uid render :
  quiet_callbacks (WhatsAppController.callbacks sid uid render).
Proof.
  split; [|split]; simpl.
  - intros f qr [= <-]. apply emitToUser_emits_only.
  - intros m [= <-]. apply emitToUser_emits_only.
  - intros m [= <-]. apply emitToUser_emits_only.
Qed.

Lemma call_emits_only cb :
  (forall m, cb = Some m -> emits_only m) -> emits_only (call cb).
Proof.
  intros H. destruct cb as [m|]; simpl; [by apply H|].
  intros w. by cbv.
Qed.
End Handlers.

(** ** Message ingestion *)

Section Ingestion.
Import SessionManager.

Lemma find_app_fresh (l : list MessageDoc.t) (row : MessageDoc.t) (n : nat) :
  Forall (fun d => (MessageDoc._id d < n)%nat) l ->
  MessageDoc._id row = n ->
  List.find (fun d => bool_decide (MessageDoc._id d = n)) (l ++ [row]) = Some row.
Proof.
  intros Hall Hrow. induction Hall as [|d l Hd _ IH]; simpl.
  - by rewrite bool_decide_eq_true_2.
  - rewrite bool_decide_eq_false_2 by lia. exact IH.
Qed.

Lemma row_of_key i id :
  MessageDoc.sessionId (row_of i id) = sessionId_of i
  /\ MessageDoc.messageId (row_of i id) = messageId_of i
  /\ MessageDoc._id (row_of i id) = id.
Proof. by destruct i. Qed.

(** An invocation whose key is already stored is absorbed. *)
Lemma ingest_stored i w :
  existsb (Message.has_key (sessionId_of i) (messageId_of i)) (messagesColl w) = true ->
  fst (ingest i w) = Ok tt
  /\ messagesColl (snd (ingest i w)) = messagesColl w
  /\ nextObjectId (snd (ingest i w)) = nextObjectId w
  /\ emitted (snd (ingest i w)) = emitted w
  /\ io (snd (ingest i w)) = io w.
Proof.
  intros Hex. destruct i as [t sid uid m|t sid cid m]; simpl in Hex;
    unfold ingest, on_message, save_message, Message.collection_insertOne, now;
    munfold; wsimpl; rewrite Hex; simpl; done.
Qed.

(** An invocation whose key is not stored inserts its row, and publishes
    when it is the live handler. *)
Lemma ingest_fresh i w :
  existsb (Message.has_key (sessionId_of i) (messageId_of i)) (messagesColl w) = false ->
  ids_fresh w ->
  fst (ingest i w) = Ok tt
  /\ messagesColl (snd (ingest i w)) = (messagesColl w ++ [row_of i (nextObjectId w)])%list
  /\ nextObjectId (snd (ingest i w)) = S (nextObjectId w)
  /\ emitted (snd (ingest i w))
     = (emitted w ++ (if io w then published_by i (nextObjectId w) else []))%list
  /\ io (snd (ingest i w)) = io w.
Proof.
  intros Hex Hfresh. destruct i as [t sid uid m|t sid cid m]; simpl in Hex.
  - unfold ingest, on_message, Message.collection_insertOne, Message.findById,
      SocketManager.emitMessage, SocketManager.emitToUser, Chat.findOneAndUpdate, now.
    munfold. wsimpl. rewrite Hex. simpl.
    rewrite (find_app_fresh (messagesColl w)
               (message_row sid (wa_from m) m t (nextObjectId w)) (nextObjectId w)
               Hfresh eq_refl). simpl.
    destruct (io w) eqn:Hio; simpl; rewrite ?Hio, ?app_nil_r; done.
  - unfold ingest, save_message, Message.collection_insertOne, now.
    munfold. wsimpl. rewrite Hex. simpl.
    destruct (io w); simpl; rewrite ?app_nil_r; done.
Qed.

Lemma ingest_ids_fresh i w : ids_fresh w -> ids_fresh (exec (ingest i) w).
Proof.
  intros Hfresh. unfold ids_fresh, exec.
  destruct (existsb (Message.has_key (sessionId_of i) (messageId_of i)) (messagesColl w)) eqn:Hex.
  - destruct (ingest_stored i w Hex) as (_ & -> & -> & _). exact Hfresh.
  - destruct (ingest_fresh i w Hex Hfresh) as (_ & -> & -> & _).
    apply Forall_app. split.
    + eapply Forall_impl; [exact Hfresh|]. simpl. lia.
    + constructor; [|constructor]. destruct (row_of_key i (nextObjectId w)) as (_ & _ & ->). lia.
Qed.

Lemma ingest_io i w : ids_fresh w -> io (exec (ingest i) w) = io w.
Proof.
  intros Hfresh. unfold exec.
  destruct (existsb (Message.has_key (sessionId_of i) (messageId_of i)) (messagesColl w)) eqn:Hex.
  - by destruct (ingest_stored i w Hex) as (_ & _ & _ & _ & ->).
  - by destruct (ingest_fresh i w Hex Hfresh) as (_ & _ & _ & _ & ->).
Qed.
End Ingestion.

Section IngestionRuns.
Import SessionManager.

Lemma existsb_filter_nil {A : Type} (p : A -> bool) (l : list A) :
  existsb p l = false <-> List.filter p l = [].
Proof.
  induction l as [|x l IH]; simpl; [done|].
  destruct (p x); simpl; [split; discriminate|exact IH].
Qed.

Lemma has_key_row_of sid mid i id :
  Message.has_key sid mid (row_of i id) = has_key_of sid mid i.
Proof.
  unfold Message.has_key, has_key_of.
  by destruct (row_of_key i id) as (-> & -> & _).
Qed.

Lemma has_key_of_true sid mid i :
  has_key_of sid mid i = true -> sessionId_of i = sid /\ messageId_of i = mid.
Proof.
  unfold has_key_of. intros [H1 H2]%andb_prop.
  by apply bool_decide_eq_true in H1, H2.
Qed.

Lemma received_published sid mid i id :
  length (List.filter (is_received_for sid mid) (published_by i id))
  = if has_key_of sid mid i && is_live i then 1%nat else 0%nat.
Proof.
  destruct i as [t s u m|t s c m]; simpl.
  - unfold is_received_for, has_key_of; simpl.
    rewrite andb_true_r. by destruct (_ && _).
  - by rewrite andb_false_r.
Qed.

(** One invocation, observed at a key: it adds a row exactly when it
    carries that key and no row is stored for it, and in that case only the
    live handler publishes. *)
Lemma ingest_observed i w sid mid :
  ids_fresh w ->
  let inserts := has_key_of sid mid i && bool_decide (rows_of w sid mid = []) in
  rows_of (exec (ingest i) w) sid mid
    = (rows_of w sid mid ++ if inserts then [row_of i (nextObjectId w)] else [])%list
  /\ received_events (exec (ingest i) w) sid mid
     = (received_events w sid mid
        + if inserts && is_live i && io w then 1 else 0)%nat.
Proof.
  intros Hfresh inserts. unfold rows_of, received_events, exec in *.
  destruct (existsb (Message.has_key (sessionId_of i) (messageId_of i)) (messagesColl w)) eqn:Hex.
  - destruct (ingest_stored i w Hex) as (_ & -> & _ & -> & _).
    assert (inserts = false) as ->.
    { subst inserts. destruct (has_key_of sid mid i) eqn:Hk; [|done].
      apply has_key_of_true in Hk as [<- <-]. simpl.
      apply bool_decide_eq_false. intros Hnil%existsb_filter_nil. congruence. }
    simpl. rewrite app_nil_r. split; [done|lia].
  - destruct (ingest_fresh i w Hex Hfresh) as (_ & -> & _ & -> & _).
    rewrite !List.filter_app, !length_app. simpl.
    rewrite has_key_row_of.
    assert (inserts = has_key_of sid mid i) as ->.
    { subst inserts. destruct (has_key_of sid mid i) eqn:Hk; [|done].
      apply has_key_of_true in Hk as [<- <-]. simpl.
      apply bool_decide_eq_true. by apply existsb_filter_nil. }
    split; [by destruct (has_key_of sid mid i)|].
    destruct (io w); simpl.
    + rewrite received_published. by destruct (has_key_of sid mid i), (is_live i).
    + by rewrite !andb_false_r.
Qed.
End IngestionRuns.

Section IngestionClaims.
Import SessionManager.

Lemma run_ingestions_cons i l w :
  run_ingestions (i :: l) w = run_ingestions l (exec (ingest i) w).
Proof. reflexivity. Qed.

(** Once a row is stored for a key, no later invocation adds a row for it,
    replaces it, or publishes for it. *)
Lemma ingestions_absorbed l w sid mid :
  ids_fresh w ->
  rows_of w sid mid <> [] ->
  rows_of (run_ingestions l w) sid mid = rows_of w sid mid
  /\ received_events (run_ingestions l w) sid mid = received_events w sid mid.
Proof.
  revert w. induction l as [|i l IH]; intros w Hfresh Hrows; [done|].
  rewrite run_ingestions_cons.
  destruct (ingest_observed i w sid mid Hfresh) as [Hr He].
  rewrite (bool_decide_eq_false_2 _ Hrows), andb_false_r in Hr, He.
  simpl in Hr, He. rewrite app_nil_r in Hr. rewrite Nat.add_0_r in He.
  destruct (IH (exec (ingest i) w)) as [IH1 IH2].
  - by apply ingest_ids_fresh.
  - by rewrite Hr.
  - rewrite IH1, IH2. done.
Qed.

(** C1 as stated fails: when the synchronisation pass stores the message
    first, the live handler's insert is the absorbed duplicate, so one row
    is stored but no [message_received] event is published for the key. *)
Lemma sync_first_publishes_nothing :
  rows_for (run_ingestions sync_then_live (world_s1 READY)) "s1" "m1" = 1%nat
  /\ received_events (run_ingestions sync_then_live (world_s1 READY)) "s1" "m1" = 0%nat.
Proof. vm_compute. done. Qed.

(** C1, amended. Take any sequence of invocations of the ingestion path
    (live [message] events and inserts of the synchronisation pass, for any
    keys, in any order) in which the key [(sessionId, messageId)], not yet
    stored, occurs at least once. Afterwards exactly one row is stored for
    the key and it is the row written by the first invocation for the key:
    every later one is absorbed without overwriting it. The
    [message_received] event is published at most once for the key: exactly
    once when that first invocation is the live handler, and never when it
    is the synchronisation pass, which publishes nothing. *)
Theorem ingestion_idempotent l w sid mid first :
  ids_fresh w ->
  io w = true ->
  rows_of w sid mid = [] ->
  List.find (has_key_of sid mid) l = Some first ->
  (exists id, rows_of (run_ingestions l w) sid mid = [row_of first id])
  /\ rows_for (run_ingestions l w) sid mid = 1%nat
  /\ received_events (run_ingestions l w) sid mid
     = (received_events w sid mid + if is_live first then 1 else 0)%nat.
Proof.
  assert (forall l w, ids_fresh w -> io w = true -> rows_of w sid mid = [] ->
            List.find (has_key_of sid mid) l = Some first ->
            (exists id, rows_of (run_ingestions l w) sid mid = [row_of first id])
            /\ received_events (run_ingestions l w) sid mid
               = (received_events w sid mid + if is_live first then 1 else 0)%nat) as Hmain.
  { clear l w. induction l as [|i l IH]; intros w Hfresh Hio Hrows Hfind; [done|].
    rewrite run_ingestions_cons. simpl in Hfind.
    destruct (ingest_observed i w sid mid Hfresh) as [Hr He].
    rewrite Hrows in Hr, He. rewrite Hio in He.
    rewrite bool_decide_eq_true_2, !andb_true_r in Hr, He by done.
    destruct (has_key_of sid mid i) eqn:Hk.
    - injection Hfind as ->. simpl in Hr, He.
      destruct (ingestions_absorbed l (exec (ingest first) w) sid mid) as [A1 A2].
      + by apply ingest_ids_fresh.
      + by rewrite Hr.
      + rewrite A1, A2, Hr, He. split; [by eexists|done].
    - simpl in Hr, He. rewrite Nat.add_0_r in He.
      destruct (IH (exec (ingest i) w)) as [(id & I1) I2]; try done.
      + by apply ingest_ids_fresh.
      + by rewrite ingest_io.
      + rewrite I2, He. split; [by eexists|done]. }
  intros Hfresh Hio Hrows Hfind.
  destruct (Hmain l w Hfresh Hio Hrows Hfind) as [(id & H1) H2].
  split; [by eexists|]. split; [|done].
  unfold rows_for. fold (rows_of (run_ingestions l w) sid mid). by rewrite H1.
Qed.

Lemma ingestion_idempotent_witness :
  ids_fresh (world_s1 READY)
  /\ io (world_s1 READY) = true
  /\ rows_of (world_s1 READY) "s1" "m1" = []
  /\ List.find (has_key_of "s1" "m1") (rev sync_then_live)
     = Some (Live 1700000000200 "s1" "u1" (sample_message "m1" 1))
  /\ rows_for (run_ingestions (rev sync_then_live) (world_s1 READY)) "s1" "m1" = 1%nat
  /\ received_events (run_ingestions (rev sync_then_live) (world_s1 READY)) "s1" "m1" = 1%nat.
Proof.
  assert (ids_fresh (world_s1 READY)) as Hfresh by constructor.
  split; [exact Hfresh|]. split; [reflexivity|]. split; [reflexivity|].
  split; [reflexivity|].
  destruct (ingestion_idempotent (rev sync_then_live) (world_s1 READY) "s1" "m1"
              (Live 1700000000200 "s1" "u1" (sample_message "m1" 1))
              Hfresh eq_refl eq_refl eq_refl) as (_ & Hrows & Hrecv).
  split; [exact Hrows|exact Hrecv].
Defined.
End IngestionClaims.

(** ** Event delivery *)

Section Delivery.
Import SessionManager.

Lemma on_message_frame sid uid msg w :
  fst (on_message sid uid msg w) = Ok tt
  /\ sessionsColl (snd (on_message sid uid msg w)) = sessionsColl w
  /\ sessions (snd (on_message sid uid msg w)) = sessions w
  /\ syncLaunches (snd (on_message sid uid msg w)) = syncLaunches w
  /\ pendingInitialize (snd (on_message sid uid msg w)) = pendingInitialize w
  /\ io (snd (on_message sid uid msg w)) = io w.
Proof.
  unfold on_message, Message.collection_insertOne, Message.findById,
    SocketManager.emitMessage, SocketManager.emitToUser, Chat.findOneAndUpdate, now.
  munfold. wsimpl.
  destruct (existsb _ _); simpl; [done|].
  destruct (List.find _ _); simpl; [|done].
  destruct (io w) eqn:Hio; simpl; rewrite ?Hio; done.
Qed.

(** With callbacks that only publish, a handler returns normally, rewrites
    at most the record of its own session, and only [ready] starts a
    synchronisation task. *)
Lemma dispatch_frame sid uid cbs ev w :
  quiet_callbacks cbs ->
  fst (dispatch sid uid cbs ev w) = Ok tt
  /\ sessionsColl (snd (dispatch sid uid cbs ev w))
     = update_first (Session.has_sessionId sid) (record_effect ev) (sessionsColl w)
  /\ syncLaunches (snd (dispatch sid uid cbs ev w))
     = (syncLaunches w ++ if is_ready ev then [sid] else [])%list
  /\ io (snd (dispatch sid uid cbs ev w)) = io w.
Proof.
  intros (Hqr & Hready & Hdisc).
  destruct ev as [qr|wid_user|message|message ack| |msg|reason]; simpl.
  - unfold on_qr, SocketManager.emitQRCode, SocketManager.emitToUser,
      Session.findOneAndUpdate. munfold. wsimpl.
    destruct (onQR cbs) as [f|] eqn:Hf.
    + match goal with |- context [f qr ?w1] =>
        destruct (Hqr f qr eq_refl w1) as (H1 & _ & _ & H2 & _ & _ & _ & _ & H3 & H4 & _);
        destruct (f qr w1) as [r w2] end.
      simpl in *. subst r. rewrite H2, H3, H4, app_nil_r.
      destruct (io w) eqn:Hio; simpl; rewrite ?Hio; done.
    + destruct (io w) eqn:Hio; simpl; rewrite ?Hio, ?app_nil_r; done.
  - unfold on_ready, SocketManager.emitSessionStatus, SocketManager.emitToUser,
      Session.findOneAndUpdate. munfold. wsimpl.
    match goal with |- context [call (onReady cbs) ?w1] =>
      destruct (call_emits_only (onReady cbs) Hready w1)
        as (H1 & _ & _ & H2 & _ & _ & _ & _ & H3 & H4 & _);
      destruct (call (onReady cbs) w1) as [r w2] end.
    simpl in *. subst r. simpl. rewrite H2, H3, H4.
    destruct (io w) eqn:Hio; simpl; rewrite ?Hio; done.
  - destruct (on_message_frame sid uid message w) as (H1 & H2 & _ & H3 & _ & H4).
    rewrite H1, H2, H3, H4, update_first_id, app_nil_r. done.
  - unfold on_message_ack, Message.findOneAndUpdate. munfold. simpl.
    rewrite update_first_id, app_nil_r. done.
  - unfold on_authenticated. munfold. simpl. rewrite update_first_id, app_nil_r. done.
  - unfold on_auth_failure, Session.findOneAndUpdate. munfold. simpl.
    rewrite app_nil_r. done.
  - unfold on_disconnected, sessions_delete, Session.findOneAndUpdate. munfold. wsimpl.
    match goal with |- context [call (onDisconnected cbs) ?w1] =>
      destruct (call_emits_only (onDisconnected cbs) Hdisc w1)
        as (H1 & _ & _ & H2 & _ & _ & _ & _ & H3 & H4 & _);
      destruct (call (onDisconnected cbs) w1) as [r w2] end.
    simpl in *. subst r. simpl. rewrite H2, H3, H4, app_nil_r. done.
Qed.

Lemma run_events_cons sid uid cbs ev evs w :
  run_events sid uid cbs (ev :: evs) w
  = run_events sid uid cbs evs (exec (dispatch sid uid cbs ev) w).
Proof. reflexivity. Qed.

End Delivery.

Section DeliveryClaims.
Import SessionManager.

Lemma has_sessionId_record_effect sid ev d :
  Session.has_sessionId sid (record_effect ev d) = Session.has_sessionId sid d.
Proof. by destruct ev. Qed.

Lemma session_of_dispatch sid uid cbs ev w :
  quiet_callbacks cbs ->
  session_of (exec (dispatch sid uid cbs ev) w) sid
  = record_effect ev <$> session_of w sid.
Proof.
  intros Hq. unfold session_of, exec.
  destruct (dispatch_frame sid uid cbs ev w Hq) as (_ & -> & _).
  apply find_update_first_same. intros d Hd. by rewrite has_sessionId_record_effect.
Qed.

Lemma session_of_run_events sid uid cbs evs w :
  quiet_callbacks cbs ->
  session_of (run_events sid uid cbs evs w) sid
  = record_after evs <$> session_of w sid.
Proof.
  intros Hq. revert w. induction evs as [|ev evs IH]; intros w.
  - simpl. by destruct (session_of w sid).
  - rewrite run_events_cons, IH, session_of_dispatch by done.
    by destruct (session_of w sid).
Qed.

(** *** The pairing fields of the record *)

Lemma record_after_no_qr evs d :
  existsb is_qr evs = false ->
  SessionDoc.qrCode d = None ->
  SessionDoc.qrCode (record_after evs d) = None.
Proof.
  revert d. induction evs as [|ev evs IH]; intros d Hno Hd; [done|].
  simpl in Hno. apply orb_false_elim in Hno as [Hev Hno].
  simpl. apply IH; [done|]. by destruct ev.
Qed.

Lemma record_after_unpaired evs d :
  pairing_precedes_ready evs = true ->
  SessionDoc.phoneNumber d = None ->
  ~ both_set (record_after evs d).
Proof.
  revert d. induction evs as [|ev evs IH]; intros d Hev Hd.
  - simpl. intros [_ [p Hp]]. congruence.
  - simpl in Hev. destruct (is_ready ev) eqn:Hr.
    + apply negb_true_iff in Hev. simpl.
      intros [[q Hq] _].
      rewrite (record_after_no_qr evs (record_effect ev d) Hev) in Hq; [done|].
      by destruct ev.
    + simpl. apply IH; [done|]. by destruct ev.
Qed.

Lemma pairing_precedes_ready_take n evs :
  pairing_precedes_ready evs = true -> pairing_precedes_ready (take n evs) = true.
Proof.
  revert n. induction evs as [|ev evs IH]; intros [|n] H; try done.
  simpl in *. destruct (is_ready ev); [|by apply IH].
  apply negb_true_iff in H. apply negb_true_iff.
  apply not_true_is_false. intros (x & Hin & Hx)%existsb_exists.
  assert (existsb is_qr evs = true); [|congruence].
  apply existsb_exists. exists x. split; [|done].
  apply list_elem_of_In. apply list_elem_of_In in Hin.
  eapply subseteq_take, Hin.
Qed.

(** C9 as stated fails: a [qr] event that follows a [ready] event stores
    the payload while the phone number recorded by [ready] is still set; and
    so does the first [qr] event of a restored session whose saved
    authentication is no longer accepted. *)
Lemma qr_after_ready_sets_both :
  (SessionDoc.qrCode
     <$> session_of (run_events "s1" "u1" no_callbacks ready_then_qr
                       (world_s1 INITIALIZING)) "s1") = Some (Some "ABC")
  /\ (SessionDoc.phoneNumber
        <$> session_of (run_events "s1" "u1" no_callbacks ready_then_qr
                          (world_s1 INITIALIZING)) "s1") = Some (Some "15550001")
  /\ (SessionDoc.qrCode
        <$> session_of (run_events "s1" "u1" no_callbacks [EvQr "ABC"]
                          world_restored_paired) "s1") = Some (Some "ABC")
  /\ (SessionDoc.phoneNumber
        <$> session_of (run_events "s1" "u1" no_callbacks [EvQr "ABC"]
                          world_restored_paired) "s1") = Some (Some "15550001").
Proof. vm_compute. done. Qed.

(** C9, amended. For every session record whose phone number is not set,
    and every sequence of handler executions in which no [qr] event follows
    a [ready] event, [qrCode] and [phoneNumber] are never both set, at any
    point of the sequence. The [qr] handler stores the payload; the [ready]
    handler clears it when it records the phone number. *)
Theorem pairing_fields_exclusive sid uid cbs evs w :
  quiet_callbacks cbs ->
  (forall d, session_of w sid = Some d -> SessionDoc.phoneNumber d = None) ->
  pairing_precedes_ready evs = true ->
  (forall n d', session_of (run_events sid uid cbs (take n evs) w) sid = Some d' ->
      ~ both_set d')
  /\ (forall w1 qr d', session_of (exec (on_qr sid uid cbs qr) w1) sid = Some d' ->
        SessionDoc.qrCode d' = Some qr)
  /\ (forall w1 wid_user d',
        session_of (exec (on_ready sid uid cbs wid_user) w1) sid = Some d' ->
        SessionDoc.qrCode d' = None /\ SessionDoc.phoneNumber d' = Some (trim wid_user)).
Proof.
  intros Hq Hphone Hevs. split; [|split].
  - intros n d'. rewrite session_of_run_events by done.
    destruct (session_of w sid) as [d|] eqn:Hd; [|done].
    intros [= <-]. apply record_after_unpaired.
    + by apply pairing_precedes_ready_take.
    + by apply Hphone.
  - intros w1 qr d'.
    change (on_qr sid uid cbs qr) with (dispatch sid uid cbs (EvQr qr)).
    rewrite (session_of_dispatch sid uid cbs (EvQr qr) w1 Hq).
    destruct (session_of w1 sid); [|done]. by intros [= <-].
  - intros w1 wid_user d'.
    change (on_ready sid uid cbs wid_user) with (dispatch sid uid cbs (EvReady wid_user)).
    rewrite (session_of_dispatch sid uid cbs (EvReady wid_user) w1 Hq).
    destruct (session_of w1 sid); [|done]. by intros [= <-].
Qed.
End DeliveryClaims.

Section DeliveryWitnesses.
Import SessionManager.

Lemma pairing_fields_exclusive_witness :
  quiet_callbacks no_callbacks
  /\ (forall d, session_of (world_s1 INITIALIZING) "s1" = Some d ->
        SessionDoc.phoneNumber d = None)
  /\ pairing_precedes_ready [EvQr "ABC"; EvQr "DEF"; EvReady "15550001"; EvDisconnected "LOGOUT"]
     = true
  /\ (forall n d',
        session_of
          (run_events "s1" "u1" no_callbacks
             (take n [EvQr "ABC"; EvQr "DEF"; EvReady "15550001"; EvDisconnected "LOGOUT"])
             (world_s1 INITIALIZING)) "s1" = Some d' ->
        ~ both_set d').
Proof.
  assert (forall d, session_of (world_s1 INITIALIZING) "s1" = Some d ->
            SessionDoc.phoneNumber d = None) as Hphone.
  { intros d Hd. vm_compute in Hd. by injection Hd as <-. }
  split; [apply no_callbacks_quiet|]. split; [exact Hphone|]. split; [reflexivity|].
  apply (pairing_fields_exclusive "s1" "u1" no_callbacks
           [EvQr "ABC"; EvQr "DEF"; EvReady "15550001"; EvDisconnected "LOGOUT"]
           (world_s1 INITIALIZING) no_callbacks_quiet Hphone eq_refl).
Defined.
End DeliveryWitnesses.

(** ** Status transitions and the fan-out *)

Section StatusEvents.
Import SessionManager.

Lemma on_auth_failure_eq sid msg w :
  on_auth_failure sid msg w =
    (Ok tt,
     with_sessionsColl
       (update_first (Session.has_sessionId sid) (SessionDoc.set_status FAILED)
          (sessionsColl w))
       (with_logged (logged w ++ [(LError, "Authentication failure")]) w)).
Proof. reflexivity. Qed.

(** The [auth_failure] handler persists FAILED and publishes nothing. *)
Lemma auth_failure_silent sid msg w :
  status_of (exec (on_auth_failure sid msg) w) sid = (fun _ => FAILED) <$> status_of w sid
  /\ emitted (exec (on_auth_failure sid msg) w) = emitted w.
Proof.
  unfold exec. rewrite on_auth_failure_eq. simpl. split; [|done].
  apply (status_of_set_status
           (with_logged (logged w ++ [(LError, "Authentication failure")]) w) sid FAILED).
Qed.

(** So does the callback of a rejected [client.initialize()]. *)
Lemma initialize_catch_silent sid e w :
  status_of (exec (initialize_catch sid e) w) sid = (fun _ => FAILED) <$> status_of w sid
  /\ emitted (exec (initialize_catch sid e) w) = emitted w.
Proof.
  unfold exec, initialize_catch, sessions_delete, Session.findOneAndUpdate.
  munfold. simpl. split; [|done].
  unfold status_of, session_of. simpl.
  rewrite find_update_first_same by done. by destruct (List.find _ _).
Qed.

(** C6 at the failing input: session [s1] of user [u1] awaits pairing, the
    Socket.IO server is up, and the SDK raises [auth_failure]. FAILED is
    persisted and no event at all is published. *)
Lemma auth_failure_publishes_nothing :
  io (world_s1 QR_SCAN_PENDING) = true
  /\ status_of (exec (on_auth_failure "s1" "401") (world_s1 QR_SCAN_PENDING)) "s1"
     = Some FAILED
  /\ emitted (exec (on_auth_failure "s1" "401") (world_s1 QR_SCAN_PENDING)) = [].
Proof. vm_compute. done. Qed.

(** The sibling path: when the synchronisation pass fails, the same
    transition to FAILED is published to the owner. *)
Lemma sync_failure_publishes_failed :
  status_of
    (exec (startBackgroundSync "s1" {| clientId := "s1" |} "u1" (Throw boom))
       (world_s1 READY)) "s1" = Some FAILED
  /\ status_events
       (exec (startBackgroundSync "s1" {| clientId := "s1" |} "u1" (Throw boom))
          (world_s1 READY)) "s1" = [FAILED].
Proof. vm_compute. done. Qed.

(** A [disconnected] event of a restored session (no callbacks) persists
    DISCONNECTED and publishes nothing; the controller's callback is what
    publishes it for a session created over HTTP. *)
Lemma disconnected_publishes_by_callback_only :
  status_events
    (exec (on_disconnected "s1" no_callbacks "NAVIGATION") (world_s1 READY)) "s1" = []
  /\ status_events
       (exec (on_disconnected "s1" (WhatsAppController.callbacks "s1" "u1" (fun qr => qr))
                "NAVIGATION") (world_s1 READY)) "s1" = [DISCONNECTED].
Proof. vm_compute. done. Qed.
End StatusEvents.

(** ** Restoration at startup *)

Section Restore.
Import SessionManager.

Lemma status_update_first sid sid' st (l : list SessionDoc.t) :
  SessionDoc.status
    <$> List.find (Session.has_sessionId sid')
          (update_first (Session.has_sessionId sid) (SessionDoc.set_status st) l)
  = if bool_decide (sid' = sid)
    then (fun _ => st) <$> (SessionDoc.status <$> List.find (Session.has_sessionId sid') l)
    else SessionDoc.status <$> List.find (Session.has_sessionId sid') l.
Proof.
  case_bool_decide as Hs.
  - subst sid'. rewrite find_update_first_same by done. by destruct (List.find _ _).
  - rewrite find_update_first_other; [done|].
    intros d Hd. apply bool_decide_eq_true in Hd.
    unfold Session.has_sessionId. simpl.
    split; apply bool_decide_eq_false; congruence.
Qed.

Lemma bool_decide_elem_cons (x a : string) (L : list string) :
  bool_decide (x ∈ a :: L) = bool_decide (x = a) || bool_decide (x ∈ L).
Proof.
  destruct (decide (x = a)) as [->|Hne].
  - rewrite (bool_decide_eq_true_2 (a ∈ a :: L)) by apply list_elem_of_here.
    by rewrite (bool_decide_eq_true_2 (a = a)).
  - rewrite (bool_decide_eq_false_2 (x = a)) by done. simpl.
    apply bool_decide_ext. rewrite elem_of_cons. split; [by intros [?|?]|by right].
Qed.

Lemma restore_each_effect sdk s w :
  fst (restore_each sdk s w) = Ok tt
  /\ (forall sid',
        status_of (snd (restore_each sdk s w)) sid'
        = if bool_decide (sid' = SessionDoc.sessionId s)
          then (fun _ => if is_ok (construct_of sdk (SessionDoc.sessionId s))
                         then INITIALIZING else FAILED) <$> status_of w sid'
          else status_of w sid')
  /\ sessions (snd (restore_each sdk s w))
     = (if is_ok (construct_of sdk (SessionDoc.sessionId s))
        then <[SessionDoc.sessionId s := {| clientId := SessionDoc.sessionId s |}]> (sessions w)
        else sessions w)
  /\ pendingInitialize (snd (restore_each sdk s w))
     = (pendingInitialize w
        ++ if is_ok (construct_of sdk (SessionDoc.sessionId s))
           then [(SessionDoc.sessionId s, initialize_of sdk (SessionDoc.sessionId s))]
           else [])%list.
Proof.
  unfold restore_each, restoreSession, initializeClient, sessions_set,
    Session.findOneAndUpdate, status_of, session_of.
  munfold. wsimpl.
  destruct (construct_of sdk (SessionDoc.sessionId s)) as [[]|e]; simpl.
  - split; [done|]. split; [|done].
    intros sid'. apply status_update_first.
  - rewrite app_nil_r. split; [done|]. split; [|done].
    intros sid'. rewrite !status_update_first.
    case_bool_decide; [|done]. by destruct (List.find _ _).
Qed.

Lemma for_of_cons {A : Type} (x : A) (xs : list A) (body : A -> M unit) w :
  for_of (x :: xs) body w
  = match body x w with
    | (Ok _, w1) => for_of xs body w1
    | (Throw e, w1) => (Throw e, w1)
    end.
Proof. reflexivity. Qed.

Lemma restore_loop_effect sdk l w :
  fst (for_of l (restore_each sdk) w) = Ok tt
  /\ (forall sid',
        status_of (snd (for_of l (restore_each sdk) w)) sid'
        = if bool_decide (sid' ∈ SessionDoc.sessionId <$> l)
          then (fun _ => if is_ok (construct_of sdk sid') then INITIALIZING else FAILED)
                 <$> status_of w sid'
          else status_of w sid')
  /\ (forall sid',
        sessions (snd (for_of l (restore_each sdk) w)) !! sid'
        = if bool_decide (sid' ∈ SessionDoc.sessionId <$> l)
             && is_ok (construct_of sdk sid')
          then Some {| clientId := sid' |}
          else sessions w !! sid')
  /\ pendingInitialize (snd (for_of l (restore_each sdk) w))
     = (pendingInitialize w
        ++ flat_map (fun s => if is_ok (construct_of sdk (SessionDoc.sessionId s))
                              then [(SessionDoc.sessionId s,
                                     initialize_of sdk (SessionDoc.sessionId s))]
                              else []) l)%list.
Proof.
  revert w. induction l as [|s l IH]; intros w.
  - simpl. rewrite app_nil_r. done.
  - rewrite for_of_cons.
    destruct (restore_each_effect sdk s w) as (H1 & H2 & H3 & H4).
    destruct (restore_each sdk s w) as [r w1]. simpl in H1, H2, H3, H4. subst r.
    destruct (IH w1) as (I1 & I2 & I3 & I4).
    split; [done|]. split; [|split].
    + intros sid'. rewrite I2, H2, fmap_cons, bool_decide_elem_cons.
      destruct (bool_decide (sid' = SessionDoc.sessionId s)) eqn:E1;
        destruct (bool_decide (sid' ∈ SessionDoc.sessionId <$> l)); simpl; try done.
      * apply bool_decide_eq_true in E1. subst sid'. by destruct (status_of w _).
      * apply bool_decide_eq_true in E1. by subst sid'.
    + intros sid'. rewrite I3, H3, fmap_cons, bool_decide_elem_cons.
      destruct (bool_decide (sid' = SessionDoc.sessionId s)) eqn:E1.
      * apply bool_decide_eq_true in E1. subst sid'. simpl.
        destruct (is_ok _); simpl.
        -- rewrite andb_true_r. case_bool_decide; [done|]. by rewrite lookup_insert_eq.
        -- by rewrite andb_false_r.
      * apply bool_decide_eq_false in E1. simpl.
        assert ((if is_ok (construct_of sdk (SessionDoc.sessionId s))
                 then <[SessionDoc.sessionId s := {| clientId := SessionDoc.sessionId s |}]>
                        (sessions w)
                 else sessions w) !! sid' = sessions w !! sid') as ->; [|done].
        destruct (is_ok _); [|done]. by rewrite lookup_insert_ne.
    + rewrite I4, H4. simpl. by rewrite <- app_assoc.
Qed.
Lemma settle_initialize_effect P w :
  fst (settle_initialize P w) = Ok tt
  /\ (forall sid',
        status_of (snd (settle_initialize P w)) sid'
        = if rejected P sid' then (fun _ => FAILED) <$> status_of w sid'
          else status_of w sid')
  /\ (forall sid',
        sessions (snd (settle_initialize P w)) !! sid'
        = if rejected P sid' then None else sessions w !! sid').
Proof.
  revert w. induction P as [|[sid [[]|e]] P IH]; intros w; [done|..].
  - change (settle_initialize ((sid, Ok ()) :: P) w) with (settle_initialize P w).
    destruct (IH w) as (I1 & I2 & I3).
    split; [done|]. unfold rejected in *. simpl.
    split; intros sid'; rewrite andb_false_r; simpl; [apply I2|apply I3].
  - change (settle_initialize ((sid, Throw e) :: P) w)
      with (settle_initialize P (exec (initialize_catch sid e) w)).
    destruct (IH (exec (initialize_catch sid e) w)) as (I1 & I2 & I3).
    split; [done|]. split.
    + intros sid'. rewrite I2.
      assert (status_of (exec (initialize_catch sid e) w) sid'
              = if bool_decide (sid = sid') then (fun _ => FAILED) <$> status_of w sid'
                else status_of w sid') as ->.
      { unfold exec, initialize_catch, sessions_delete, Session.findOneAndUpdate,
          status_of, session_of. munfold. simpl.
        rewrite status_update_first.
        destruct (decide (sid = sid')) as [->|Hne].
        - by rewrite !bool_decide_eq_true_2.
        - by rewrite !bool_decide_eq_false_2. }
      unfold rejected. simpl. rewrite andb_true_r.
      destruct (bool_decide (sid = sid')), (existsb _ P); simpl; try done.
      by destruct (status_of w sid').
    + intros sid'. rewrite I3.
      assert (sessions (exec (initialize_catch sid e) w) !! sid'
              = if bool_decide (sid = sid') then None else sessions w !! sid') as ->.
      { unfold exec, initialize_catch, sessions_delete, Session.findOneAndUpdate.
        munfold. simpl. case_bool_decide as Hs.
        - subst. apply lookup_delete_eq.
        - by apply lookup_delete_ne. }
      unfold rejected. simpl. rewrite andb_true_r.
      by destruct (bool_decide (sid = sid')), (existsb _ P).
Qed.

Lemma rejected_flat_map sdk (l : list SessionDoc.t) sid' :
  rejected
    (flat_map (fun s => if is_ok (construct_of sdk (SessionDoc.sessionId s))
                        then [(SessionDoc.sessionId s,
                               initialize_of sdk (SessionDoc.sessionId s))]
                        else []) l) sid'
  = bool_decide (sid' ∈ SessionDoc.sessionId <$> l)
    && is_ok (construct_of sdk sid') && negb (is_ok (initialize_of sdk sid')).
Proof.
  induction l as [|s l IH]; [done|].
  rewrite fmap_cons, bool_decide_elem_cons. simpl.
  unfold rejected in *. rewrite existsb_app, IH.
  destruct (decide (sid' = SessionDoc.sessionId s)) as [->|Hne].
  - rewrite (bool_decide_eq_true_2 (_ = _)) by done. simpl.
    destruct (is_ok (construct_of _ _)); simpl.
    + rewrite bool_decide_eq_true_2 by done. simpl.
      destruct (is_ok (initialize_of _ _)); simpl; [|done].
      by rewrite andb_false_r.
    + by rewrite !andb_false_r.
  - rewrite (bool_decide_eq_false_2 (sid' = _)) by done. simpl.
    destruct (is_ok (construct_of sdk (SessionDoc.sessionId s))); simpl; [|done].
    rewrite bool_decide_eq_false_2 by done. done.
Qed.

(** [restoreSessions] alone: it never throws, and it leaves every
    restorable session in INITIALIZING with a registered handle and a
    pending initialisation, or in FAILED when its client cannot even be
    constructed; nothing else changes status. *)
Lemma restoreSessions_effect sdk w :
  fst (restoreSessions sdk w) = Ok tt
  /\ (forall sid',
        status_of (snd (restoreSessions sdk w)) sid'
        = if bool_decide (sid' ∈ SessionDoc.sessionId <$> List.filter restorable (sessionsColl w))
          then (fun _ => if is_ok (construct_of sdk sid') then INITIALIZING else FAILED)
                 <$> status_of w sid'
          else status_of w sid')
  /\ (forall sid',
        sessions (snd (restoreSessions sdk w)) !! sid'
        = if bool_decide (sid' ∈ SessionDoc.sessionId <$> List.filter restorable (sessionsColl w))
             && is_ok (construct_of sdk sid')
          then Some {| clientId := sid' |}
          else sessions w !! sid')
  /\ pendingInitialize (snd (restoreSessions sdk w))
     = (pendingInitialize w
        ++ flat_map (fun s => if is_ok (construct_of sdk (SessionDoc.sessionId s))
                              then [(SessionDoc.sessionId s,
                                     initialize_of sdk (SessionDoc.sessionId s))]
                              else []) (List.filter restorable (sessionsColl w)))%list.
Proof.
  unfold restoreSessions, Session.find_status_in. munfold. wsimpl.
  fold restorable.
  set (w0 := {| config := config w; clock := clock w; sessionsColl := sessionsColl w;
                chatsColl := chatsColl w; messagesColl := messagesColl w;
                nextObjectId := nextObjectId w; sessions := sessions w; io := io w;
                emitted := emitted w;
                logged := logged w ++ [(LInfo, "Found sessions to restore")];
                syncLaunches := syncLaunches w;
                pendingInitialize := pendingInitialize w |}).
  case_bool_decide as Hlen.
  - apply length_zero_iff_nil in Hlen. rewrite Hlen. simpl. rewrite app_nil_r. done.
  - destruct (restore_loop_effect sdk (List.filter restorable (sessionsColl w)) w0)
      as (L1 & L2 & L3 & L4).
    destruct (for_of _ _ w0) as [r w1]. simpl in L1, L2, L3, L4. subst r. simpl.
    split; [done|]. split; [|split].
    + intros sid'. exact (L2 sid').
    + intros sid'. exact (L3 sid').
    + exact L4.
Qed.
End Restore.

Section RestoreClaims.
Import SessionManager.

Lemma find_by_sessionId (l : list SessionDoc.t) s :
  NoDup (SessionDoc.sessionId <$> l) ->
  s ∈ l ->
  List.find (Session.has_sessionId (SessionDoc.sessionId s)) l = Some s.
Proof.
  induction l as [|x l IH]; intros Hnd Hin; [by apply elem_of_nil in Hin|].
  rewrite fmap_cons in Hnd. apply NoDup_cons in Hnd as [Hx Hnd].
  simpl. unfold Session.has_sessionId at 1.
  apply elem_of_cons in Hin as [->|Hin].
  - by rewrite bool_decide_eq_true_2.
  - rewrite bool_decide_eq_false_2; [by apply IH|].
    intros Heq. apply Hx. rewrite Heq. by apply list_elem_of_fmap_2.
Qed.

Lemma selected_iff_restorable (l : list SessionDoc.t) s :
  NoDup (SessionDoc.sessionId <$> l) ->
  s ∈ l ->
  bool_decide (SessionDoc.sessionId s ∈ SessionDoc.sessionId <$> List.filter restorable l)
  = restorable s.
Proof.
  intros Hnd Hin. destruct (restorable s) eqn:Hr.
  - apply bool_decide_eq_true. apply list_elem_of_fmap_2.
    apply list_elem_of_In, filter_In. split; [by apply list_elem_of_In|done].
  - apply bool_decide_eq_false. intros (s' & Heq & Hin')%list_elem_of_fmap.
    apply list_elem_of_In, filter_In in Hin' as [Hin' Hr'].
    apply list_elem_of_In in Hin'.
    pose proof (find_by_sessionId l s Hnd Hin) as F1.
    pose proof (find_by_sessionId l s' Hnd Hin') as F2.
    rewrite Heq in F1. congruence.
Qed.

(** C5. Startup restoration is failure-independent. [restoreSessions]
    never throws and attempts every persisted session whose status is
    READY, SYNCING or DISCONNECTED. Whatever happens to the other sessions,
    such a session ends FAILED, without a registered handle of its own
    making, when its client cannot be constructed or its initialisation
    rejects, and otherwise ends INITIALIZING with its handle registered;
    sessions in any other status keep their status. *)
Theorem restoration_is_failure_independent sdk w :
  NoDup (SessionDoc.sessionId <$> sessionsColl w) ->
  pendingInitialize w = [] ->
  outcome (restoreSessions sdk) w = Ok tt
  /\ outcome (startup sdk) w = Ok tt
  /\ forall s, s ∈ sessionsColl w ->
       status_of (exec (startup sdk) w) (SessionDoc.sessionId s)
       = Some (if restorable s
               then (if restores sdk (SessionDoc.sessionId s) then INITIALIZING else FAILED)
               else SessionDoc.status s)
       /\ (restorable s = true ->
           sessions (exec (startup sdk) w) !! SessionDoc.sessionId s
           = if restores sdk (SessionDoc.sessionId s)
             then Some {| clientId := SessionDoc.sessionId s |}
             else if is_ok (construct_of sdk (SessionDoc.sessionId s))
                  then None
                  else sessions w !! SessionDoc.sessionId s).
Proof.
  intros Hnd Hpend.
  destruct (restoreSessions_effect sdk w) as (R1 & R2 & R3 & R4).
  unfold outcome, exec, startup, drain_initialize. munfold.
  destruct (restoreSessions sdk w) as [r w1]. simpl in R1, R2, R3, R4. subst r. simpl.
  rewrite R4, Hpend. simpl.
  set (P := flat_map _ _) in *.
  destruct (settle_initialize_effect P (with_pendingInitialize [] w1)) as (S1 & S2 & S3).
  destruct (settle_initialize P _) as [r w2]. simpl in S1, S2, S3. subst r.
  split; [done|]. split; [done|].
  intros s Hin. simpl.
  pose proof (selected_iff_restorable (sessionsColl w) s Hnd Hin) as Hsel.
  assert (status_of w (SessionDoc.sessionId s) = Some (SessionDoc.status s)) as Hst.
  { unfold status_of, session_of. by rewrite find_by_sessionId. }
  assert (rejected P (SessionDoc.sessionId s)
          = restorable s && is_ok (construct_of sdk (SessionDoc.sessionId s))
            && negb (is_ok (initialize_of sdk (SessionDoc.sessionId s)))) as Hrej.
  { subst P. by rewrite rejected_flat_map, Hsel. }
  split.
  - rewrite S2, Hrej.
    change (status_of (with_pendingInitialize [] w1) (SessionDoc.sessionId s))
      with (status_of w1 (SessionDoc.sessionId s)).
    rewrite R2, Hsel, Hst. unfold restores.
    destruct (restorable s), (is_ok (construct_of _ _)), (is_ok (initialize_of _ _)); done.
  - intros Hr. rewrite S3, Hrej.
    change (sessions (with_pendingInitialize [] w1)) with (sessions w1).
    rewrite R3, Hsel, Hr. unfold restores.
    destruct (is_ok (construct_of _ _)), (is_ok (initialize_of _ _)); done.
Qed.

Lemma restoration_witness :
  NoDup (SessionDoc.sessionId <$> sessionsColl world_three)
  /\ pendingInitialize world_three = []
  /\ outcome (startup sdk_s2_fails) world_three = Ok tt
  /\ status_of (exec (startup sdk_s2_fails) world_three) "s1" = Some INITIALIZING
  /\ status_of (exec (startup sdk_s2_fails) world_three) "s2" = Some FAILED
  /\ status_of (exec (startup sdk_s2_fails) world_three) "s3" = Some INITIALIZING
  /\ status_of (exec (startup sdk_s2_fails) world_three) "s4" = Some FAILED.
Proof.
  assert (NoDup (SessionDoc.sessionId <$> sessionsColl world_three)) as Hnd.
  { apply (bool_decide_unpack _). vm_compute. exact I. }
  split; [exact Hnd|]. split; [reflexivity|].
  destruct (restoration_is_failure_independent sdk_s2_fails world_three Hnd eq_refl)
    as (_ & Ho & Hall).
  split; [exact Ho|].
  assert (forall s, s ∈ sessionsColl world_three ->
            status_of (exec (startup sdk_s2_fails) world_three) (SessionDoc.sessionId s)
            = Some (if restorable s
                    then (if restores sdk_s2_fails (SessionDoc.sessionId s)
                          then INITIALIZING else FAILED)
                    else SessionDoc.status s)) as Hst.
  { intros s Hs. apply (Hall s Hs). }
  split; [|split; [|split]].
  - apply (Hst (session_doc "u1" "s1" READY)). apply list_elem_of_In. simpl. auto.
  - apply (Hst (session_doc "u1" "s2" SYNCING)). apply list_elem_of_In. simpl. auto.
  - apply (Hst (session_doc "u2" "s3" DISCONNECTED)). apply list_elem_of_In. simpl. auto.
  - apply (Hst (session_doc "u2" "s4" FAILED)). apply list_elem_of_In. simpl. auto.
Defined.
End RestoreClaims.

(** ** The synchronisation pass *)

Section SyncPass.
Import SessionManager.

Lemma silent_bind {A B : Type} (m : M A) (f : A -> M B) :
  silent m -> (forall a, silent (f a)) -> silent (m ≫= f).
Proof.
  intros Hm Hf w. unfold mbind, M_bind.
  destruct (Hm w) as (H1 & H2 & H3). destruct (m w) as [[a|e] w1]; simpl in *.
  - destruct (Hf a w1) as (F1 & F2 & F3). rewrite F1, F2, F3. done.
  - done.
Qed.

Lemma silent_try_catch {A : Type} (body : M A) (handler : JsError -> M A) :
  silent body -> (forall e, silent (handler e)) -> silent (try_catch body handler).
Proof.
  intros Hb Hh w. unfold try_catch.
  destruct (Hb w) as (H1 & H2 & H3). destruct (body w) as [[a|e] w1]; simpl in *.
  - done.
  - destruct (Hh e w1) as (F1 & F2 & F3). rewrite F1, F2, F3. done.
Qed.

Lemma returns_bind {A B : Type} (m : M A) (f : A -> M B) :
  returns m -> (forall a, returns (f a)) -> returns (m ≫= f).
Proof.
  intros Hm Hf w. unfold mbind, M_bind.
  destruct (Hm w) as [a Ha]. destruct (m w) as [r w1]. simpl in Ha. subst r.
  apply Hf.
Qed.

Lemma returns_try_catch {A : Type} (body : M A) (handler : JsError -> M A) :
  (forall e, returns (handler e)) -> returns (try_catch body handler).
Proof.
  intros Hh w. unfold try_catch. destruct (body w) as [[a|e] w1]; [by eexists|].
  apply Hh.
Qed.

Lemma silent_ret {A : Type} (a : A) : silent (mret a : M A).
Proof. by intros w. Qed.

Lemma returns_ret {A : Type} (a : A) : returns (mret a : M A).
Proof. intros w. by eexists. Qed.

Lemma silent_logger lvl msg : silent (logger lvl msg).
Proof. by intros w. Qed.

Lemma returns_logger lvl msg : returns (logger lvl msg).
Proof. intros w. by eexists. Qed.

Lemma silent_settle {A : Type} (r : result A) : silent (settle r).
Proof. by intros w. Qed.

Lemma silent_now : silent now.
Proof. by intros w. Qed.

Lemma silent_insertOne mk : silent (Message.collection_insertOne mk).
Proof.
  intros w. unfold Message.collection_insertOne. munfold. simpl.
  by destruct (existsb _ _).
Qed.

Lemma silent_upsert d : silent (Chat.upsert d).
Proof.
  intros w. unfold Chat.upsert. munfold. simpl. by destruct (existsb _ _).
Qed.

Lemma silent_save_message sid cid msg c : silent (save_message sid cid msg c).
Proof.
  unfold save_message. apply silent_try_catch.
  - apply silent_bind; [apply silent_now|]. intros t.
    apply silent_bind; [apply silent_insertOne|]. intros _. apply silent_ret.
  - intros e. apply silent_bind; [|intros _; apply silent_ret].
    case_bool_decide; [apply silent_logger|apply silent_ret].
Qed.

Lemma returns_save_message sid cid msg c : returns (save_message sid cid msg c).
Proof.
  unfold save_message. apply returns_try_catch. intros e.
  apply returns_bind; [|intros _; apply returns_ret].
  case_bool_decide; [apply returns_logger|apply returns_ret].
Qed.

Lemma silent_save_messages sid cid msgs c : silent (save_messages sid cid msgs c).
Proof.
  revert c. induction msgs as [|msg msgs IH]; intros c; [apply silent_ret|].
  simpl. apply silent_bind; [apply silent_save_message|]. intros c'. apply IH.
Qed.

Lemma returns_save_messages sid cid msgs c : returns (save_messages sid cid msgs c).
Proof.
  revert c. induction msgs as [|msg msgs IH]; intros c; [apply returns_ret|].
  simpl. apply returns_bind; [apply returns_save_message|]. intros c'. apply IH.
Qed.

(** One conversation: whatever [fetchMessages] answers and however many
    messages it returns, the progress is persisted once and published
    once. *)
Lemma sync_chat_effect sid uid n i chat w :
  fst (sync_chat sid uid n i chat w) = Ok tt
  /\ sessionsColl (snd (sync_chat sid uid n i chat w))
     = update_first (Session.has_sessionId sid)
         (SessionDoc.set_syncProgress (progress_of i n)) (sessionsColl w)
  /\ emitted (snd (sync_chat sid uid n i chat w))
     = (emitted w ++ if io w then [progress_emission sid uid (progress_of i n)] else [])%list
  /\ io (snd (sync_chat sid uid n i chat w)) = io w.
Proof.
  unfold sync_chat.
  match goal with |- context [try_catch ?b ?h] =>
    assert (silent (try_catch b h)) as Hs;
    [|assert (returns (try_catch b h)) as Hr] end.
  - apply silent_try_catch; [|intros e; apply silent_logger].
    apply silent_bind; [apply silent_settle|]. intros msgs.
    apply silent_bind; [apply silent_now|]. intros t.
    apply silent_bind; [apply silent_upsert|]. intros _.
    apply silent_bind; [apply silent_save_messages|]. intros _. apply silent_logger.
  - apply returns_try_catch. intros e. apply returns_logger.
  - match goal with |- context [try_catch ?b ?h] => set (T := try_catch b h) in * end.
    unfold mbind, M_bind.
    destruct (Hs w) as (S1 & S2 & S3). destruct (Hr w) as [[] Ha].
    destruct (T w) as [r w1]. simpl in *. subst r.
    unfold Session.findOneAndUpdate, SocketManager.emitSyncProgress,
      SocketManager.emitToUser, progress_emission. munfold. wsimpl.
    rewrite S1, S2, S3. destruct (io w) eqn:Hio; simpl; rewrite ?Hio, ?app_nil_r; done.
Qed.
End SyncPass.


(** ** Binary64 arithmetic of the progress percentage *)

Local Close Scope string_scope.

Section Rounding.

Lemma rne_div_bounds n d :
  0 < d -> n / d <= rne_div n d <= n / d + 1.
Proof.
  intros Hd. unfold rne_div.
  destruct (2 * (n mod d) <? d); [lia|].
  destruct (d <? 2 * (n mod d)); [lia|].
  destruct (Z.even (n / d)); lia.
Qed.

Lemma rne_div_exact q d : 0 < d -> rne_div (q * d) d = q.
Proof.
  intros Hd. unfold rne_div.
  rewrite Z.mod_mul, Z.div_mul by lia.
  destruct (Z.ltb_spec (2 * 0) d); lia.
Qed.

(** Rounding to nearest is monotone on positive rationals. *)
Lemma rne_div_mono n d n' d' :
  0 < d -> 0 < d' -> 0 <= n -> n * d' <= n' * d ->
  rne_div n d <= rne_div n' d'.
Proof.
  intros Hd Hd' Hn Hle.
  pose proof (Z.div_mod n d ltac:(lia)) as E.
  pose proof (Z.div_mod n' d' ltac:(lia)) as E'.
  pose proof (Z.mod_pos_bound n d Hd) as B.
  pose proof (Z.mod_pos_bound n' d' Hd') as B'.
  pose proof (rne_div_bounds n d Hd) as Hb.
  pose proof (rne_div_bounds n' d' Hd') as Hb'.
  assert (n / d <= n' / d') as Hq.
  { apply Z.div_le_lower_bound; [lia|].
    assert (d * (d' * (n / d)) <= d * n'); [|nia]. nia. }
  destruct (Z.eq_dec (n / d) (n' / d')) as [Heq|Hne]; [|lia].
  unfold rne_div in *. rewrite <- Heq in *.
  set (q := n / d) in *. set (r := n mod d) in *. set (r' := n' mod d') in *.
  assert (r * d' <= r' * d) as Hr by nia.
  destruct (Z.ltb_spec (2 * r) d); destruct (Z.ltb_spec (2 * r') d');
    destruct (Z.ltb_spec d (2 * r)); destruct (Z.ltb_spec d' (2 * r'));
    destruct (Z.even q); try lia; nia.
Qed.

Lemma rne_div_scale n d c :
  0 < d -> 0 < c -> rne_div (n * c) (d * c) = rne_div n d.
Proof.
  intros Hd Hc. unfold rne_div.
  rewrite Z.div_mul_cancel_r by lia.
  rewrite Z.mul_mod_distr_r by lia.
  replace (2 * (n mod d * c)) with (2 * (n mod d) * c) by ring.
  destruct (Z.ltb_spec (2 * (n mod d)) d); destruct (Z.ltb_spec (2 * (n mod d) * c) (d * c));
    try nia; try reflexivity.
  destruct (Z.ltb_spec d (2 * (n mod d))); destruct (Z.ltb_spec (d * c) (2 * (n mod d) * c));
    try nia; reflexivity.
Qed.

End Rounding.

Section Digits.

Lemma pow2_succ d : 0 <= d -> 2 ^ (d + 1) = 2 * 2 ^ d.
Proof. intros Hd. rewrite Z.pow_add_r by lia. change (2 ^ 1) with 2. ring. Qed.

Lemma digits2_pos_bounds p :
  2 ^ (Zpos (digits2_pos p) - 1) <= Zpos p < 2 ^ Zpos (digits2_pos p).
Proof.
  induction p as [p IH|p IH|]; simpl digits2_pos.
  - rewrite Pos2Z.inj_succ, Pos2Z.inj_xI.
    replace (Z.succ (Zpos (digits2_pos p)) - 1) with (Zpos (digits2_pos p) - 1 + 1) by lia.
    replace (Z.succ (Zpos (digits2_pos p))) with (Zpos (digits2_pos p) + 1) by lia.
    rewrite !pow2_succ by lia. lia.
  - rewrite Pos2Z.inj_succ, Pos2Z.inj_xO.
    replace (Z.succ (Zpos (digits2_pos p)) - 1) with (Zpos (digits2_pos p) - 1 + 1) by lia.
    replace (Z.succ (Zpos (digits2_pos p))) with (Zpos (digits2_pos p) + 1) by lia.
    rewrite !pow2_succ by lia. lia.
  - simpl. lia.
Qed.

(** The number of binary digits is fixed by the power-of-two bracket. *)
Lemma Zdigits2_unique z k :
  0 < k -> 2 ^ (k - 1) <= z < 2 ^ k -> Zdigits2 z = k.
Proof.
  intros Hk [Hlo Hhi].
  assert (0 < z) as Hz by (pose proof (Z.pow_pos_nonneg 2 (k - 1)); lia).
  destruct z as [|p|p]; try lia. simpl.
  pose proof (digits2_pos_bounds p) as [Blo Bhi].
  set (d := Zpos (digits2_pos p)) in *.
  assert (0 < d) by (subst d; lia).
  destruct (Z.lt_trichotomy d k) as [Hlt|[Heq|Hgt]]; [|exact Heq|].
  - assert (2 ^ d <= 2 ^ (k - 1)) by (apply Z.pow_le_mono_r; lia). lia.
  - assert (2 ^ k <= 2 ^ (d - 1)) by (apply Z.pow_le_mono_r; lia). lia.
Qed.
End Digits.

Section Shift.

Lemma shr_1_eq m r s :
  0 <= m ->
  shr_1 (Build_shr_record m r s) = Build_shr_record (m / 2) (Z.odd m) (orb r s).
Proof.
  intros Hm. destruct m as [|[p|p|]|]; try lia; simpl shr_1; try reflexivity.
  - rewrite Pos2Z.inj_xI. f_equal. apply Z.div_unique with 1; lia.
  - rewrite Pos2Z.inj_xO. f_equal. apply Z.div_unique with 0; lia.
Qed.

Lemma shr_1_represents n h mrs :
  0 <= n -> 0 < h ->
  shr_represents n h mrs -> shr_represents n (h * 2) (shr_1 mrs).
Proof.
  intros Hn Hh (Hm & Hr & Hs).
  destruct mrs as [m r s]. simpl in Hm, Hr, Hs.
  pose proof (Z.div_mod n h ltac:(lia)) as E.
  pose proof (Z.mod_pos_bound n h Hh) as B.
  pose proof (Z.div_mod (n / h) 2 ltac:(lia)) as E2.
  pose proof (Z.mod_pos_bound (n / h) 2 ltac:(lia)) as B2.
  assert (n / (h * 2) = n / h / 2) as Hdiv by (rewrite Z.div_div by lia; reflexivity).
  assert (n mod (h * 2) = (n / h) mod 2 * h + n mod h) as Hmod.
  { pose proof (Z.div_mod n (h * 2) ltac:(lia)) as E3. rewrite Hdiv in E3. nia. }
  assert (orb r s = negb (n mod h =? 0)) as Hrs.
  { subst r s.
    destruct (Z.leb_spec h (2 * (n mod h))); destruct (Z.eqb_spec (n mod h) 0);
      destruct (Z.eqb_spec (2 * (n mod h)) h); simpl; try reflexivity; lia. }
  assert (0 <= m) as Hm0 by (subst m; apply Z.div_pos; lia).
  rewrite shr_1_eq by exact Hm0.
  unfold shr_represents. simpl. rewrite Hdiv, Hmod, Hrs, Zodd_mod, Hm.
  set (b := (n / h) mod 2) in *. set (R := n mod h) in *.
  split; [reflexivity|].
  destruct (Z.eqb_spec b 1); destruct (Z.leb_spec (h * 2) (2 * (b * h + R)));
    destruct (Z.eqb_spec R 0); destruct (Z.eqb_spec (b * h + R) 0);
    destruct (Z.eqb_spec (2 * (b * h + R)) (h * 2)); simpl;
    try (split; reflexivity); nia.
Qed.

Lemma iter_pos_shr_1_represents p n h mrs :
  0 <= n -> 0 < h ->
  shr_represents n h mrs ->
  shr_represents n (h * 2 ^ Zpos p) (SpecFloat.iter_pos shr_1 p mrs).
Proof.
  intros Hn. revert h mrs.
  induction p as [p IH|p IH|]; intros h mrs Hh Hrep; simpl SpecFloat.iter_pos.
  - assert (0 < 2 ^ Zpos p) as Hp by (apply Z.pow_pos_nonneg; lia).
    apply shr_1_represents in Hrep; [|lia..].
    apply IH in Hrep; [|lia]. apply IH in Hrep; [|nia].
    replace (h * 2 ^ Zpos p~1) with (h * 2 * 2 ^ Zpos p * 2 ^ Zpos p); [exact Hrep|].
    rewrite (Pos2Z.inj_xI p).
    rewrite Z.pow_add_r by lia. rewrite Z.pow_twice_r.
    change (2 ^ 1) with 2. ring.
  - assert (0 < 2 ^ Zpos p) as Hp by (apply Z.pow_pos_nonneg; lia).
    apply IH in Hrep; [|lia]. apply IH in Hrep; [|nia].
    replace (h * 2 ^ Zpos p~0) with (h * 2 ^ Zpos p * 2 ^ Zpos p); [exact Hrep|].
    rewrite (Pos2Z.inj_xO p).
    rewrite Z.pow_twice_r. ring.
  - apply shr_1_represents in Hrep; [|lia..]. exact Hrep.
Qed.

(** Shifting by [k] places: the record then describes [n / (h * 2^k)]. *)
Lemma shr_represents_shift n h mrs e k :
  0 <= n -> 0 < h -> 0 <= k ->
  shr_represents n h mrs ->
  shr_represents n (h * 2 ^ k) (fst (shr mrs e k)) /\ snd (shr mrs e k) = e + k.
Proof.
  intros Hn Hh Hk Hrep. destruct k as [|p|p]; [| |lia]; simpl.
  - rewrite Z.mul_1_r, Z.add_0_r. split; [exact Hrep|reflexivity].
  - split; [|reflexivity]. apply iter_pos_shr_1_represents; assumption.
Qed.

(** Rounding the record to nearest even is rounding [n / h]. *)
Lemma round_nearest_even_represents n h mrs :
  0 < h ->
  shr_represents n h mrs ->
  round_nearest_even (shr_m mrs) (loc_of_shr_record mrs) = rne_div n h.
Proof.
  intros Hh (Hm & Hr & Hs). destruct mrs as [m r s]. simpl in *.
  pose proof (Z.mod_pos_bound n h Hh) as B.
  unfold rne_div. rewrite <- Hm. subst r s.
  destruct (Z.leb_spec h (2 * (n mod h))); destruct (Z.eqb_spec (n mod h) 0);
    destruct (Z.eqb_spec (2 * (n mod h)) h);
    destruct (Z.ltb_spec (2 * (n mod h)) h); destruct (Z.ltb_spec h (2 * (n mod h)));
    simpl; try reflexivity; lia.
Qed.

(** The location [SFdiv] computes from the remainder. *)
Lemma new_location_represents n d :
  0 <= n -> 0 < d ->
  shr_represents n d (shr_record_of_loc (n / d) (new_location d (n mod d))).
Proof.
  intros Hn Hd. pose proof (Z.mod_pos_bound n d Hd) as B.
  assert (forall l, shr_m (shr_record_of_loc (n / d) l) = n / d) as Hm
    by (intros [|[]]; reflexivity).
  unfold shr_represents. rewrite Hm. split; [reflexivity|].
  generalize dependent (n mod d). intros r B.
  generalize (n / d). intros q.
  unfold new_location, new_location_even, new_location_odd.
  pose proof (Zmod_even d) as Hev.
  pose proof (Z.div_mod d 2 ltac:(lia)) as E2.
  destruct (Z.even d).
  - destruct (Z.eqb_spec r 0) as [Hr|Hr].
    + subst r. simpl. destruct (Z.leb_spec d (2 * 0)); [lia|]. split; reflexivity.
    + destruct (Z.compare_spec (2 * r) d); simpl;
        destruct (Z.leb_spec d (2 * r)); destruct (Z.eqb_spec (2 * r) d);
        try (split; reflexivity); lia.
  - destruct (Z.eqb_spec r 0) as [Hr|Hr].
    + subst r. simpl. destruct (Z.leb_spec d (2 * 0)); [lia|]. split; reflexivity.
    + destruct (Z.compare_spec (2 * r + 1) d); simpl;
        destruct (Z.leb_spec d (2 * r)); destruct (Z.eqb_spec (2 * r) d);
        try (split; reflexivity); lia.
Qed.

Lemma exact_represents n :
  shr_represents n 1 (shr_record_of_loc n loc_Exact).
Proof.
  unfold shr_represents. simpl. rewrite Z.div_1_r, Z.mod_1_r. simpl.
  repeat split.
Qed.
End Shift.

Section RoundAux.

Lemma fexp_normal e : -1074 <= e - 53 -> fexp 53 1024 e = e - 53.
Proof. intros H. unfold fexp, emin. lia. Qed.

Lemma pow2_pos k : 0 <= k -> 0 < 2 ^ k.
Proof. intros Hk. apply Z.pow_pos_nonneg; lia. Qed.

(** [binary_round_aux] on a significand of [53 + k] digits, in the normal
    range: the [k] extra digits are rounded away, to nearest even. *)
Lemma binary_round_aux_normal n h mx ex lx k :
  0 <= n -> 0 < h -> 0 <= k ->
  shr_represents n h (shr_record_of_loc mx lx) ->
  Zdigits2 mx = 53 + k ->
  -1074 <= ex + k <= 970 ->
  binary_round_aux 53 1024 false mx ex lx = normal53 (rne_div n (h * 2 ^ k)) (ex + k)
  /\ 2 ^ 52 <= n / (h * 2 ^ k) < 2 ^ 53.
Proof.
  intros Hn Hh Hk Hrep Hdig Hex.
  assert (mx = n / h) as Hmx.
  { destruct Hrep as (Hm & _). rewrite <- Hm. by destruct lx as [|[]]. }
  assert (0 < 2 ^ k) as Hpk by (by apply pow2_pos).
  assert (2 ^ (52 + k) <= mx < 2 ^ (53 + k)) as Hmxb.
  { assert (0 <= mx) as Hpos by (rewrite Hmx; apply Z.div_pos; lia).
    destruct mx as [|p|p]; simpl in Hdig; try lia.
    pose proof (digits2_pos_bounds p) as Hb. rewrite Hdig in Hb.
    replace (53 + k - 1) with (52 + k) in Hb by lia. exact Hb. }
  assert (2 ^ 52 <= n / (h * 2 ^ k) < 2 ^ 53) as Hq.
  { rewrite <- Z.div_div by lia. rewrite <- Hmx.
    rewrite !Z.pow_add_r in Hmxb by lia. split.
    - apply Z.div_le_lower_bound; lia.
    - apply Z.div_lt_upper_bound; lia. }
  split; [|exact Hq].
  unfold binary_round_aux, shr_fexp. rewrite Hdig.
  rewrite fexp_normal by lia.
  replace (53 + k + ex - 53 - ex) with k by lia.
  destruct (shr_represents_shift n h (shr_record_of_loc mx lx) ex k Hn Hh Hk Hrep)
    as [Hrep' He'].
  destruct (shr (shr_record_of_loc mx lx) ex k) as [mrs' e']. simpl in Hrep', He'. subst e'.
  rewrite (round_nearest_even_represents n (h * 2 ^ k) mrs' ltac:(lia) Hrep').
  pose proof (rne_div_bounds n (h * 2 ^ k) ltac:(lia)) as Hrho.
  set (rho := rne_div n (h * 2 ^ k)) in *.
  unfold normal53.
  destruct (Z.ltb_spec rho (2 ^ 53)) as [Hlt|Hge].
  - assert (Zdigits2 rho = 53) as Hd by (apply Zdigits2_unique; [lia|]; simpl; lia).
    rewrite Hd, fexp_normal by lia.
    replace (53 + (ex + k) - 53 - (ex + k)) with 0 by lia. simpl.
    destruct rho as [|p|p]; try lia. simpl.
    destruct (Z.leb_spec (ex + k) (1024 - 53)); [reflexivity|lia].
  - assert (rho = 2 ^ 53) as -> by lia.
    change (Zdigits2 (2 ^ 53)) with 54.
    rewrite fexp_normal by lia.
    replace (54 + (ex + k) - 53 - (ex + k)) with 1 by lia. simpl.
    destruct (Z.leb_spec (ex + k + 1) (1024 - 53)); [reflexivity|lia].
Qed.
End RoundAux.

Section Operations.

Lemma Pos_iter_xO q k : Zpos (Pos.iter xO q k) = Zpos q * 2 ^ Zpos k.
Proof.
  apply (Pos.iter_ind _ xO q (fun k a => Zpos a = Zpos q * 2 ^ Zpos k)).
  - rewrite (Pos2Z.inj_xO q). change (2 ^ 1) with 2. ring.
  - intros p a Ha. rewrite (Pos2Z.inj_xO a), Ha, Pos2Z.inj_succ.
    rewrite Z.pow_succ_r by lia. ring.
Qed.

(** An integer below [2^53] is a [Number], exactly: its significand is the
    integer shifted left to 53 digits. *)
Lemma of_Z_normal p :
  1 <= p < 2 ^ 53 ->
  exists g, 0 <= g <= 52
    /\ 2 ^ 52 <= p * 2 ^ g < 2 ^ 53
    /\ Number.of_Z p = S754_finite false (Z.to_pos (p * 2 ^ g)) (- g).
Proof.
  intros [Hlo Hhi]. destruct p as [|q|q]; try lia.
  pose proof (digits2_pos_bounds q) as [Dlo Dhi].
  remember (Zpos (digits2_pos q)) as d eqn:Hdq.
  assert (1 <= d <= 53) as Hd.
  { split; [subst d; lia|].
    destruct (Z.le_gt_cases d 53) as [|Hgt]; [assumption|].
    assert (2 ^ 53 <= 2 ^ (d - 1)) by (apply Z.pow_le_mono_r; lia). lia. }
  exists (53 - d).
  assert (0 < 2 ^ (53 - d)) as Hpg by (apply pow2_pos; lia).
  assert (2 ^ 52 <= Zpos q * 2 ^ (53 - d) < 2 ^ 53) as Hb.
  { assert (2 ^ 52 = 2 ^ (d - 1) * 2 ^ (53 - d)) as ->
      by (rewrite <- Z.pow_add_r by lia; f_equal; lia).
    assert (2 ^ 53 = 2 ^ d * 2 ^ (53 - d)) as ->
      by (rewrite <- Z.pow_add_r by lia; f_equal; lia).
    split; [apply Z.mul_le_mono_nonneg_r; lia|apply Z.mul_lt_mono_pos_r; lia]. }
  split; [lia|]. split; [exact Hb|].
  unfold Number.of_Z, binary_normalize, binary_round, Number.prec, Number.emax.
  rewrite <- Hdq. rewrite fexp_normal by lia. unfold shl_align.
  replace (d + 0 - 53 - 0) with (- (53 - d)) by lia.
  destruct (53 - d) as [|k|k] eqn:Hk; try lia.
  - change (- 0) with 0. cbv beta iota zeta.
    destruct (binary_round_aux_normal (Zpos q) 1 (Zpos q) 0 loc_Exact 0) as [-> _];
      try lia.
    + apply exact_represents.
    + simpl. rewrite <- Hdq. lia.
    + change (1 * 2 ^ 0) with 1. replace (Zpos q) with (Zpos q * 1) at 1 by lia.
      rewrite rne_div_exact by lia. unfold normal53.
      change (2 ^ 0) with 1 in *. rewrite Z.mul_1_r in *.
      destruct (Z.ltb_spec (Zpos q) (2 ^ 53)); [|lia].
      f_equal; lia.
  - change (- Zpos k) with (Zneg k). cbv beta iota zeta.
    assert (Zpos (Pos.iter xO q k) = Zpos q * 2 ^ Zpos k) as Hm by apply Pos_iter_xO.
    destruct (binary_round_aux_normal (Zpos (Pos.iter xO q k)) 1
                (Zpos (Pos.iter xO q k)) (d + 0 - 53) loc_Exact 0) as [-> _];
      try lia.
    + apply exact_represents.
    + apply Zdigits2_unique; [lia|]. rewrite Hm. simpl. lia.
    + change (1 * 2 ^ 0) with 1.
      replace (Zpos (Pos.iter xO q k)) with (Zpos (Pos.iter xO q k) * 1) at 1 by lia.
      rewrite rne_div_exact by lia. unfold normal53. rewrite Hm.
      destruct (Z.ltb_spec (Zpos q * 2 ^ Zpos k) (2 ^ 53)); [|lia].
      f_equal; lia.
Qed.

Lemma SFdiv_core_normal m1 e1 m2 e2 :
  Zdigits2 m1 = 53 -> Zdigits2 m2 = 53 ->
  -1000 <= e1 - e2 ->
  SFdiv_core_binary 53 1024 m1 e1 m2 e2
  = (m1 * 2 ^ 53 / m2, e1 - e2 - 53, new_location m2 ((m1 * 2 ^ 53) mod m2)).
Proof.
  intros H1 H2 He. unfold SFdiv_core_binary. rewrite H1, H2.
  replace (53 + e1 - (53 + e2)) with (e1 - e2) by lia.
  rewrite fexp_normal by lia.
  rewrite Z.min_l by lia.
  replace (e1 - e2 - (e1 - e2 - 53)) with 53 by lia. cbv iota.
  rewrite Z.shiftl_mul_pow2 by lia.
  unfold Z.div, Z.modulo.
  destruct (Z.div_eucl (m1 * 2 ^ 53) m2) as [q r]. reflexivity.
Qed.
End Operations.

Section Quotient.

Lemma div_bounds_mul n h a b :
  0 < h -> a <= n / h < b -> a * h <= n < b * h.
Proof.
  intros Hh [Ha Hb].
  pose proof (Z.div_mod n h ltac:(lia)) as E.
  pose proof (Z.mod_pos_bound n h Hh) as B. nia.
Qed.

(** [(i + 1) / totalChats]: the quotient of two integers below [2^53] is
    their exact quotient, correctly rounded. *)
Lemma div_rounds p t :
  1 <= p -> p <= t -> t < 2 ^ 53 ->
  rounds_to p t (Number.div (Number.of_Z p) (Number.of_Z t)).
Proof.
  intros Hp Hpt Ht.
  destruct (of_Z_normal p ltac:(lia)) as (g1 & Hg1 & Hm1 & ->).
  destruct (of_Z_normal t ltac:(lia)) as (g2 & Hg2 & Hm2 & ->).
  assert (0 < 2 ^ g1) as Hpg1 by (apply pow2_pos; lia).
  assert (0 < 2 ^ g2) as Hpg2 by (apply pow2_pos; lia).
  set (m1 := p * 2 ^ g1) in *. set (m2 := t * 2 ^ g2) in *.
  assert (g2 <= g1) as Hg.
  { destruct (Z.le_gt_cases g2 g1) as [|Hgt]; [assumption|].
    assert (2 ^ (g1 + 1) <= 2 ^ g2) by (apply Z.pow_le_mono_r; lia).
    rewrite pow2_succ in * by lia. subst m1 m2. nia. }
  unfold Number.div, SFdiv, Number.prec, Number.emax.
  rewrite !Z2Pos.id by lia.
  rewrite SFdiv_core_normal; [|apply Zdigits2_unique; simpl; lia..|lia].
  simpl xorb.
  assert (2 ^ 52 * m2 <= m1 * 2 ^ 53 < 2 ^ 54 * m2) as Hq.
  { change (2 ^ 54) with (2 * 2 ^ 53). nia. }
  set (n := m1 * 2 ^ 53) in *.
  assert (2 ^ 52 <= n / m2 < 2 ^ 54) as Hqb.
  { split; [apply Z.div_le_lower_bound; lia|apply Z.div_lt_upper_bound; lia]. }
  set (k := if n / m2 <? 2 ^ 53 then 0 else 1).
  assert (0 <= k <= 1) as Hk by (subst k; destruct (_ <? _); lia).
  assert (Zdigits2 (n / m2) = 53 + k) as Hdig.
  { subst k. destruct (Z.ltb_spec (n / m2) (2 ^ 53)).
    - apply Zdigits2_unique; simpl; lia.
    - apply Zdigits2_unique; simpl; lia. }
  destruct (binary_round_aux_normal n m2 (n / m2) (- g1 - - g2 - 53)
              (new_location m2 (n mod m2)) k) as [-> Hsand]; try lia.
  { apply new_location_represents; lia. }
  assert (0 < 2 ^ k) as Hpk by (apply pow2_pos; lia).
  assert (0 < 2 ^ (g2 + k)) as Hpc by (apply pow2_pos; lia).
  apply div_bounds_mul in Hsand; [|lia].
  exists (g1 - g2 + 53 - k).
  assert (n = p * 2 ^ (g1 - g2 + 53 - k) * 2 ^ (g2 + k)) as Hn.
  { subst n m1. rewrite <- !Z.mul_assoc, <- !Z.pow_add_r by lia.
    f_equal. f_equal. lia. }
  assert (m2 * 2 ^ k = t * 2 ^ (g2 + k)) as Hh.
  { subst m2. rewrite <- Z.mul_assoc, <- Z.pow_add_r by lia. reflexivity. }
  split; [lia|]. split.
  - rewrite Hn, Hh in Hsand. nia.
  - rewrite Hn, Hh. rewrite rne_div_scale by lia. f_equal. lia.
Qed.
End Quotient.

Section Product.

(** A correctly rounded value has a significand of 53 digits. *)
Lemma normal53_shape rho g :
  2 ^ 52 <= rho <= 2 ^ 53 ->
  exists m g', 2 ^ 52 <= m < 2 ^ 53 /\ g - 1 <= g' <= g
    /\ normal53 rho (- g) = S754_finite false (Z.to_pos m) (- g').
Proof.
  intros Hrho. unfold normal53. destruct (Z.ltb_spec rho (2 ^ 53)).
  - exists rho, g. repeat split; lia.
  - exists (2 ^ 52), (g - 1). repeat split; try lia. f_equal. lia.
Qed.

Lemma rounds_to_significand n d g :
  0 < d -> 2 ^ 52 * d <= n * 2 ^ g < 2 ^ 53 * d ->
  2 ^ 52 <= rne_div (n * 2 ^ g) d <= 2 ^ 53.
Proof.
  intros Hd Hs. pose proof (rne_div_bounds (n * 2 ^ g) d Hd).
  assert (2 ^ 52 <= n * 2 ^ g / d < 2 ^ 53).
  { split; [apply Z.div_le_lower_bound; lia|apply Z.div_lt_upper_bound; lia]. }
  lia.
Qed.

(** [x * 100]: the product of a [Number] below one hundredth of the
    overflow threshold and 100 is the exact product, correctly rounded. *)
Lemma mul_100_rounds m g :
  2 ^ 52 <= m < 2 ^ 53 -> 10 <= g <= 900 ->
  rounds_to (m * 100) (2 ^ g)
    (Number.mul (S754_finite false (Z.to_pos m) (- g)) (Number.of_Z 100)).
Proof.
  intros Hm Hg.
  change (Number.of_Z 100) with (S754_finite false 7036874417766400 (-46)).
  unfold Number.mul, SFmul, Number.prec, Number.emax. simpl xorb.
  rewrite Pos2Z.inj_mul, Z2Pos.id by lia.
  set (n := m * 7036874417766400).
  assert (n = m * 100 * 2 ^ 46) as Hn by (subst n; change (2 ^ 46) with 70368744177664; lia).
  assert (2 ^ 104 <= n < 2 ^ 106) as Hnb.
  { change (2 ^ 104) with (2 ^ 52 * 2 ^ 52). change (2 ^ 106) with (2 ^ 53 * 2 ^ 53).
    change (2 ^ 46) with 70368744177664 in Hn. nia. }
  set (k := if n <? 2 ^ 105 then 52 else 53).
  assert (52 <= k <= 53) as Hk by (subst k; destruct (_ <? _); lia).
  assert (Zdigits2 n = 53 + k) as Hdig.
  { subst k. destruct (Z.ltb_spec n (2 ^ 105)).
    - apply Zdigits2_unique; simpl; lia.
    - apply Zdigits2_unique; simpl; lia. }
  destruct (binary_round_aux_normal n 1 n (- g + -46) loc_Exact k) as [-> Hsand]; try lia.
  { apply exact_represents. }
  assert (0 < 2 ^ k) as Hpk by (apply pow2_pos; lia).
  assert (0 < 2 ^ g) as Hpg by (apply pow2_pos; lia).
  assert (0 < 2 ^ (g + 46 - k)) as HpG by (apply pow2_pos; lia).
  apply div_bounds_mul in Hsand; [|lia].
  rewrite Z.mul_1_l in *.
  assert (n * 2 ^ g = m * 100 * 2 ^ (g + 46 - k) * 2 ^ k) as Hcross.
  { rewrite Hn. rewrite <- !Z.mul_assoc, <- !Z.pow_add_r by lia.
    f_equal. f_equal. f_equal. lia. }
  exists (g + 46 - k). split; [lia|]. split.
  - nia.
  - rewrite <- (rne_div_scale n (2 ^ k) (2 ^ g)) by lia.
    rewrite <- (rne_div_scale (m * 100 * 2 ^ (g + 46 - k)) (2 ^ g) (2 ^ k)) by lia.
    rewrite Hcross, (Z.mul_comm (2 ^ k) (2 ^ g)). f_equal. lia.
Qed.
End Product.

Section Order.

Lemma float_le_normal m g m' g' :
  0 < m -> 0 < m' -> 0 < g -> 0 < g' ->
  m * 2 ^ g' <= m' * 2 ^ g ->
  float_le (S754_finite false (Z.to_pos m) (- g)) (S754_finite false (Z.to_pos m') (- g')).
Proof.
  intros Hm Hm' Hg Hg' Hle.
  destruct g as [|pg|pg]; try lia. destruct g' as [|pg'|pg']; try lia.
  simpl. rewrite !Z2Pos.id by lia. exact Hle.
Qed.

(** Correct rounding is monotone: the rounded values of two positive
    rationals are ordered as the rationals are. *)
Lemma rounds_to_mono n d n' d' x x' :
  0 < d -> 0 < d' -> 0 < n ->
  n * d' <= n' * d ->
  rounds_to n d x -> rounds_to n' d' x' ->
  float_le x x'.
Proof.
  intros Hd Hd' Hn Hle (g & Hg & Hs & ->) (g' & Hg' & Hs' & ->).
  assert (0 < 2 ^ g) as Hpg by (apply pow2_pos; lia).
  assert (0 < 2 ^ g') as Hpg' by (apply pow2_pos; lia).
  pose proof (rounds_to_significand n d g Hd Hs) as Hr.
  pose proof (rounds_to_significand n' d' g' Hd' Hs') as Hr'.
  assert (g' <= g) as Hgg.
  { destruct (Z.le_gt_cases g' g) as [|Hgt]; [assumption|].
    assert (2 ^ (g + 1) <= 2 ^ g') by (apply Z.pow_le_mono_r; lia).
    rewrite pow2_succ in * by lia.
    assert (2 * (n' * 2 ^ g) <= n' * 2 ^ g') by nia.
    assert (2 * (n * d' * 2 ^ g) <= 2 * (n' * d * 2 ^ g)) by nia.
    assert (2 ^ 52 * d * d' <= n * 2 ^ g * d') by nia.
    assert (n' * 2 ^ g' * d < 2 ^ 53 * d' * d) by nia.
    change (2 ^ 53) with (2 * 2 ^ 52) in *. nia. }
  set (rho := rne_div (n * 2 ^ g) d) in *.
  set (rho' := rne_div (n' * 2 ^ g') d') in *.
  assert (2 ^ g = 2 * 2 ^ (g - 1)) as Eg
    by (rewrite <- pow2_succ by lia; f_equal; lia).
  assert (2 ^ g' = 2 * 2 ^ (g' - 1)) as Eg'
    by (rewrite <- pow2_succ by lia; f_equal; lia).
  assert (0 < 2 ^ (g - 1)) as Hpg1 by (apply pow2_pos; lia).
  assert (0 < 2 ^ (g' - 1)) as Hpg1' by (apply pow2_pos; lia).
  assert (g = g' -> rho <= rho') as Hsame.
  { intros <-. apply rne_div_mono; try lia. nia. }
  assert (g' < g -> 2 * 2 ^ g' <= 2 ^ g) as Hdiff.
  { intros Hlt. rewrite <- pow2_succ by lia. apply Z.pow_le_mono_r; lia. }
  unfold normal53.
  replace (- g + 1) with (- (g - 1)) by lia.
  replace (- g' + 1) with (- (g' - 1)) by lia.
  change (2 ^ 53) with (2 * 2 ^ 52) in *.
  destruct (Z.ltb_spec rho (2 * 2 ^ 52)); destruct (Z.ltb_spec rho' (2 * 2 ^ 52));
    apply float_le_normal; try lia.
  - destruct (Z.eq_dec g g') as [<-|Hne]; [specialize (Hsame eq_refl); nia|].
    specialize (Hdiff ltac:(lia)). nia.
  - destruct (Z.eq_dec g g') as [<-|Hne]; [nia|].
    specialize (Hdiff ltac:(lia)). nia.
  - destruct (Z.eq_dec g g') as [<-|Hne]; [specialize (Hsame eq_refl); lia|].
    specialize (Hdiff ltac:(lia)). nia.
  - destruct (Z.eq_dec g g') as [<-|Hne]; [nia|].
    specialize (Hdiff ltac:(lia)). nia.
Qed.

(** [Math.round] is monotone. *)
Lemma Math_round_mono x y :
  float_le x y -> Number.Math_round x <= Number.Math_round y.
Proof.
  destruct x as [| | |[] m [|g|g]]; try contradiction.
  destruct y as [| | |[] m' [|g'|g']]; try contradiction.
  unfold float_le, Number.Math_round. intros Hle.
  assert (0 < 2 ^ Zpos g) by (apply pow2_pos; lia).
  assert (0 < 2 ^ Zpos g') by (apply pow2_pos; lia).
  rewrite !pow2_succ by lia.
  rewrite <- (Z.div_mul_cancel_r (2 * Zpos m + 2 ^ Zpos g) (2 * 2 ^ Zpos g) (2 * 2 ^ Zpos g'))
    by lia.
  rewrite <- (Z.div_mul_cancel_r (2 * Zpos m' + 2 ^ Zpos g') (2 * 2 ^ Zpos g') (2 * 2 ^ Zpos g))
    by lia.
  rewrite (Z.mul_comm (2 * 2 ^ Zpos g') (2 * 2 ^ Zpos g)).
  apply Z.div_le_mono; nia.
Qed.
End Order.

Section Progress.

Lemma float_le_normal_inv m g m' g' :
  0 < m -> 0 < m' -> 0 < g -> 0 < g' ->
  float_le (S754_finite false (Z.to_pos m) (- g)) (S754_finite false (Z.to_pos m') (- g')) ->
  m * 2 ^ g' <= m' * 2 ^ g.
Proof.
  intros Hm Hm' Hg Hg'.
  destruct g as [|pg|pg]; try lia. destruct g' as [|pg'|pg']; try lia.
  simpl. rewrite !Z2Pos.id by lia. trivial.
Qed.

(** The quotient [(i + 1) / totalChats] of the pass: a [Number] with a
    significand of 53 digits and an exponent between -106 and -51. *)
Lemma quotient_shape p t :
  1 <= p -> p <= t -> t < 2 ^ 53 ->
  exists m g, 2 ^ 52 <= m < 2 ^ 53 /\ 51 <= g <= 106
    /\ Number.div (Number.of_Z p) (Number.of_Z t) = S754_finite false (Z.to_pos m) (- g).
Proof.
  intros Hp Hpt Ht.
  destruct (div_rounds p t Hp Hpt Ht) as (g & Hg & Hs & Hx).
  pose proof (rounds_to_significand p t g ltac:(lia) Hs) as Hr.
  assert (0 < 2 ^ g) as Hpg by (apply pow2_pos; lia).
  assert (52 <= g) as Hlo.
  { apply (Z.pow_le_mono_r_iff 2); [lia|lia|]. nia. }
  assert (g < 106) as Hhi.
  { apply (Z.pow_lt_mono_r_iff 2); [lia|lia|].
    change (2 ^ 106) with (2 ^ 53 * 2 ^ 53). nia. }
  destruct (normal53_shape _ g Hr) as (m & g' & Hm & Hg' & Hn).
  exists m, g'. split; [exact Hm|]. split; [lia|]. by rewrite Hx.
Qed.

(** The percentage never decreases as the pass advances. *)
Lemma progress_of_mono i j n :
  0 <= i -> i <= j -> j < n -> n < 2 ^ 53 ->
  progress_of i n <= progress_of j n.
Proof.
  intros Hi Hij Hjn Hn. unfold progress_of.
  pose proof (div_rounds (i + 1) n ltac:(lia) ltac:(lia) Hn) as Ri.
  pose proof (div_rounds (j + 1) n ltac:(lia) ltac:(lia) Hn) as Rj.
  assert (float_le (Number.div (Number.of_Z (i + 1)) (Number.of_Z n))
            (Number.div (Number.of_Z (j + 1)) (Number.of_Z n))) as Hq.
  { apply (rounds_to_mono (i + 1) n (j + 1) n); try lia; [nia|assumption..]. }
  destruct (quotient_shape (i + 1) n ltac:(lia) ltac:(lia) Hn) as (mi & gi & Hmi & Hgi & Ei).
  destruct (quotient_shape (j + 1) n ltac:(lia) ltac:(lia) Hn) as (mj & gj & Hmj & Hgj & Ej).
  rewrite Ei, Ej in *.
  apply float_le_normal_inv in Hq; try lia.
  apply Math_round_mono.
  assert (0 < 2 ^ gi) by (apply pow2_pos; lia).
  assert (0 < 2 ^ gj) by (apply pow2_pos; lia).
  apply (rounds_to_mono (mi * 100) (2 ^ gi) (mj * 100) (2 ^ gj)); try lia.
  - apply mul_100_rounds; lia.
  - apply mul_100_rounds; lia.
Qed.

(** After the last conversation the percentage is exactly 100. *)
Lemma progress_of_last n :
  1 <= n < 2 ^ 53 -> progress_of (n - 1) n = 100.
Proof.
  intros Hn. unfold progress_of. replace (n - 1 + 1) with n by lia.
  destruct (div_rounds n n ltac:(lia) ltac:(lia) ltac:(lia)) as (g & Hg & Hs & ->).
  assert (g = 52) as ->.
  { assert (2 ^ 52 <= 2 ^ g < 2 ^ 53) as [H1 H2] by nia.
    apply Z.pow_le_mono_r_iff in H1; [|lia..].
    apply Z.pow_lt_mono_r_iff in H2; [|lia..]. lia. }
  rewrite (Z.mul_comm n (2 ^ 52)), rne_div_exact by lia.
  reflexivity.
Qed.

Lemma progress_of_nonneg i n :
  0 <= i -> i < n -> n < 2 ^ 53 -> 0 <= progress_of i n.
Proof.
  intros Hi Hin Hn. unfold progress_of.
  destruct (quotient_shape (i + 1) n ltac:(lia) ltac:(lia) Hn) as (m & g & Hm & Hg & ->).
  destruct (mul_100_rounds m g Hm ltac:(lia)) as (g' & Hg' & Hs & ->).
  assert (0 < 2 ^ g) by (apply pow2_pos; lia).
  pose proof (rounds_to_significand (m * 100) (2 ^ g) g' ltac:(lia) Hs) as Hr.
  destruct (normal53_shape _ g' Hr) as (m' & g'' & Hm' & Hg'' & ->).
  destruct g'' as [|q|q]; try lia. simpl.
  apply Z.div_pos; [|apply pow2_pos; lia].
  assert (0 < 2 ^ Zpos q) by (apply pow2_pos; lia). lia.
Qed.
End Progress.

Local Open Scope string_scope.

(** ** The progress of a synchronisation pass *)

Section SyncProgress.
Import SessionManager.

Lemma sync_chats_effect sid uid n chats i w :
  io w = true ->
  fst (sync_chats sid uid n i chats w) = Ok tt
  /\ emitted (snd (sync_chats sid uid n i chats w))
     = (emitted w
        ++ ((fun k => progress_emission sid uid (progress_of (i + Z.of_nat k) n))
              <$> seq 0 (length chats)))%list
  /\ io (snd (sync_chats sid uid n i chats w)) = true
  /\ exists f, session_of (snd (sync_chats sid uid n i chats w)) sid = f <$> session_of w sid.
Proof.
  revert i w. induction chats as [|chat chats IH]; intros i w Hio.
  - simpl. rewrite app_nil_r. repeat split; try done. exists (fun d => d).
    by destruct (session_of w sid).
  - change (sync_chats sid uid n i (chat :: chats) w)
      with (match sync_chat sid uid n i chat w with
            | (Ok _, w1) => sync_chats sid uid n (i + 1) chats w1
            | (Throw e, w1) => (Throw e, w1)
            end).
    destruct (sync_chat_effect sid uid n i chat w) as (H1 & H2 & H3 & H4).
    destruct (sync_chat sid uid n i chat w) as [r w1]. simpl in H1, H2, H3, H4. subst r.
    rewrite Hio in H3, H4.
    destruct (IH (i + 1) w1 H4) as (I1 & I2 & I3 & (f & I5)).
    split; [done|]. split; [|split; [done|]].
    + rewrite I2, H3. simpl. rewrite <- app_assoc. simpl. f_equal. f_equal.
      * f_equal. f_equal. lia.
      * rewrite <- fmap_S_seq, <- list_fmap_compose. apply list_fmap_ext.
        intros k x _. simpl. f_equal. f_equal. lia.
    + exists (fun d => f (SessionDoc.set_syncProgress (progress_of i n) d)).
      rewrite I5. unfold session_of. rewrite H2.
      rewrite find_update_first_same by done.
      by destruct (List.find _ _).
Qed.

Lemma progress_events_of_emissions sid uid (ps : list Z) (l : list Emission) :
  omap (fun e =>
          match event e, data e with
          | SYNC_PROGRESS, ProgressPayload sid' p =>
              if bool_decide (sid' = sid) then Some p else None
          | _, _ => None
          end) ((progress_emission sid uid <$> ps) ++ l)%list
  = (ps ++ omap (fun e =>
          match event e, data e with
          | SYNC_PROGRESS, ProgressPayload sid' p =>
              if bool_decide (sid' = sid) then Some p else None
          | _, _ => None
          end) l)%list.
Proof.
  induction ps as [|p ps IH]; [done|].
  csimpl. rewrite bool_decide_eq_true_2 by done. csimpl. by rewrite IH.
Qed.

(** A pass over the conversations [chats] of a session with a persisted
    record: the events it publishes and the record it leaves. *)
Lemma startBackgroundSync_effect w sid client uid chats :
  io w = true ->
  is_Some (session_of w sid) ->
  outcome (startBackgroundSync sid client uid (Ok chats)) w = Ok tt
  /\ emitted (exec (startBackgroundSync sid client uid (Ok chats)) w)
     = (emitted w
        ++ (progress_emission sid uid <$> (0 :: progress_sequence (length chats)))
        ++ [status_emission sid uid READY])%list
  /\ exists d', session_of (exec (startBackgroundSync sid client uid (Ok chats)) w) sid = Some d'
       /\ SessionDoc.status d' = READY /\ SessionDoc.syncProgress d' = 100.
Proof.
  intros Hio [d Hd].
  unfold outcome, exec, startBackgroundSync, Session.findOne, Session.findOneAndUpdate,
    SocketManager.emitSyncProgress, SocketManager.emitSessionStatus,
    SocketManager.emitToUser, now.
  munfold. wsimpl. fold (session_of w sid). rewrite Hd, Hio.
  match goal with |- context [sync_chats sid uid ?n 0 chats ?w1] =>
    destruct (sync_chats_effect sid uid n chats 0 w1 eq_refl)
      as (H1 & H2 & H3 & (f & H5));
    destruct (sync_chats sid uid n 0 chats w1) as [r w2] end.
  simpl in H1, H2, H3, H5. subst r. simpl. rewrite H3, H2. simpl.
  split; [done|]. split.
  - rewrite <- !app_assoc. simpl. f_equal. f_equal. unfold progress_sequence.
    rewrite <- list_fmap_compose. f_equal.
  - unfold session_of in *. simpl in *.
    rewrite find_update_first_same by done. rewrite H5.
    rewrite find_update_first_same by done. rewrite Hd. simpl. by eexists.
Qed.
End SyncProgress.

(** ** The synchronisation task is launched by every [ready] *)

Section LaunchClaims.
Import SessionManager.

(** Without a persisted record the task returns at once and changes
    nothing. *)
Lemma startBackgroundSync_no_record w sid client uid getChats :
  session_of w sid = None ->
  startBackgroundSync sid client uid getChats w = (Ok tt, w).
Proof.
  intros Hnone. unfold startBackgroundSync, Session.findOne. munfold. simpl.
  fold (session_of w sid). by rewrite Hnone.
Qed.

(** C2 as stated fails: two [ready] events for the same handle launch the
    synchronisation task twice, and the second launch is not a no-op: each
    of the two passes sets the progress to 0 and publishes it. *)
Lemma ready_twice_launches_twice :
  syncLaunches (run_events "s1" "u1" no_callbacks ready_twice (world_s1 QR_SCAN_PENDING))
    = ["s1"; "s1"]
  /\ progress_events
       (exec (startBackgroundSync "s1" {| clientId := "s1" |} "u1" (Ok []))
          (exec (startBackgroundSync "s1" {| clientId := "s1" |} "u1" (Ok []))
             (run_events "s1" "u1" no_callbacks ready_twice (world_s1 QR_SCAN_PENDING))))
       "s1" = [0; 0].
Proof. vm_compute. done. Qed.

(** C2, amended. Every execution of the [ready] handler launches the
    Synchronisation Task, once per [ready] event: after any sequence of
    events of a handle, the launches added for its session are as many as
    the [ready] events in the sequence. The orchestrator keeps no record of
    a task in flight, so a repeated [ready] launches the task again, and a
    launched task always runs its pass when the session has a persisted
    record (it sets and publishes progress 0 first); it is a no-op only
    when there is no such record. *)
Theorem ready_launches_sync_each_time sid uid cbs evs w :
  quiet_callbacks cbs ->
  syncLaunches (run_events sid uid cbs evs w)
  = (syncLaunches w ++ repeat sid (length (List.filter is_ready evs)))%list
  /\ (forall w1 client chats,
        io w1 = true -> is_Some (session_of w1 sid) ->
        exists rest,
          emitted (exec (startBackgroundSync sid client uid (Ok chats)) w1)
          = (emitted w1 ++ progress_emission sid uid 0 :: rest)%list)
  /\ (forall w1 client getChats,
        session_of w1 sid = None ->
        exec (startBackgroundSync sid client uid getChats) w1 = w1).
Proof.
  intros Hq. split; [|split].
  - revert w. induction evs as [|ev evs IH]; intros w.
    + simpl. by rewrite app_nil_r.
    + rewrite run_events_cons, IH. unfold exec.
      destruct (dispatch_frame sid uid cbs ev w Hq) as (_ & _ & -> & _).
      simpl. destruct (is_ready ev); simpl.
      * by rewrite <- app_assoc.
      * by rewrite app_nil_r.
  - intros w1 client chats Hio Hs.
    destruct (startBackgroundSync_effect w1 sid client uid chats Hio Hs) as (_ & -> & _).
    eexists. rewrite fmap_cons. simpl. reflexivity.
  - intros w1 client getChats Hnone. unfold exec.
    by rewrite startBackgroundSync_no_record.
Qed.

Lemma ready_launches_witness :
  quiet_callbacks (WhatsAppController.callbacks "s1" "u1" (fun qr => qr))
  /\ syncLaunches
       (run_events "s1" "u1" (WhatsAppController.callbacks "s1" "u1" (fun qr => qr))
          [EvQr "ABC"; EvReady "15550001"; EvReady "15550001"; EvDisconnected "NAVIGATION"]
          (world_s1 INITIALIZING))
     = ["s1"; "s1"].
Proof.
  split; [apply controller_callbacks_quiet|].
  destruct (ready_launches_sync_each_time "s1" "u1"
              (WhatsAppController.callbacks "s1" "u1" (fun qr => qr))
              [EvQr "ABC"; EvReady "15550001"; EvReady "15550001"; EvDisconnected "NAVIGATION"]
              (world_s1 INITIALIZING)
              (controller_callbacks_quiet "s1" "u1" (fun qr => qr))) as [-> _].
  reflexivity.
Defined.
End LaunchClaims.

Section SyncProgressClaims.
Import SessionManager.

Lemma progress_sequence_lookup n k :
  (k < n)%nat ->
  progress_sequence n !! k = Some (progress_of (Z.of_nat k) (Z.of_nat n)).
Proof.
  intros Hk. unfold progress_sequence.
  rewrite list_lookup_fmap, lookup_seq_lt by done. done.
Qed.

Lemma progress_sequence_length n : length (progress_sequence n) = n.
Proof. unfold progress_sequence. by rewrite length_fmap, length_seq. Qed.

(** The published percentages, the initial 0 included, never decrease. *)
Lemma progress_sequence_sorted n a b pa pb :
  (Z.of_nat n < 2 ^ 53)%Z ->
  (a <= b)%nat ->
  (0 :: progress_sequence n) !! a = Some pa ->
  (0 :: progress_sequence n) !! b = Some pb ->
  (pa <= pb)%Z.
Proof.
  intros Hn Hab Ha Hb.
  assert (forall k p, (0 :: progress_sequence n) !! S k = Some p ->
            (k < n)%nat /\ p = progress_of (Z.of_nat k) (Z.of_nat n)) as Hk.
  { intros k p Hp. simpl in Hp.
    assert (k < n)%nat as Hlt.
    { apply lookup_lt_Some in Hp. by rewrite progress_sequence_length in Hp. }
    rewrite progress_sequence_lookup in Hp by done. split; [done|congruence]. }
  destruct a as [|a], b as [|b]; try lia.
  - injection Ha as <-. injection Hb as <-. lia.
  - injection Ha as <-. destruct (Hk b pb Hb) as [Hlt ->].
    apply progress_of_nonneg; lia.
  - destruct (Hk a pa Ha) as [Hlta ->]. destruct (Hk b pb Hb) as [Hltb ->].
    apply progress_of_mono; lia.
Qed.

Lemma progress_sequence_last n :
  (1 <= Z.of_nat n < 2 ^ 53)%Z -> last (progress_sequence n) = Some 100.
Proof.
  intros Hn. destruct n as [|m]; [lia|].
  unfold progress_sequence. rewrite seq_S, fmap_app, list_fmap_singleton, last_snoc.
  simpl. f_equal.
  replace (Z.of_nat m) with (Z.of_nat (S m) - 1)%Z at 1 by lia.
  by apply progress_of_last.
Qed.

(** C4 as stated fails on the value: the percentage is computed in
    double-precision arithmetic as [((i + 1) / totalChats) * 100], and that
    product can fall just short of a tie that the exact quotient reaches.
    After 29 of 200 conversations [100 * 29 / 200] is exactly 14.5, which
    rounds to 15, but the pass computes 14.499999999999998 and publishes 14.
    Nor is a tie always rounded down: after 1 of 8 conversations the exact
    12.5 is published as 13. *)
Lemma progress_differs_from_exact_rounding :
  progress_sequence 200 !! 28%nat = Some 14
  /\ exact_round_percent 29 200 = 15
  /\ (2 * (100 * 29) = 29 * 200)%Z
  /\ progress_sequence 8 !! 0%nat = Some 13
  /\ (2 * (100 * 1) = 25 * 8)%Z.
Proof. vm_compute. done. Qed.

(** C4, amended. Within one pass over a non-empty list of [totalCount]
    conversations, [syncProgress] starts at 0; after each conversation, and
    not after each message, it is set to
    [Math.round(((i + 1) / totalCount) * 100)] as evaluated in
    double-precision arithmetic, persisted and published once; the published
    values never decrease within the pass; the last one is 100 and the
    record holds exactly 100 on successful completion; for three
    conversations the published sequence is 33, 67, 100. *)
Theorem sync_progress_per_conversation w sid client uid chats :
  io w = true ->
  is_Some (session_of w sid) ->
  chats <> [] ->
  (Z.of_nat (length chats) < 2 ^ 53)%Z ->
  progress_events (exec (startBackgroundSync sid client uid (Ok chats)) w) sid
    = (progress_events w sid ++ 0 :: progress_sequence (length chats))%list
  /\ (forall i chat w1, io w1 = true ->
        emitted (exec (sync_chat sid uid (Z.of_nat (length chats)) i chat) w1)
        = (emitted w1
           ++ [progress_emission sid uid (progress_of i (Z.of_nat (length chats)))])%list
        /\ SessionDoc.syncProgress
             <$> session_of (exec (sync_chat sid uid (Z.of_nat (length chats)) i chat) w1) sid
           = (fun _ => progress_of i (Z.of_nat (length chats))) <$> session_of w1 sid)
  /\ (forall a b pa pb, (a <= b)%nat ->
        (0 :: progress_sequence (length chats)) !! a = Some pa ->
        (0 :: progress_sequence (length chats)) !! b = Some pb ->
        (pa <= pb)%Z)
  /\ last (progress_sequence (length chats)) = Some 100
  /\ (exists d',
        session_of (exec (startBackgroundSync sid client uid (Ok chats)) w) sid = Some d'
        /\ SessionDoc.status d' = READY /\ SessionDoc.syncProgress d' = 100)
  /\ progress_sequence 3 = [33; 67; 100].
Proof.
  intros Hio Hsess Hne Hlen.
  destruct (startBackgroundSync_effect w sid client uid chats Hio Hsess) as (_ & He & Hd).
  split; [|split; [|split; [|split; [|split]]]].
  - unfold progress_events. rewrite He, omap_app.
    rewrite (progress_events_of_emissions sid uid). simpl. by rewrite app_nil_r.
  - intros i chat w1 Hio1. unfold exec.
    destruct (sync_chat_effect sid uid (Z.of_nat (length chats)) i chat w1)
      as (_ & H2 & H3 & _).
    rewrite H3, Hio1. split; [done|].
    unfold session_of. rewrite H2, find_update_first_same by done.
    by destruct (List.find _ _).
  - intros a b pa pb. by apply progress_sequence_sorted.
  - apply progress_sequence_last.
    assert (length chats <> 0%nat) by (by destruct chats). lia.
  - exact Hd.
  - vm_compute. done.
Qed.

Lemma sync_progress_witness :
  io (world_s1 READY) = true
  /\ is_Some (session_of (world_s1 READY) "s1")
  /\ three_chats <> []
  /\ (Z.of_nat (length three_chats) < 2 ^ 53)%Z
  /\ progress_events
       (exec (startBackgroundSync "s1" {| clientId := "s1" |} "u1" (Ok three_chats))
          (world_s1 READY)) "s1"
     = [0; 33; 67; 100].
Proof.
  assert (is_Some (session_of (world_s1 READY) "s1")) as Hs by (eexists; reflexivity).
  assert (three_chats <> []) as Hne by discriminate.
  assert (Z.of_nat (length three_chats) < 2 ^ 53)%Z as Hlen by (vm_compute; reflexivity).
  split; [reflexivity|]. split; [exact Hs|]. split; [exact Hne|]. split; [exact Hlen|].
  destruct (sync_progress_per_conversation (world_s1 READY) "s1" {| clientId := "s1" |}
              "u1" three_chats eq_refl Hs Hne Hlen) as (Hp & _ & _ & _ & _ & H3).
  rewrite Hp. simpl length. rewrite H3. reflexivity.
Defined.

(** The three-conversation scenario in full: 10, 0 and 5 recent messages
    give fifteen stored rows, and a live [message] event for one of them
    afterwards adds neither a row nor an event. *)
Lemma three_chats_scenario :
  length (messagesColl
            (exec (startBackgroundSync "s1" {| clientId := "s1" |} "u1" (Ok three_chats))
               (world_s1 READY))) = 15%nat
  /\ length (messagesColl
               (exec (on_message "s1" "u1" (sample_message "a@c.us-3" 1))
                  (exec (startBackgroundSync "s1" {| clientId := "s1" |} "u1" (Ok three_chats))
                     (world_s1 READY)))) = 15%nat
  /\ received_events
       (exec (on_message "s1" "u1" (sample_message "a@c.us-3" 1))
          (exec (startBackgroundSync "s1" {| clientId := "s1" |} "u1" (Ok three_chats))
             (world_s1 READY))) "s1" "a@c.us-3" = 0%nat.
Proof. vm_compute. done. Qed.
End SyncProgressClaims.

(** * Properties of the HTTP and Socket.IO layers and further properties of the orchestrator *)

(** ** Creating sessions below the limit *)

Section CreateOutcomes.
Import SessionManager.

Lemma find_app {A : Type} (p : A -> bool) (l l' : list A) :
  List.find p (l ++ l') = match List.find p l with Some x => Some x | None => List.find p l' end.
Proof. induction l as [|x l IH]; simpl; [done|]. by destruct (p x). Qed.

Lemma existsb_has_sessionId w sid :
  existsb (Session.has_sessionId sid) (sessionsColl w) = bool_decide (is_Some (session_of w sid)).
Proof.
  unfold session_of. destruct (List.find _ _) as [d|] eqn:E.
  - rewrite bool_decide_eq_true_2 by eauto.
    apply find_some in E as [Hin Hd]. apply existsb_exists. eauto.
  - rewrite bool_decide_eq_false_2 by (intros [? ?]; discriminate).
    apply not_true_is_false. intros (x & Hin & Hx)%existsb_exists.
    apply (find_none _ _ E) in Hin. congruence.
Qed.

(** The outcomes of [createSession] below the limit. *)
Lemma createSession_below_limit_cases w uid cbs gen ctor init :
  activeSessionsCount w uid < maxSessionsPerUser (config w) ->
  let m := createSession uid cbs gen ctor init in
  (is_Some (session_of w gen) ->
     outcome m w = Throw {| code := Some 11000; message := "E11000 duplicate key error" |}
     /\ sessionsColl (exec m w) = sessionsColl w
     /\ sessions (exec m w) = sessions w
     /\ pendingInitialize (exec m w) = pendingInitialize w)
  /\ (session_of w gen = None ->
        sessionsColl (exec m w) = (sessionsColl w ++ [session_doc uid gen INITIALIZING])%list
        /\ match ctor with
           | Ok _ =>
               outcome m w = Ok (gen, session_doc uid gen INITIALIZING)
               /\ sessions (exec m w) = <[gen := {| clientId := gen |}]> (sessions w)
               /\ pendingInitialize (exec m w) = (pendingInitialize w ++ [(gen, init)])%list
           | Throw e =>
               outcome m w = Throw e
               /\ sessions (exec m w) = sessions w
               /\ pendingInitialize (exec m w) = pendingInitialize w
           end).
Proof.
  intros Hlt m. subst m.
  unfold outcome, exec, createSession, Session.getActiveSessionsCount,
    Session.create, initializeClient, sessions_set.
  munfold. simpl. fold (activeSessionsCount w uid).
  rewrite bool_decide_eq_false_2 by lia.
  wsimpl. rewrite (existsb_has_sessionId w gen).
  split.
  - intros Hsome. rewrite bool_decide_eq_true_2 by exact Hsome. simpl. done.
  - intros Hnone. rewrite bool_decide_eq_false_2
      by (rewrite Hnone; intros [? ?]; discriminate).
    simpl. destruct ctor as [[]|e]; simpl; done.
Qed.

(** X1. Below the limit [createSession] has three outcomes. When the
    generated identifier is already taken, the duplicate-key error of
    [Session.create] is propagated and nothing is stored or registered.
    Otherwise the record is stored in INITIALIZING; when the client is
    constructed the handle is registered, the initialisation is started
    and the identifier is returned; when the construction throws, the
    error is propagated, no handle is registered, and the record that was
    just stored stays behind in INITIALIZING: nothing rolls it back. *)
Theorem createSession_below_limit_outcomes w uid cbs gen ctor init :
  activeSessionsCount w uid < maxSessionsPerUser (config w) ->
  let m := createSession uid cbs gen ctor init in
  (is_Some (session_of w gen) ->
     outcome m w = Throw {| code := Some 11000; message := "E11000 duplicate key error" |}
     /\ sessionsColl (exec m w) = sessionsColl w
     /\ sessions (exec m w) = sessions w
     /\ pendingInitialize (exec m w) = pendingInitialize w)
  /\ (session_of w gen = None ->
        sessionsColl (exec m w) = (sessionsColl w ++ [session_doc uid gen INITIALIZING])%list
        /\ match ctor with
           | Ok _ =>
               outcome m w = Ok (gen, session_doc uid gen INITIALIZING)
               /\ sessions (exec m w) = <[gen := {| clientId := gen |}]> (sessions w)
               /\ pendingInitialize (exec m w) = (pendingInitialize w ++ [(gen, init)])%list
           | Throw e =>
               outcome m w = Throw e
               /\ sessions (exec m w) = sessions w
               /\ pendingInitialize (exec m w) = pendingInitialize w
           end).
Proof.
  intros Hlt m. subst m.
  destruct (createSession_below_limit_cases w uid cbs gen ctor init Hlt) as [Hdup Hfresh].
  split; [exact Hdup|exact Hfresh].
Qed.

Lemma createSession_below_limit_witness :
  activeSessionsCount (world_s1 INITIALIZING) "u1" < maxSessionsPerUser (config (world_s1 INITIALIZING))
  /\ outcome (createSession "u1" no_callbacks "s2" (Throw boom) (Ok tt)) (world_s1 INITIALIZING)
     = Throw boom
  /\ status_of (exec (createSession "u1" no_callbacks "s2" (Throw boom) (Ok tt))
                  (world_s1 INITIALIZING)) "s2" = Some INITIALIZING
  /\ sessions (exec (createSession "u1" no_callbacks "s2" (Throw boom) (Ok tt))
                 (world_s1 INITIALIZING)) !! "s2" = None.
Proof.
  assert (activeSessionsCount (world_s1 INITIALIZING) "u1"
          < maxSessionsPerUser (config (world_s1 INITIALIZING))) as Hlt
    by (vm_compute; reflexivity).
  split; [exact Hlt|].
  destruct (createSession_below_limit_outcomes (world_s1 INITIALIZING) "u1" no_callbacks
              "s2" (Throw boom) (Ok tt) Hlt) as [_ Hfresh].
  destruct (Hfresh eq_refl) as (Hc & Ho & Hs & _).
  split; [exact Ho|]. split.
  - unfold status_of, session_of. rewrite Hc. reflexivity.
  - rewrite Hs. reflexivity.
Defined.

(** X2. The limit counts READY and SYNCING records only: a user
    below the limit can create any number of sessions one after the other
    (each with its own client handle), all of them are stored in
    INITIALIZING, and the active count the limit is checked against does
    not move. *)
Theorem pending_sessions_are_not_limited uid cbs gens w :
  activeSessionsCount w uid < maxSessionsPerUser (config w) ->
  NoDup gens ->
  (forall g, g ∈ gens -> session_of w g = None) ->
  let w' := create_sessions uid cbs gens w in
  sessionsColl w'
    = (sessionsColl w ++ ((fun g => session_doc uid g INITIALIZING) <$> gens))%list
  /\ activeSessionsCount w' uid = activeSessionsCount w uid
  /\ (forall g, sessions w' !! g
                 = if bool_decide (g ∈ gens) then Some {| clientId := g |}
                   else sessions w !! g)
  /\ config w' = config w.
Proof.
  revert w. induction gens as [|g gens IH]; intros w Hlt Hnd Hfresh; simpl.
  - rewrite app_nil_r. repeat split; try done.
  - apply NoDup_cons in Hnd as [Hg Hnd].
    destruct (createSession_below_limit_cases w uid cbs g (Ok tt) (Ok tt) Hlt)
      as [_ Hcreate].
    destruct (Hcreate (Hfresh g ltac:(left))) as (Hc & Ho & Hs & Hp).
    set (w1 := exec (createSession uid cbs g (Ok tt) (Ok tt)) w) in *.
    assert (config w1 = config w) as Hcfg.
    { subst w1. unfold exec, createSession, Session.getActiveSessionsCount,
        Session.create, initializeClient, sessions_set.
      munfold. simpl.
      destruct (bool_decide _); [done|]. wsimpl.
      destruct (existsb _ _); done. }
    assert (activeSessionsCount w1 uid = activeSessionsCount w uid) as Hact.
    { unfold activeSessionsCount. rewrite Hc, List.filter_app, length_app. simpl.
      unfold Session.is_active_of at 2. simpl.
      rewrite andb_false_r. simpl. lia. }
    destruct (IH w1) as (I1 & I2 & I3 & I4).
    + rewrite Hact, Hcfg. exact Hlt.
    + exact Hnd.
    + intros g' Hg'. unfold session_of. rewrite Hc.
      rewrite find_app. fold (session_of w g').
      rewrite (Hfresh g') by (by right).
      simpl. unfold Session.has_sessionId at 1. simpl.
      rewrite bool_decide_eq_false_2 by (intros ->; done). done.
    + fold (create_sessions uid cbs gens w1).
      split; [|split; [|split]].
      * rewrite I1, Hc, <- app_assoc. done.
      * by rewrite I2.
      * intros g'. rewrite I3, Hs, bool_decide_elem_cons.
        destruct (bool_decide (g' ∈ gens)) eqn:E; [by rewrite orb_true_r|].
        rewrite orb_false_r. destruct (decide (g' = g)) as [->|Hne].
        -- by rewrite bool_decide_eq_true_2, lookup_insert_eq.
        -- by rewrite bool_decide_eq_false_2, lookup_insert_ne.
      * by rewrite I4.
Qed.

Lemma pending_sessions_witness :
  activeSessionsCount world0 "u1" < maxSessionsPerUser (config world0)
  /\ length (sessionsColl
               (create_sessions "u1" no_callbacks ["a"; "b"; "c"; "d"; "e"; "f"] world0))
     = 6%nat
  /\ activeSessionsCount
       (create_sessions "u1" no_callbacks ["a"; "b"; "c"; "d"; "e"; "f"] world0) "u1" = 0.
Proof.
  assert (activeSessionsCount world0 "u1" < maxSessionsPerUser (config world0)) as Hlt
    by (vm_compute; reflexivity).
  assert (NoDup ["a"; "b"; "c"; "d"; "e"; "f"]) as Hnd
    by (apply (bool_decide_eq_true_1 (NoDup ["a"; "b"; "c"; "d"; "e"; "f"]));
        vm_compute; reflexivity).
  split; [exact Hlt|].
  destruct (pending_sessions_are_not_limited "u1" no_callbacks
              ["a"; "b"; "c"; "d"; "e"; "f"] world0 Hlt Hnd (fun g _ => eq_refl))
    as (H1 & H2 & _).
  split.
  - rewrite H1. reflexivity.
  - rewrite H2. reflexivity.
Defined.
End CreateOutcomes.

(** ** Lists updated in place *)

Section ListUpdates.
Context {A : Type}.
Implicit Types (p q : A -> bool) (f : A -> A) (l : list A).

Lemma length_update_first p f l : length (update_first p f l) = length l.
Proof. induction l as [|x l IH]; simpl; [done|]. destruct (p x); simpl; congruence. Qed.

Lemma update_first_no_match p f l : List.find p l = None -> update_first p f l = l.
Proof.
  induction l as [|x l IH]; simpl; [done|]. destruct (p x); [done|].
  intros H. by rewrite IH.
Qed.

Lemma existsb_is_Some_find p l : existsb p l = bool_decide (is_Some (List.find p l)).
Proof.
  induction l as [|x l IH]; simpl; [done|]. by destruct (p x).
Qed.

Lemma filter_update_first_length p q f l :
  (forall x, p x = true -> q (f x) = q x) ->
  length (List.filter q (update_first p f l)) = length (List.filter q l).
Proof.
  intros H. induction l as [|x l IH]; simpl; [done|].
  destruct (p x) eqn:E; simpl.
  - rewrite (H x E). by destruct (q x).
  - destruct (q x); simpl; congruence.
Qed.

Lemma find_app_Some p l l' x : List.find p l = Some x -> List.find p (l ++ l') = Some x.
Proof. intros H. by rewrite find_app, H. Qed.
End ListUpdates.

(** ** The live handler and the conversation record *)

Section LiveChat.
Import SessionManager.

(** X3. The live [message] handler always returns, never creates a
    conversation record and touches the record of the sender's
    conversation only for a message it stored: a message whose key is
    already stored changes neither the conversations nor the messages and
    publishes nothing, so a redelivery does not count as unread twice; a
    new message adds one to [unreadCount] unless it is the user's own and
    sets [lastMessage] and [lastMessageTime]; without a record for the
    conversation the collection is left as it is. *)
Theorem live_message_updates_stored_conversation sid uid msg w :
  let w' := exec (on_message sid uid msg) w in
  outcome (on_message sid uid msg) w = Ok tt
  /\ length (chatsColl w') = length (chatsColl w)
  /\ (is_Some (message_of w sid (wa_id_serialized msg)) ->
        chatsColl w' = chatsColl w /\ messagesColl w' = messagesColl w
        /\ emitted w' = emitted w)
  /\ (message_of w sid (wa_id_serialized msg) = None ->
        (chat_of w sid (wa_from msg) = None -> chatsColl w' = chatsColl w)
        /\ (forall c, chat_of w sid (wa_from msg) = Some c ->
              exists c', chat_of w' sid (wa_from msg) = Some c'
                /\ ChatDoc.unreadCount c'
                   = ChatDoc.unreadCount c + (if wa_fromMe msg then 0 else 1)
                /\ ChatDoc.lastMessage c' = Some (or_string (wa_body msg) "")
                /\ ChatDoc.lastMessageTime c' = Some (wa_timestamp msg * 1000)
                /\ ChatDoc.name c' = ChatDoc.name c
                /\ ChatDoc.participants c' = ChatDoc.participants c)).
Proof.
  unfold message_of, chat_of.
  unfold outcome, exec, on_message, Message.collection_insertOne, Message.findById,
    SocketManager.emitMessage, SocketManager.emitToUser, Chat.findOneAndUpdate, now.
  munfold. wsimpl.
  rewrite existsb_is_Some_find.
  destruct (List.find (Message.has_key _ _) _) as [stored|] eqn:Hstored.
  - rewrite bool_decide_eq_true_2 by eauto. simpl.
    repeat split; done.
  - rewrite bool_decide_eq_false_2 by (intros [? ?]; discriminate). simpl.
    assert (forall (P : Prop), (is_Some (@None MessageDoc.t) -> P)) as Hnone
      by (intros P [? ?]; discriminate).
    destruct (List.find (fun d => bool_decide (MessageDoc._id d = nextObjectId w)) _); simpl;
      [destruct (io w) eqn:Hio; simpl; rewrite ?Hio; simpl|];
      (split; [done|]; split; [apply length_update_first|];
       split; [apply Hnone|]; intros _; split;
       [intros Hn; by apply update_first_no_match
       |intros c Hc; rewrite find_update_first_same by done; rewrite Hc; simpl;
        eexists; split; [reflexivity|done]]).
Qed.
End LiveChat.

(** ** What a synchronisation pass stores *)

Section SyncStore.
Import SessionManager.

Lemma save_message_store sid cid msg c w :
  chatsColl (snd (save_message sid cid msg c w)) = chatsColl w
  /\ clock (snd (save_message sid cid msg c w)) = clock w
  /\ exists added,
       messagesColl (snd (save_message sid cid msg c w)) = (messagesColl w ++ added)%list
       /\ Forall (fun d => MessageDoc.sessionId d = sid) added
       /\ fst (save_message sid cid msg c w) = Ok (c + Z.of_nat (length added)).
Proof.
  unfold save_message, Message.collection_insertOne, now. munfold. wsimpl.
  destruct (existsb _ _); simpl.
  - split; [done|]. split; [done|]. exists []. rewrite app_nil_r.
    split; [done|]. split; [done|]. simpl. f_equal. lia.
  - split; [done|]. split; [done|]. eexists [_].
    split; [done|]. split; [by repeat constructor|done].
Qed.

Lemma save_messages_store sid cid msgs c w :
  chatsColl (snd (save_messages sid cid msgs c w)) = chatsColl w
  /\ clock (snd (save_messages sid cid msgs c w)) = clock w
  /\ exists added,
       messagesColl (snd (save_messages sid cid msgs c w)) = (messagesColl w ++ added)%list
       /\ Forall (fun d => MessageDoc.sessionId d = sid) added
       /\ fst (save_messages sid cid msgs c w) = Ok (c + Z.of_nat (length added)).
Proof.
  revert c w. induction msgs as [|msg msgs IH]; intros c w.
  - simpl. split; [done|]. split; [done|]. exists []. rewrite app_nil_r.
    split; [done|]. split; [done|]. unfold mret, M_ret. simpl. f_equal. lia.
  - change (save_messages sid cid (msg :: msgs) c w)
      with (match save_message sid cid msg c w with
            | (Ok saved, w1) => save_messages sid cid msgs saved w1
            | (Throw e, w1) => (Throw e, w1)
            end).
    destruct (save_message_store sid cid msg c w) as (H1 & H2 & (a1 & H3 & H4 & H5)).
    destruct (save_message sid cid msg c w) as [r w1]. simpl in *. subst r.
    destruct (IH (c + Z.of_nat (length a1)) w1) as (I1 & I2 & (a2 & I3 & I4 & I5)).
    rewrite I1, I2, H1, H2. split; [done|]. split; [done|].
    exists (a1 ++ a2)%list. rewrite I3, H3, <- app_assoc. split; [done|]. split.
    + by apply Forall_app.
    + rewrite I5, length_app. f_equal. lia.
Qed.

(** One conversation of the pass: the conversation record is upserted
    when the messages could be fetched, and messages are only appended. *)
Lemma sync_chat_store sid uid n i chat w :
  clock (snd (sync_chat sid uid n i chat w)) = clock w
  /\ chatsColl (snd (sync_chat sid uid n i chat w))
     = match wc_fetchMessages chat with
       | Ok msgs => chatsColl (exec (Chat.upsert (chat_update sid chat msgs (clock w))) w)
       | Throw _ => chatsColl w
       end
  /\ exists added,
       messagesColl (snd (sync_chat sid uid n i chat w)) = (messagesColl w ++ added)%list
       /\ Forall (fun d => MessageDoc.sessionId d = sid) added
       /\ (is_ok (wc_fetchMessages chat) = false -> added = []).
Proof.
  unfold sync_chat. destruct (wc_fetchMessages chat) as [msgs|e] eqn:Hfetch.
  - unfold exec, chat_update, Chat.upsert, Chat.cast, Session.findOneAndUpdate,
      SocketManager.emitSyncProgress, SocketManager.emitToUser, now. munfold. simpl.
    destruct (existsb _ _); simpl;
      match goal with |- context [save_messages ?a ?b ?c ?d ?W] =>
        destruct (save_messages_store a b c d W) as (S1 & S2 & (added & S3 & S4 & S5));
        destruct (save_messages a b c d W) as [r w2] end;
      simpl in *; subst r; wsimpl;
      (destruct (io w2); simpl; rewrite ?S1, ?S2, ?S3;
       (split; [done|]; split; [done|]; exists added; done)).
  - unfold Session.findOneAndUpdate, SocketManager.emitSyncProgress,
      SocketManager.emitToUser, now. munfold. wsimpl.
    destruct (io w); simpl;
      (split; [done|]; split; [done|]; exists []; rewrite app_nil_r; done).
Qed.
End SyncStore.

(** ** The conversation records of a pass *)

Section SyncChats.
Import SessionManager.

Lemma has_key_pair sid cid d :
  Chat.has_key sid cid d = bool_decide ((sid, cid) = (ChatDoc.sessionId d, ChatDoc.chatId d)).
Proof.
  unfold Chat.has_key. repeat case_bool_decide; simpl; try done; congruence.
Qed.

Lemma chat_of_upsert d w sid' cid' :
  chat_of (exec (Chat.upsert d) w) sid' cid'
  = if bool_decide ((sid', cid') = (ChatDoc.sessionId d, ChatDoc.chatId d))
    then Some (Chat.cast d) else chat_of w sid' cid'.
Proof.
  unfold chat_of, exec, Chat.upsert. munfold. simpl.
  set (p := Chat.has_key (ChatDoc.sessionId d) (ChatDoc.chatId d)).
  assert (p (Chat.cast d) = true) as Hpd
    by (unfold p; rewrite has_key_pair; by apply bool_decide_eq_true_2).
  rewrite existsb_is_Some_find. wsimpl.
  destruct (decide ((sid', cid') = (ChatDoc.sessionId d, ChatDoc.chatId d))) as [Hkey|Hkey].
  - rewrite (bool_decide_eq_true_2 _ Hkey). injection Hkey as -> ->. fold p.
    destruct (List.find p (chatsColl w)) as [c|] eqn:Hfind; simpl.
    + rewrite find_update_first_same by (intros; exact Hpd). by rewrite Hfind.
    + rewrite find_app, Hfind. simpl. by rewrite Hpd.
  - rewrite (bool_decide_eq_false_2 _ Hkey).
    assert (Chat.has_key sid' cid' (Chat.cast d) = false) as Hqd
      by (rewrite has_key_pair; by apply bool_decide_eq_false_2).
    destruct (List.find p (chatsColl w)) as [c|] eqn:Hfind; simpl.
    + apply find_update_first_other. intros x Hx. split; [|exact Hqd].
      unfold p in Hx. rewrite has_key_pair in *.
      apply bool_decide_eq_true_1 in Hx. apply bool_decide_eq_false_2. congruence.
    + rewrite find_app.
      destruct (List.find (Chat.has_key sid' cid') (chatsColl w)); [done|].
      simpl. by rewrite Hqd.
Qed.

Lemma chats_for_upsert d w sid' cid' :
  chats_for (exec (Chat.upsert d) w) sid' cid'
  = if bool_decide ((sid', cid') = (ChatDoc.sessionId d, ChatDoc.chatId d))
    then Nat.max 1 (chats_for w sid' cid') else chats_for w sid' cid'.
Proof.
  unfold chats_for, exec, Chat.upsert. munfold. simpl.
  set (p := Chat.has_key (ChatDoc.sessionId d) (ChatDoc.chatId d)).
  assert (p (Chat.cast d) = true) as Hpd
    by (unfold p; rewrite has_key_pair; by apply bool_decide_eq_true_2).
  destruct (decide ((sid', cid') = (ChatDoc.sessionId d, ChatDoc.chatId d))) as [Hkey|Hkey].
  - rewrite (bool_decide_eq_true_2 _ Hkey). injection Hkey as -> ->. fold p.
    destruct (existsb p (chatsColl w)) eqn:Hex; wsimpl.
    + rewrite filter_update_first_length by (intros; by rewrite Hpd).
      apply existsb_exists in Hex as (x & Hin & Hx).
      assert (In x (List.filter p (chatsColl w))) as Hf by (apply filter_In; done).
      destruct (List.filter p (chatsColl w)); [done|]. simpl. lia.
    + rewrite List.filter_app, length_app. simpl. rewrite Hpd. simpl.
      apply existsb_filter_nil in Hex. rewrite Hex. done.
  - rewrite (bool_decide_eq_false_2 _ Hkey).
    assert (Chat.has_key sid' cid' (Chat.cast d) = false) as Hqd
      by (rewrite has_key_pair; by apply bool_decide_eq_false_2).
    destruct (existsb p (chatsColl w)) eqn:Hex; wsimpl.
    + apply filter_update_first_length. intros x Hx. rewrite Hqd.
      unfold p in Hx. rewrite has_key_pair in Hx. rewrite has_key_pair.
      apply bool_decide_eq_true_1 in Hx. symmetry. apply bool_decide_eq_false_2.
      congruence.
    + rewrite List.filter_app, length_app. simpl. rewrite Hqd. simpl. lia.
Qed.

Lemma sync_chat_chat_of sid uid n i chat w sid' cid' :
  chat_of (snd (sync_chat sid uid n i chat w)) sid' cid'
  = match wc_fetchMessages chat with
    | Ok msgs =>
        if bool_decide ((sid', cid') = (sid, wc_id_serialized chat))
        then Some (synced_chat sid chat msgs (clock w)) else chat_of w sid' cid'
    | Throw _ => chat_of w sid' cid'
    end.
Proof.
  destruct (sync_chat_store sid uid n i chat w) as (_ & Hc & _).
  unfold chat_of at 1. rewrite Hc.
  destruct (wc_fetchMessages chat) as [msgs|e]; [|done].
  apply (chat_of_upsert (chat_update sid chat msgs (clock w)) w sid' cid').
Qed.

Lemma sync_chat_chats_for sid uid n i chat w sid' cid' :
  (chats_for (snd (sync_chat sid uid n i chat w)) sid' cid'
   <= Nat.max 1 (chats_for w sid' cid'))%nat.
Proof.
  destruct (sync_chat_store sid uid n i chat w) as (_ & Hc & _).
  unfold chats_for at 1. rewrite Hc.
  destruct (wc_fetchMessages chat) as [msgs|e]; [|unfold chats_for; lia].
  pose proof (chats_for_upsert (chat_update sid chat msgs (clock w)) w sid' cid') as H.
  unfold chats_for in *. rewrite H. case_bool_decide; lia.
Qed.

Lemma sync_chats_step sid uid n i chat chats w :
  sync_chats sid uid n i (chat :: chats) w
  = sync_chats sid uid n (i + 1) chats (snd (sync_chat sid uid n i chat w)).
Proof.
  change (sync_chats sid uid n i (chat :: chats) w)
    with (match sync_chat sid uid n i chat w with
          | (Ok _, w1) => sync_chats sid uid n (i + 1) chats w1
          | (Throw e, w1) => (Throw e, w1)
          end).
  destruct (sync_chat_effect sid uid n i chat w) as (H1 & _).
  destruct (sync_chat sid uid n i chat w) as [r w1]. simpl in *. by subst r.
Qed.

Lemma sync_chats_clock sid uid n chats i w :
  clock (snd (sync_chats sid uid n i chats w)) = clock w.
Proof.
  revert i w. induction chats as [|chat chats IH]; intros i w; [done|].
  rewrite sync_chats_step, IH. apply sync_chat_store.
Qed.

Lemma sync_chats_other_chat sid uid n chats i w sid' cid' :
  (forall c, c ∈ chats -> (sid', cid') <> (sid, wc_id_serialized c)) ->
  chat_of (snd (sync_chats sid uid n i chats w)) sid' cid' = chat_of w sid' cid'.
Proof.
  revert i w. induction chats as [|chat chats IH]; intros i w Hother; [done|].
  rewrite sync_chats_step, IH by (intros c Hc; apply Hother; by right).
  rewrite sync_chat_chat_of. destruct (wc_fetchMessages chat); [|done].
  rewrite bool_decide_eq_false_2; [done|]. apply Hother. by left.
Qed.

Lemma sync_chats_chats_for sid uid n chats i w sid' cid' :
  (chats_for (snd (sync_chats sid uid n i chats w)) sid' cid'
   <= Nat.max 1 (chats_for w sid' cid'))%nat.
Proof.
  revert i w. induction chats as [|chat chats IH]; intros i w; [simpl; lia|].
  rewrite sync_chats_step.
  pose proof (IH (i + 1) (snd (sync_chat sid uid n i chat w))) as H1.
  pose proof (sync_chat_chats_for sid uid n i chat w sid' cid') as H2. lia.
Qed.

(** X4. A pass over conversations with distinct identifiers leaves,
    for every conversation whose messages could be fetched, the record it
    upserted: the name (the conversation's, or the user part of its
    identifier) as the schema trims it, the unread count the SDK reports
    (zero when it reports none), the body of the first fetched message as
    [lastMessage]. The records of other keys are as before, and a key that
    had at most one record still has at most one. *)
Theorem sync_pass_upserts_conversations sid uid n i chats w chat msgs :
  NoDup (wc_id_serialized <$> chats) ->
  chat ∈ chats ->
  wc_fetchMessages chat = Ok msgs ->
  let w' := exec (sync_chats sid uid n i chats) w in
  chat_of w' sid (wc_id_serialized chat) = Some (synced_chat sid chat msgs (clock w))
  /\ (forall sid' cid',
        (forall c, c ∈ chats -> (sid', cid') <> (sid, wc_id_serialized c)) ->
        chat_of w' sid' cid' = chat_of w sid' cid')
  /\ (forall sid' cid',
        (chats_for w sid' cid' <= 1)%nat -> (chats_for w' sid' cid' <= 1)%nat).
Proof.
  intros Hnd Hin Hfetch w'. subst w'. unfold exec. split; [|split].
  - revert i w Hnd Hin. induction chats as [|c chats IH]; intros i w Hnd Hin.
    + by apply elem_of_nil in Hin.
    + rewrite fmap_cons in Hnd. apply NoDup_cons in Hnd as [Hc Hnd].
      rewrite sync_chats_step.
      apply elem_of_cons in Hin as [->|Hin].
      * rewrite sync_chats_other_chat.
        -- rewrite sync_chat_chat_of, Hfetch. by rewrite bool_decide_eq_true_2.
        -- intros c' Hc' [= Heq]. apply Hc. rewrite Heq.
           by apply list_elem_of_fmap_2.
      * rewrite (IH (i + 1) _ Hnd Hin). f_equal. f_equal. apply sync_chat_store.
  - intros sid' cid' Hother. by apply sync_chats_other_chat.
  - intros sid' cid' Hle.
    pose proof (sync_chats_chats_for sid uid n chats i w sid' cid'). lia.
Qed.

Lemma sync_pass_upserts_witness :
  NoDup (wc_id_serialized <$> (padded_chat :: three_chats))
  /\ padded_chat ∈ padded_chat :: three_chats
  /\ ChatDoc.name
       <$> chat_of (exec (sync_chats "s1" "u1" 4 0 (padded_chat :: three_chats))
                      (world_s1 READY)) "s1" "f@g.us" = Some "Family chat"
  /\ ChatDoc.unreadCount
       <$> chat_of (exec (sync_chats "s1" "u1" 4 0 (padded_chat :: three_chats))
                      (world_s1 READY)) "s1" "f@g.us" = Some 2
  /\ ChatDoc.lastMessage
       <$> chat_of (exec (sync_chats "s1" "u1" 4 0 (padded_chat :: three_chats))
                      (world_s1 READY)) "s1" "f@g.us" = Some (Some "").
Proof.
  assert (NoDup (wc_id_serialized <$> (padded_chat :: three_chats))) as Hnd.
  { apply (bool_decide_eq_true_1 (NoDup (wc_id_serialized <$> (padded_chat :: three_chats)))).
    vm_compute. reflexivity. }
  assert (padded_chat ∈ padded_chat :: three_chats) as Hin by (apply elem_of_cons; by left).
  split; [exact Hnd|]. split; [exact Hin|].
  destruct (sync_pass_upserts_conversations "s1" "u1" 4 0 (padded_chat :: three_chats)
              (world_s1 READY) padded_chat [] Hnd Hin eq_refl) as (H & _).
  change (wc_id_serialized padded_chat) with "f@g.us" in H.
  rewrite H. repeat split; reflexivity.
Defined.
End SyncChats.

(** ** The outcome of a synchronisation task *)

Section SyncOutcome.
Import SessionManager.

Lemma sync_chats_store sid uid n chats i w :
  fst (sync_chats sid uid n i chats w) = Ok tt
  /\ exists added,
       messagesColl (snd (sync_chats sid uid n i chats w)) = (messagesColl w ++ added)%list
       /\ Forall (fun d => MessageDoc.sessionId d = sid) added
       /\ (Forall (fun c => is_ok (wc_fetchMessages c) = false) chats ->
           added = []
           /\ chatsColl (snd (sync_chats sid uid n i chats w)) = chatsColl w).
Proof.
  revert i w. induction chats as [|chat chats IH]; intros i w.
  - simpl. split; [done|]. exists []. by rewrite app_nil_r.
  - rewrite sync_chats_step.
    destruct (sync_chat_store sid uid n i chat w) as (_ & Hc & (a1 & H1 & H2 & H3)).
    destruct (IH (i + 1) (snd (sync_chat sid uid n i chat w))) as (I0 & (a2 & I1 & I2 & I3)).
    split; [done|]. exists (a1 ++ a2)%list. rewrite I1, H1, <- app_assoc.
    split; [done|]. split; [by apply Forall_app|].
    intros Hfail. apply Forall_cons in Hfail as [Hf Hfail].
    destruct (I3 Hfail) as [-> ->]. rewrite (H3 Hf), Hc.
    split; [done|]. by destruct (wc_fetchMessages chat).
Qed.

(** What a task does to the stored messages and conversations, whatever
    the SDK answers. *)
Lemma startBackgroundSync_store sid client uid getChats w :
  outcome (startBackgroundSync sid client uid getChats) w = Ok tt
  /\ exists added,
       messagesColl (exec (startBackgroundSync sid client uid getChats) w)
       = (messagesColl w ++ added)%list
       /\ Forall (fun d => MessageDoc.sessionId d = sid) added
       /\ ((forall chats, getChats = Ok chats ->
              Forall (fun c => is_ok (wc_fetchMessages c) = false) chats) ->
           added = []
           /\ chatsColl (exec (startBackgroundSync sid client uid getChats) w) = chatsColl w).
Proof.
  destruct (session_of w sid) as [d|] eqn:Hd.
  2: { unfold outcome, exec.
       rewrite (startBackgroundSync_no_record w sid client uid getChats Hd). simpl.
       split; [done|]. exists []. by rewrite app_nil_r. }
  unfold outcome, exec, startBackgroundSync, Session.findOne, Session.findOneAndUpdate,
    SocketManager.emitSyncProgress, SocketManager.emitSessionStatus,
    SocketManager.emitToUser, now.
  munfold. wsimpl. fold (session_of w sid). rewrite Hd.
  destruct getChats as [chats|e]; simpl.
  - match goal with |- context [sync_chats sid uid ?n 0 chats ?w1] =>
      destruct (sync_chats_store sid uid n chats 0 w1) as (H1 & (added & H2 & H3 & H4));
      destruct (sync_chats sid uid n 0 chats w1) as [r w2] end.
    simpl in H1, H2, H4. subst r. simpl.
    destruct (io w); simpl in *;
      (destruct (io w2); simpl; (split; [done|]); exists added;
       (split; [done|]); (split; [done|]); intros Hall;
       destruct (H4 (Hall chats eq_refl)) as [-> ->]; done).
  - destruct (io w) eqn:Hio; simpl;
      (match goal with |- context [List.find ?p ?l] =>
         destruct (List.find p l) end; simpl; rewrite ?Hio; simpl;
       (split; [done|]); exists []; rewrite app_nil_r; done).
Qed.

(** X5. No failure of the SDK makes the synchronisation task
    reject. With a store that answers, as everywhere in this development
    (the store calls of the [catch] block are not guarded in the source),
    the promise the [ready] handler leaves unawaited is fulfilled whether
    the session record is missing, [getChats] fails, the messages of a
    conversation cannot be fetched or every message is already stored; a
    failure of [getChats] is caught and logged as [Background sync
    failed]. *)
Theorem sync_task_contains_sdk_failures sid client uid getChats w :
  outcome (startBackgroundSync sid client uid getChats) w = Ok tt
  /\ (forall e, getChats = Throw e -> is_Some (session_of w sid) ->
        (LError, "Background sync failed")
          ∈ logged (exec (startBackgroundSync sid client uid getChats) w)).
Proof.
  split; [apply startBackgroundSync_store|].
  intros e -> [d Hd].
  unfold exec, startBackgroundSync, Session.findOne, Session.findOneAndUpdate,
    SocketManager.emitSyncProgress, SocketManager.emitSessionStatus,
    SocketManager.emitToUser, session_of in *.
  munfold. wsimpl. rewrite Hd. simpl.
  destruct (io w); simpl; rewrite find_update_first_same by done; rewrite Hd; simpl;
    destruct (io w); simpl; rewrite !elem_of_app, !list_elem_of_singleton; eauto 10.
Qed.

(** X6. A synchronisation task only appends to the stored messages,
    and only messages of its own session: whatever it is given, every
    message that was stored before is stored unchanged afterwards, so a
    delivery level recorded by an acknowledgment is not reset by a later
    pass over the same conversation. *)
Theorem sync_task_only_appends_messages sid client uid getChats w :
  let w' := exec (startBackgroundSync sid client uid getChats) w in
  (exists added,
     messagesColl w' = (messagesColl w ++ added)%list
     /\ Forall (fun d => MessageDoc.sessionId d = sid) added)
  /\ (forall sid' mid' d,
        message_of w sid' mid' = Some d -> message_of w' sid' mid' = Some d)
  /\ (forall sid' msg ack,
        is_Some (message_of w sid' (wa_id_serialized msg)) ->
        MessageDoc.ackStatus
          <$> message_of
                (exec (startBackgroundSync sid client uid getChats)
                   (exec (on_message_ack sid' msg ack) w)) sid' (wa_id_serialized msg)
        = Some ack).
Proof.
  intros w'. subst w'.
  assert (forall w0 sid' mid' d,
            message_of w0 sid' mid' = Some d ->
            message_of (exec (startBackgroundSync sid client uid getChats) w0) sid' mid'
            = Some d) as Hkeep.
  { intros w0 sid' mid' d Hd.
    destruct (startBackgroundSync_store sid client uid getChats w0)
      as (_ & (added & H1 & _)).
    unfold message_of in *. rewrite H1. by apply find_app_Some. }
  split; [|split].
  - destruct (startBackgroundSync_store sid client uid getChats w)
      as (_ & (added & H1 & H2 & _)). by exists added.
  - apply Hkeep.
  - intros sid' msg ack [d Hd].
    rewrite (Hkeep _ _ _ (MessageDoc.set_ackStatus ack d)); [done|].
    unfold exec. rewrite on_message_ack_eq. unfold message_of in *. wsimpl.
    rewrite find_update_first_same by (intros x Hx; by rewrite has_key_set_ackStatus).
    by rewrite Hd.
Qed.
End SyncOutcome.

Section SyncFailures.
Import SessionManager.

(** X7. A conversation whose messages cannot be fetched is skipped:
    its turn of the loop stores no conversation record and no message,
    logs the failure, and still persists and publishes the progress of
    its index. A task in which every fetch fails therefore stores nothing
    and still leaves the session READY with progress 100. *)
Theorem unfetched_conversation_is_skipped sid uid n i chat e w :
  wc_fetchMessages chat = Throw e ->
  let w' := exec (sync_chat sid uid n i chat) w in
  outcome (sync_chat sid uid n i chat) w = Ok tt
  /\ chatsColl w' = chatsColl w
  /\ messagesColl w' = messagesColl w
  /\ session_of w' sid = SessionDoc.set_syncProgress (progress_of i n) <$> session_of w sid
  /\ emitted w'
     = (emitted w ++ if io w then [progress_emission sid uid (progress_of i n)] else [])%list
  /\ logged w'
     = (logged w ++ [(LError, "Failed to sync chat"); (LInfo, "Emitting to user")])%list
  /\ (forall client chats w0,
        Forall (fun c => is_ok (wc_fetchMessages c) = false) chats ->
        io w0 = true -> is_Some (session_of w0 sid) ->
        chatsColl (exec (startBackgroundSync sid client uid (Ok chats)) w0) = chatsColl w0
        /\ messagesColl (exec (startBackgroundSync sid client uid (Ok chats)) w0)
           = messagesColl w0
        /\ exists d', session_of (exec (startBackgroundSync sid client uid (Ok chats)) w0) sid
                      = Some d'
             /\ SessionDoc.status d' = READY /\ SessionDoc.syncProgress d' = 100).
Proof.
  intros Hfetch w'. subst w'.
  split; [|split; [|split; [|split; [|split; [|split]]]]].
  - apply sync_chat_effect.
  - destruct (sync_chat_store sid uid n i chat w) as (_ & Hc & _).
    unfold exec. by rewrite Hc, Hfetch.
  - destruct (sync_chat_store sid uid n i chat w) as (_ & _ & (added & H1 & _ & H3)).
    unfold exec. rewrite H1, H3, ?app_nil_r; [done|]. by rewrite Hfetch.
  - destruct (sync_chat_effect sid uid n i chat w) as (_ & H2 & _).
    unfold exec, session_of. rewrite H2. by apply find_update_first_same.
  - apply sync_chat_effect.
  - unfold exec, sync_chat. rewrite Hfetch.
    unfold Session.findOneAndUpdate, SocketManager.emitSyncProgress,
      SocketManager.emitToUser. munfold. wsimpl.
    destruct (io w); simpl; by rewrite <- app_assoc.
  - intros client chats w0 Hall Hio Hsome.
    destruct (startBackgroundSync_store sid client uid (Ok chats) w0)
      as (_ & (added & H1 & _ & H3)).
    destruct H3 as [-> H3]; [by intros chats' [= <-]|].
    rewrite H1, H3, app_nil_r. split; [done|]. split; [done|].
    apply (startBackgroundSync_effect w0 sid client uid chats Hio Hsome).
Qed.

Lemma unfetched_conversation_witness :
  wc_fetchMessages (unreachable_chat "a@c.us") = Throw boom
  /\ outcome (sync_chat "s1" "u1" 1 0 (unreachable_chat "a@c.us")) (world_s1 SYNCING) = Ok tt
  /\ chatsColl (exec (sync_chat "s1" "u1" 1 0 (unreachable_chat "a@c.us")) (world_s1 SYNCING))
     = []
  /\ progress_events
       (exec (sync_chat "s1" "u1" 1 0 (unreachable_chat "a@c.us")) (world_s1 SYNCING)) "s1"
     = [100].
Proof.
  split; [reflexivity|].
  destruct (unfetched_conversation_is_skipped "s1" "u1" 1 0 (unreachable_chat "a@c.us") boom
              (world_s1 SYNCING) eq_refl) as (H1 & H2 & _ & _ & H5 & _).
  split; [exact H1|]. split; [exact H2|].
  unfold progress_events. rewrite H5. vm_compute. reflexivity.
Defined.

(** X8. When the conversations cannot be listed, the task
    leaves the session FAILED with its progress reset to 0, whatever the
    progress was, and the other fields of the record as they were; it has
    published the progress 0 to the room of the user it was started for
    and then FAILED to the room of the user the record names, and it
    stores no conversation and no message. *)
Theorem unlisted_conversations_fail_the_session sid client uid e d w :
  session_of w sid = Some d ->
  io w = true ->
  let w' := exec (startBackgroundSync sid client uid (Throw e)) w in
  session_of w' sid
    = Some (SessionDoc.set_status FAILED (SessionDoc.set_syncProgress 0 d))
  /\ emitted w'
     = (emitted w ++ [progress_emission sid uid 0;
                      status_emission sid (SessionDoc.userId d) FAILED])%list
  /\ chatsColl w' = chatsColl w
  /\ messagesColl w' = messagesColl w.
Proof.
  intros Hd Hio w'. subst w'.
  assert (Session.has_sessionId sid d = true) as Hkey
    by (unfold session_of in Hd; by apply find_some in Hd as [_ ?]).
  unfold exec, startBackgroundSync, Session.findOne, Session.findOneAndUpdate,
    SocketManager.emitSyncProgress, SocketManager.emitSessionStatus,
    SocketManager.emitToUser, now, session_of in *.
  destruct w as [cfg clk ss cs ms nid reg io0 em lg sl pi]. simpl in Hd, Hio. subst io0.
  munfold. wsimpl. rewrite Hd. simpl.
  rewrite find_update_first_same by done. rewrite Hd. simpl.
  rewrite find_update_first_same by done.
  rewrite find_update_first_same by done. rewrite Hd. simpl.
  rewrite <- app_assoc. done.
Qed.

Lemma unlisted_conversations_witness :
  session_of world_synced "s1"
    = Some (SessionDoc.set_syncProgress 100 (session_doc "u1" "s1" READY))
  /\ io world_synced = true
  /\ (SessionDoc.status
        <$> session_of (exec (startBackgroundSync "s1" {| clientId := "s1" |} "u1" (Throw boom))
                          world_synced) "s1") = Some FAILED
  /\ (SessionDoc.syncProgress
        <$> session_of (exec (startBackgroundSync "s1" {| clientId := "s1" |} "u1" (Throw boom))
                          world_synced) "s1") = Some 0
  /\ status_events (exec (startBackgroundSync "s1" {| clientId := "s1" |} "u1" (Throw boom))
                      world_synced) "s1" = [FAILED].
Proof.
  split; [reflexivity|]. split; [reflexivity|].
  destruct (unlisted_conversations_fail_the_session "s1" {| clientId := "s1" |} "u1" boom
              (SessionDoc.set_syncProgress 100 (session_doc "u1" "s1" READY))
              world_synced eq_refl eq_refl)
    as (H1 & H2 & _).
  split; [by rewrite H1|]. split; [by rewrite H1|].
  unfold status_events. rewrite H2. vm_compute. reflexivity.
Defined.
End SyncFailures.

(** ** Destroying a session that is already gone *)

Section DestroyAgain.
Import SessionManager.

Lemma update_first_idem {A : Type} (p : A -> bool) (f : A -> A) (l : list A) :
  (forall x, p x = true -> p (f x) = true /\ f (f x) = f x) ->
  update_first p f (update_first p f l) = update_first p f l.
Proof.
  intros H. induction l as [|x l IH]; simpl; [done|].
  destruct (p x) eqn:E; simpl.
  - destruct (H x E) as [-> ->]. done.
  - by rewrite E, IH.
Qed.

(** X9. Once the handle of a session has left the registry,
    because [destroySession] succeeded or the client reported
    [disconnected], a further [destroySession] never calls the teardown:
    it returns normally whatever the teardown would have done, and leaves
    the registry and the session records exactly as they were, with the
    status DISCONNECTED. *)
Theorem destroySession_again_is_harmless sid cbs reason teardown w :
  quiet_callbacks cbs ->
  let after_destroy := exec (destroySession sid (Ok tt)) w in
  let after_disconnect := exec (on_disconnected sid cbs reason) w in
  (outcome (destroySession sid teardown) after_destroy = Ok tt
   /\ sessions (exec (destroySession sid teardown) after_destroy) = sessions after_destroy
   /\ sessionsColl (exec (destroySession sid teardown) after_destroy)
      = sessionsColl after_destroy)
  /\ (outcome (destroySession sid teardown) after_disconnect = Ok tt
      /\ sessions (exec (destroySession sid teardown) after_disconnect)
         = sessions after_disconnect
      /\ sessionsColl (exec (destroySession sid teardown) after_disconnect)
         = sessionsColl after_disconnect)
  /\ status_of after_destroy sid = (fun _ => DISCONNECTED) <$> status_of w sid
  /\ status_of after_disconnect sid = (fun _ => DISCONNECTED) <$> status_of w sid.
Proof.
  intros Hq after_destroy after_disconnect.
  assert (sessions after_destroy !! sid = None
          /\ sessionsColl after_destroy
             = update_first (Session.has_sessionId sid) (SessionDoc.set_status DISCONNECTED)
                 (sessionsColl w)) as [Hd1 Hd2].
  { subst after_destroy. unfold exec. destruct (sessions w !! sid) as [c|] eqn:Hc.
    - rewrite (destroySession_teardown_ok w sid c Hc). wsimpl.
      by rewrite lookup_delete_eq.
    - rewrite (destroySession_no_handle w sid (Ok tt) Hc). wsimpl. done. }
  assert (sessions after_disconnect !! sid = None
          /\ sessionsColl after_disconnect
             = update_first (Session.has_sessionId sid) (SessionDoc.set_status DISCONNECTED)
                 (sessionsColl w)) as [Hc1 Hc2].
  { subst after_disconnect. destruct Hq as (_ & _ & Hdisc).
    unfold exec, on_disconnected, sessions_delete, Session.findOneAndUpdate.
    munfold. wsimpl.
    match goal with |- context [call (onDisconnected cbs) ?w1] =>
      destruct (call_emits_only (onDisconnected cbs) Hdisc w1)
        as (H1 & _ & _ & H2 & _ & _ & _ & H3 & _);
      destruct (call (onDisconnected cbs) w1) as [r w2] end.
    simpl in *. subst r. simpl. rewrite H2, lookup_delete_eq. done. }
  assert (forall w1,
            sessions w1 !! sid = None ->
            sessionsColl w1
            = update_first (Session.has_sessionId sid) (SessionDoc.set_status DISCONNECTED)
                (sessionsColl w) ->
            outcome (destroySession sid teardown) w1 = Ok tt
            /\ sessions (exec (destroySession sid teardown) w1) = sessions w1
            /\ sessionsColl (exec (destroySession sid teardown) w1) = sessionsColl w1) as Hagain.
  { intros w1 Hnone Hcoll. unfold outcome, exec.
    rewrite (destroySession_no_handle w1 sid teardown Hnone). wsimpl.
    split; [done|]. split; [done|]. rewrite Hcoll. by apply update_first_idem. }
  split; [by apply Hagain|]. split; [by apply Hagain|].
  unfold status_of, session_of. rewrite Hd2, Hc2.
  rewrite find_update_first_same by done.
  by destruct (List.find _ _).
Qed.

Lemma destroySession_again_witness :
  quiet_callbacks no_callbacks
  /\ outcome (destroySession "s1" (Throw boom))
       (exec (destroySession "s1" (Ok tt)) (world_s1 READY)) = Ok tt
  /\ status_of (exec (on_disconnected "s1" no_callbacks "LOGOUT") (world_s1 READY)) "s1"
     = Some DISCONNECTED.
Proof.
  split; [exact no_callbacks_quiet|].
  destruct (destroySession_again_is_harmless "s1" no_callbacks "LOGOUT" (Throw boom)
              (world_s1 READY) no_callbacks_quiet) as ((H1 & _) & _ & _ & H4).
  split; [exact H1|]. rewrite H4. reflexivity.
Defined.
End DestroyAgain.

(** ** Where the events of a session go *)

Section Rooms.
Import SessionManager.

Lemma publishes_into_ret {A : Type} r (a : A) : publishes_into r (mret a : M A).
Proof. intros w. exists []. by rewrite app_nil_r. Qed.

Lemma publishes_into_bind {A B : Type} r (m : M A) (f : A -> M B) :
  publishes_into r m -> (forall a, publishes_into r (f a)) -> publishes_into r (m ≫= f).
Proof.
  intros Hm Hf w. unfold mbind, M_bind.
  destruct (Hm w) as (a1 & H1 & H2). destruct (m w) as [[a|e] w1]; simpl in *.
  - destruct (Hf a w1) as (a2 & H3 & H4). exists (a1 ++ a2)%list.
    rewrite H3, H1, <- app_assoc. split; [done|]. by apply Forall_app.
  - by exists a1.
Qed.

Lemma publishes_into_try_catch {A : Type} r (body : M A) (handler : JsError -> M A) :
  publishes_into r body -> (forall e, publishes_into r (handler e)) ->
  publishes_into r (try_catch body handler).
Proof.
  intros Hm Hf w. unfold try_catch.
  destruct (Hm w) as (a1 & H1 & H2). destruct (body w) as [[a|e] w1]; simpl in *.
  - by exists a1.
  - destruct (Hf e w1) as (a2 & H3 & H4). exists (a1 ++ a2)%list.
    rewrite H3, H1, <- app_assoc. split; [done|]. by apply Forall_app.
Qed.

Lemma publishes_into_quiet {A : Type} r (m : M A) :
  (forall w, emitted (snd (m w)) = emitted w) -> publishes_into r m.
Proof. intros H w. exists []. by rewrite app_nil_r, H. Qed.

Lemma publishes_into_logger r lvl msg : publishes_into r (logger lvl msg).
Proof. by apply publishes_into_quiet. Qed.

Lemma publishes_into_emitToUser uid ev d :
  publishes_into ("user:" ++ uid) (SocketManager.emitToUser uid ev d).
Proof.
  intros w. unfold SocketManager.emitToUser. munfold. wsimpl.
  destruct (io w); simpl.
  - eexists [_]. split; [done|]. by repeat constructor.
  - exists []. by rewrite app_nil_r.
Qed.

Lemma publishes_into_session_update r sid f :
  publishes_into r (Session.findOneAndUpdate sid f).
Proof. by apply publishes_into_quiet. Qed.

Lemma publishes_into_call uid cb :
  (forall m, cb = Some m -> publishes_into ("user:" ++ uid) m) ->
  publishes_into ("user:" ++ uid) (call cb).
Proof.
  intros H. destruct cb as [m|]; simpl; [by apply H|apply publishes_into_ret].
Qed.

Lemma publishes_into_on_message sid uid msg :
  publishes_into ("user:" ++ uid) (on_message sid uid msg).
Proof.
  unfold on_message. apply publishes_into_try_catch.
  - apply publishes_into_bind; [apply publishes_into_logger|]. intros _.
    apply publishes_into_bind; [by apply publishes_into_quiet|]. intros t.
    apply publishes_into_bind.
    { apply publishes_into_quiet. intros w. apply (silent_insertOne _ w). }
    intros id.
    apply publishes_into_bind; [by apply publishes_into_quiet|]. intros saved.
    apply publishes_into_bind; [|intros _; by apply publishes_into_quiet].
    destruct saved as [saved|]; [|apply publishes_into_ret].
    apply publishes_into_bind; [|intros _; apply publishes_into_logger].
    unfold SocketManager.emitMessage.
    apply publishes_into_bind; [apply publishes_into_logger|]. intros _.
    apply publishes_into_emitToUser.
  - intros e. case_bool_decide; [apply publishes_into_logger|apply publishes_into_ret].
Qed.

(** The callbacks a handler may be wired with: none (a restored session)
    or those of the HTTP controller for the same session and user. *)
Lemma publishes_into_dispatch sid uid cbs ev :
  (forall f qr, onQR cbs = Some f -> publishes_into ("user:" ++ uid) (f qr)) ->
  (forall m, onReady cbs = Some m -> publishes_into ("user:" ++ uid) m) ->
  (forall m, onDisconnected cbs = Some m -> publishes_into ("user:" ++ uid) m) ->
  publishes_into ("user:" ++ uid) (dispatch sid uid cbs ev).
Proof.
  intros Hqr Hready Hdisc.
  destruct ev as [qr|wid_user|message|message ack| |msg|reason]; simpl.
  - unfold on_qr.
    apply publishes_into_bind; [apply publishes_into_logger|]. intros _.
    apply publishes_into_bind; [apply publishes_into_session_update|]. intros _.
    apply publishes_into_bind; [apply publishes_into_emitToUser|]. intros _.
    destruct (onQR cbs) as [f|] eqn:Hf; [by apply Hqr|apply publishes_into_ret].
  - unfold on_ready.
    apply publishes_into_bind; [apply publishes_into_logger|]. intros _.
    apply publishes_into_bind; [apply publishes_into_session_update|]. intros _.
    apply publishes_into_bind; [apply publishes_into_emitToUser|]. intros _.
    apply publishes_into_bind; [by apply publishes_into_call|]. intros _.
    by apply publishes_into_quiet.
  - apply publishes_into_on_message.
  - unfold on_message_ack. apply publishes_into_try_catch.
    + by apply publishes_into_quiet.
    + intros e. apply publishes_into_logger.
  - apply publishes_into_logger.
  - unfold on_auth_failure.
    apply publishes_into_bind; [apply publishes_into_logger|]. intros _.
    apply publishes_into_session_update.
  - unfold on_disconnected.
    apply publishes_into_bind; [apply publishes_into_logger|]. intros _.
    apply publishes_into_bind; [apply publishes_into_session_update|]. intros _.
    apply publishes_into_bind; [by apply publishes_into_call|]. intros _.
    by apply publishes_into_quiet.
Qed.

Lemma publishes_into_run_events sid uid cbs evs w :
  (forall ev, publishes_into ("user:" ++ uid) (dispatch sid uid cbs ev)) ->
  exists added,
    emitted (run_events sid uid cbs evs w) = (emitted w ++ added)%list
    /\ Forall (fun e => room e = "user:" ++ uid) added.
Proof.
  intros H. revert w. induction evs as [|ev evs IH]; intros w.
  - exists []. by rewrite app_nil_r.
  - rewrite run_events_cons. destruct (IH (exec (dispatch sid uid cbs ev) w)) as (a2 & H3 & H4).
    destruct (H ev w) as (a1 & H1 & H2). exists (a1 ++ a2)%list.
    rewrite H3. unfold exec. rewrite H1, <- app_assoc. split; [done|]. by apply Forall_app.
Qed.

Lemma publishes_into_sync_chats sid uid n chats i :
  publishes_into ("user:" ++ uid) (sync_chats sid uid n i chats).
Proof.
  revert i. induction chats as [|chat chats IH]; intros i; [apply publishes_into_ret|].
  intros w. rewrite sync_chats_step.
  destruct (IH (i + 1) (snd (sync_chat sid uid n i chat w))) as (a2 & H3 & H4).
  destruct (sync_chat_effect sid uid n i chat w) as (_ & _ & H1 & _).
  exists ((if io w then [progress_emission sid uid (progress_of i n)] else []) ++ a2)%list.
  rewrite H3, H1, <- app_assoc. split; [done|]. apply Forall_app. split; [|done].
  destruct (io w); by repeat constructor.
Qed.

(** X10. Every event the orchestrator publishes for a session goes to
    the room of the user the session was wired for and to no other room:
    whatever events the client raises, for a restored session (no
    callbacks) as for one created through the HTTP controller, the events
    published before are kept and each added event is addressed to
    [user:<userId>]; the same holds for a synchronisation task, whose
    failure event goes to the user the record names. *)
Theorem session_events_reach_only_the_owner_room sid uid :
  (forall evs w, exists added,
      emitted (run_events sid uid no_callbacks evs w) = (emitted w ++ added)%list
      /\ Forall (fun e => room e = "user:" ++ uid) added)
  /\ (forall render evs w, exists added,
        emitted (run_events sid uid (WhatsAppController.callbacks sid uid render) evs w)
        = (emitted w ++ added)%list
        /\ Forall (fun e => room e = "user:" ++ uid) added)
  /\ (forall client getChats w,
        (forall d, session_of w sid = Some d -> SessionDoc.userId d = uid) ->
        exists added,
          emitted (exec (startBackgroundSync sid client uid getChats) w)
          = (emitted w ++ added)%list
          /\ Forall (fun e => room e = "user:" ++ uid) added).
Proof.
  split; [|split].
  - intros evs w. apply publishes_into_run_events. intros ev.
    apply publishes_into_dispatch; simpl; intros; discriminate.
  - intros render evs w. apply publishes_into_run_events. intros ev.
    apply publishes_into_dispatch; simpl.
    + intros f qr [= <-]. apply publishes_into_emitToUser.
    + intros m [= <-]. apply publishes_into_emitToUser.
    + intros m [= <-]. apply publishes_into_emitToUser.
  - intros client getChats w Howner.
    destruct (session_of w sid) as [d|] eqn:Hd.
    2: { unfold exec. rewrite (startBackgroundSync_no_record w sid client uid getChats Hd).
         exists []. by rewrite app_nil_r. }
    specialize (Howner d eq_refl).
    assert (Session.has_sessionId sid d = true) as Hkey
      by (unfold session_of in Hd; by apply find_some in Hd as [_ ?]).
    destruct getChats as [chats|e].
    + (* the body returns, so the failure handler does not run *)
      unfold exec, startBackgroundSync, try_catch.
      match goal with |- context [match ?b w with _ => _ end] =>
        assert (publishes_into ("user:" ++ uid) b) as Hpub;
        [|assert (returns b) as Hret] end.
      * apply publishes_into_bind; [by apply publishes_into_quiet|]. intros [s|];
          [|apply publishes_into_ret].
        apply publishes_into_bind; [apply publishes_into_session_update|]. intros _.
        apply publishes_into_bind; [apply publishes_into_emitToUser|]. intros _.
        apply publishes_into_bind; [by apply publishes_into_quiet|]. intros chats'.
        apply publishes_into_bind; [apply publishes_into_logger|]. intros _.
        apply publishes_into_bind; [apply publishes_into_sync_chats|]. intros _.
        apply publishes_into_bind; [by apply publishes_into_quiet|]. intros t.
        apply publishes_into_bind; [apply publishes_into_session_update|]. intros _.
        apply publishes_into_bind; [apply publishes_into_emitToUser|]. intros _.
        apply publishes_into_logger.
      * apply returns_bind; [intros w0; by eexists|]. intros [s|]; [|apply returns_ret].
        apply returns_bind; [intros w0; by eexists|]. intros _.
        apply returns_bind; [intros w0; eexists; apply emitToUser_fields|]. intros _.
        apply returns_bind; [intros w0; by eexists|]. intros chats'.
        apply returns_bind; [apply returns_logger|]. intros _.
        apply returns_bind; [intros w0; eexists; apply sync_chats_store|]. intros _.
        apply returns_bind; [intros w0; by eexists|]. intros t.
        apply returns_bind; [intros w0; by eexists|]. intros _.
        apply returns_bind; [intros w0; eexists; apply emitToUser_fields|]. intros _.
        apply returns_logger.
      * destruct (Hpub w) as (added & H1 & H2). destruct (Hret w) as [a Ha].
        match goal with |- context [match ?b w with _ => _ end] =>
          destruct (b w) as [r w1] end.
        simpl in *. subst r. by exists added.
    + unfold exec, startBackgroundSync, Session.findOne, Session.findOneAndUpdate,
        SocketManager.emitSyncProgress, SocketManager.emitSessionStatus,
        SocketManager.emitToUser, now, session_of in *.
      destruct w as [cfg clk ss cs ms nid reg io0 em lg sl pi]. simpl in Hd.
      munfold. wsimpl. rewrite Hd. simpl.
      destruct io0; simpl.
      * rewrite find_update_first_same by done. rewrite Hd. simpl.
        eexists [_; _]. rewrite <- app_assoc. split; [done|].
        repeat constructor; simpl; by rewrite ?Howner.
      * rewrite find_update_first_same by done. rewrite Hd. simpl.
        exists []. by rewrite app_nil_r.
Qed.
End Rooms.

(** ** What one event publishes *)

Section Published.
Import SessionManager.

Lemma published_app w w' added :
  emitted w' = (emitted w ++ added)%list -> published w w' = added.
Proof. intros H. unfold published. by rewrite H, drop_app_length. Qed.

(** X11. With an initialised Socket.IO server one [qr] event of a
    session created through the HTTP controller publishes two [qr_code]
    events, the raw pairing string from the orchestrator and then the
    rendered image from the controller's callback, and one [ready] event
    publishes [session_status] READY twice; a restored session, which has
    no callbacks, publishes each of them once. *)
Theorem controller_sessions_publish_twice sid uid render qr wid_user w :
  io w = true ->
  published w (exec (on_qr sid uid (WhatsAppController.callbacks sid uid render) qr) w)
    = [qr_emission sid uid qr; qr_emission sid uid (render qr)]
  /\ published w (exec (on_ready sid uid (WhatsAppController.callbacks sid uid render)
                          wid_user) w)
     = [status_emission sid uid READY; status_emission sid uid READY]
  /\ published w (exec (on_qr sid uid no_callbacks qr) w) = [qr_emission sid uid qr]
  /\ published w (exec (on_ready sid uid no_callbacks wid_user) w)
     = [status_emission sid uid READY].
Proof.
  intros Hio.
  destruct w as [cfg clk ss cs ms nid reg io0 em lg sl pi]. simpl in Hio. subst io0.
  repeat split; apply published_app;
    unfold exec, on_qr, on_ready, SocketManager.emitQRCode, SocketManager.emitSessionStatus,
      SocketManager.emitToUser, Session.findOneAndUpdate, call; munfold; wsimpl;
    rewrite <- ?app_assoc; reflexivity.
Qed.

Lemma controller_sessions_publish_twice_witness :
  io (world_s1 INITIALIZING) = true
  /\ status_events
       (exec (on_ready "s1" "u1" (WhatsAppController.callbacks "s1" "u1" (fun qr => qr))
                "15550001") (world_s1 INITIALIZING)) "s1" = [READY; READY].
Proof.
  split; [reflexivity|].
  destruct (controller_sessions_publish_twice "s1" "u1" (fun qr => qr) "ABC" "15550001"
              (world_s1 INITIALIZING) eq_refl) as (_ & H & _).
  unfold published in H.
  change (emitted (world_s1 INITIALIZING)) with (@nil Emission) in H.
  change (drop (length (@nil Emission)) ?l) with l in H.
  unfold status_events. rewrite H. vm_compute. reflexivity.
Defined.

(** X12. A session whose creation was answered with success and
    whose client then fails to initialise ends up FAILED without a handle:
    [createSession] returns the identifier and registers the handle, and
    when the promise of [client.initialize()] rejects afterwards the
    record is marked FAILED, the handle is dropped, and nothing at all is
    published. *)
Theorem created_session_fails_silently w uid cbs gen e :
  activeSessionsCount w uid < maxSessionsPerUser (config w) ->
  session_of w gen = None ->
  pendingInitialize w = [] ->
  let w1 := exec (createSession uid cbs gen (Ok tt) (Throw e)) w in
  let w2 := exec drain_initialize w1 in
  outcome (createSession uid cbs gen (Ok tt) (Throw e)) w
    = Ok (gen, session_doc uid gen INITIALIZING)
  /\ outcome (getSession gen) w1 = Ok (Some {| clientId := gen |})
  /\ outcome drain_initialize w1 = Ok tt
  /\ status_of w2 gen = Some FAILED
  /\ outcome (getSession gen) w2 = Ok None
  /\ emitted w2 = emitted w
  /\ pendingInitialize w2 = [].
Proof.
  intros Hlt Hfresh Hpend w1 w2.
  destruct (createSession_below_limit_cases w uid cbs gen (Ok tt) (Throw e) Hlt)
    as [_ Hcreate].
  destruct (Hcreate Hfresh) as (Hc & Ho & Hs & Hp). fold w1 in Hc, Hs, Hp.
  assert (emitted w1 = emitted w) as Hem.
  { subst w1. unfold exec, createSession, Session.getActiveSessionsCount,
      Session.create, initializeClient, sessions_set.
    munfold. simpl. destruct (bool_decide _); [done|]. wsimpl.
    destruct (existsb _ _); done. }
  split; [exact Ho|].
  split.
  { unfold outcome, getSession, sessions_get. munfold. simpl.
    by rewrite Hs, lookup_insert_eq. }
  subst w2. unfold outcome, exec, drain_initialize. munfold. wsimpl.
  rewrite Hp, Hpend. simpl.
  unfold initialize_catch, sessions_delete, Session.findOneAndUpdate, getSession,
    sessions_get. munfold. wsimpl.
  split; [done|]. split.
  { unfold status_of, session_of. wsimpl. rewrite Hc.
    rewrite find_update_first_same by done.
    rewrite find_app. fold (session_of w gen). rewrite Hfresh. simpl.
    unfold Session.has_sessionId. simpl. by rewrite bool_decide_eq_true_2. }
  split; [by rewrite lookup_delete_eq|]. done.
Qed.

Lemma created_session_fails_silently_witness :
  activeSessionsCount world0 "u1" < maxSessionsPerUser (config world0)
  /\ session_of world0 "s9" = None
  /\ pendingInitialize world0 = []
  /\ outcome (createSession "u1" no_callbacks "s9" (Ok tt) (Throw boom)) world0
     = Ok ("s9", session_doc "u1" "s9" INITIALIZING)
  /\ status_of (exec drain_initialize
                  (exec (createSession "u1" no_callbacks "s9" (Ok tt) (Throw boom)) world0))
       "s9" = Some FAILED
  /\ emitted (exec drain_initialize
                (exec (createSession "u1" no_callbacks "s9" (Ok tt) (Throw boom)) world0))
     = [].
Proof.
  assert (activeSessionsCount world0 "u1" < maxSessionsPerUser (config world0)) as Hlt
    by (vm_compute; reflexivity).
  split; [exact Hlt|]. split; [reflexivity|]. split; [reflexivity|].
  destruct (created_session_fails_silently world0 "u1" no_callbacks "s9" boom
              Hlt eq_refl eq_refl) as (H1 & _ & _ & H4 & _ & H6 & _).
  split; [exact H1|]. split; [exact H4|exact H6].
Defined.
End Published.

(** ** The global error handler *)

Section ErrorHandlerFacts.
Import ErrorHandler.

(** X13. [errorHandler] always answers with [success: false] and
    no data, logs once and changes nothing else. For an error that is not
    an [AppError] the answer carries one of five fixed pairs of status and
    message, never the error's own message; an [AppError] as its
    constructor builds it is answered with its own status code and
    message; the name checks come last, so an error named
    [TokenExpiredError] is answered 401 even when it is an [AppError]; and
    the stack is sent only when NODE_ENV is [development]. *)
Theorem errorHandler_answers err nodeEnv w :
  exists c body,
    outcome (errorHandler err nodeEnv) w = Ok (Json c body)
    /\ exec (errorHandler err nodeEnv) w
       = with_logged (logged w ++ [(LError, "Error occurred")]) w
    /\ ApiResponse.success body = false
    /\ ApiResponse.data body = None
    /\ ApiResponse.error body
       = (if bool_decide (nodeEnv = Some "development") then stack err else None)
    /\ (appStatusCode err = None ->
        (c, ApiResponse.message body)
          ∈ [(500, "Internal server error"); (400, "Validation error");
             (409, "Duplicate entry"); (401, "Invalid token"); (401, "Token expired")])
    /\ (forall m sc st, err = AppError m sc st ->
          c = default 500 sc /\ ApiResponse.message body = m)
    /\ (name err = "TokenExpiredError" -> c = 401 /\ ApiResponse.message body = "Token expired").
Proof.
  unfold outcome, exec, errorHandler. munfold.
  destruct (appStatusCode err) as [sc|] eqn:Happ;
    destruct (bool_decide (name err = "ValidationError")) eqn:E1;
    destruct (bool_decide (name err = "MongoError") && bool_decide (code err = Some 11000)) eqn:E2;
    destruct (bool_decide (name err = "JsonWebTokenError")) eqn:E3;
    destruct (bool_decide (name err = "TokenExpiredError")) eqn:E4;
    simpl; eexists _, _; (split; [reflexivity|]); (split; [reflexivity|]); simpl;
    (split; [reflexivity|]); (split; [reflexivity|]); (split; [reflexivity|]);
    (split; [first [discriminate | intros _; set_solver]|]);
    (split;
     [intros m sc' st ->; simpl in *;
      try discriminate; try (injection Happ as <-); done
     |intros Hn; rewrite Hn in *; simpl in *; try discriminate; done]).
Qed.
End ErrorHandlerFacts.

(** ** Request validation *)

Section Validation.
Implicit Types (js : Coercions) (rule : ValidationRule.t) (req : Request).

Lemma validate_Next js rules req :
  validate js rules req = Next tt
  <-> forall rule, rule ∈ rules -> rule_errors js rule (request_data req) = [].
Proof.
  unfold validate.
  set (errors := flat_map (fun rule => rule_errors js rule (request_data req)) rules).
  assert (errors = [] <-> forall rule, rule ∈ rules ->
                            rule_errors js rule (request_data req) = []) as Hall.
  { subst errors. induction rules as [|r rules IH]; simpl.
    - split; [intros _ rule Hin; by apply elem_of_nil in Hin|done].
    - split.
      + intros [H1 H2]%app_eq_nil rule [->|Hin]%elem_of_cons; [done|by apply IH].
      + intros H. rewrite (H r) by (by left). simpl. apply IH. intros rule Hin.
        apply H. by right. }
  rewrite <- Hall. destruct errors as [|e errors].
  - by rewrite bool_decide_eq_false_2 by (simpl; lia).
  - rewrite bool_decide_eq_true_2 by (simpl; lia). split; discriminate.
Qed.

Lemma member_request_data req f :
  member (request_data req) f
  = match params req !! f with
    | Some v => v
    | None => match query req !! f with
              | Some v => v
              | None => default JUndefined (body req !! f)
              end
    end.
Proof.
  unfold member, request_data.
  destruct (params req !! f) as [v|] eqn:Hp.
  - by rewrite (lookup_union_Some_l _ _ _ _ Hp).
  - rewrite lookup_union_r by done.
    destruct (query req !! f) as [v|] eqn:Hq.
    + by rewrite (lookup_union_Some_l _ _ _ _ Hq).
    + by rewrite lookup_union_r.
Qed.

(** X14. When [validate(rules)] hands the request on, every rule
    is met by the merged request data: a required member is present and is
    neither [null] nor the empty string, and a member that is present has
    the type its rule names (string, boolean, array, object) and a length
    within the bounds of the rule. When it does not, the request is
    answered with status 400, the message [Validation failed] and the
    messages of the failed checks joined by a comma, in the order of the
    rules. *)
Theorem validate_hands_on_only_valid_requests js rules req :
  (validate js rules req = Next tt ->
   forall rule, rule ∈ rules ->
     let value := member (request_data req) (ValidationRule.field rule) in
     (ValidationRule.required rule = true ->
        is_nullish value = false /\ is_empty_string value = false)
     /\ (is_nullish value = false ->
           (ValidationRule.type rule = Some TString -> exists s, value = JString s)
           /\ (ValidationRule.type rule = Some TBoolean -> exists b, value = JBool b)
           /\ (ValidationRule.type rule = Some TArray -> exists items, value = JArray items)
           /\ (ValidationRule.type rule = Some TObject ->
                 exists members, value = JObject members)
           /\ (forall s n, value = JString s -> ValidationRule.minLength rule = Some n ->
                 n <> 0 -> n <= Z.of_nat (String.length s))
           /\ (forall s n, value = JString s -> ValidationRule.maxLength rule = Some n ->
                 n <> 0 -> Z.of_nat (String.length s) <= n)))
  /\ (validate js rules req <> Next tt ->
      validate js rules req
      = Respond (Json 400
          {| ApiResponse.success := false; ApiResponse.message := "Validation failed";
             ApiResponse.data := None;
             ApiResponse.error :=
               Some (join ", "
                       (flat_map (fun rule => rule_errors js rule (request_data req))
                          rules)) |})).
Proof.
  split.
  - intros Hnext rule Hin value.
    pose proof (proj1 (validate_Next js rules req) Hnext rule Hin) as Hrule.
    unfold rule_errors in Hrule. fold value in Hrule.
    split.
    + intros Hreq. rewrite Hreq in Hrule. simpl in Hrule.
      destruct (is_nullish value), (is_empty_string value); simpl in Hrule;
        try discriminate; done.
    + intros Hval. rewrite Hval, orb_false_l, andb_false_r in Hrule.
      destruct (ValidationRule.required rule && is_empty_string value); [discriminate|].
      apply app_eq_nil in Hrule as [Htype Hrule].
      apply app_eq_nil in Hrule as [Hlen _].
      repeat split.
      * intros Ht. rewrite Ht in Htype. simpl in Htype.
        destruct value; simpl in *; try discriminate. by eexists.
      * intros Ht. rewrite Ht in Htype. simpl in Htype.
        destruct value; simpl in *; try discriminate. by eexists.
      * intros Ht. rewrite Ht in Htype. simpl in Htype.
        destruct value; simpl in *; try discriminate. by eexists.
      * intros Ht. rewrite Ht in Htype. simpl in Htype.
        destruct value; simpl in *; try discriminate. by eexists.
      * intros s n Hs Hmin Hn0. rewrite Hs in Hlen. simpl in Hlen.
        apply app_eq_nil in Hlen as [Hlen _]. unfold minLength_errors in Hlen.
        rewrite Hmin in Hlen. rewrite (bool_decide_eq_false_2 _ Hn0) in Hlen.
        simpl in Hlen. case_bool_decide; [discriminate|lia].
      * intros s n Hs Hmax Hn0. rewrite Hs in Hlen. simpl in Hlen.
        apply app_eq_nil in Hlen as [_ Hlen]. unfold maxLength_errors in Hlen.
        rewrite Hmax in Hlen. rewrite (bool_decide_eq_false_2 _ Hn0) in Hlen.
        simpl in Hlen. case_bool_decide; [discriminate|lia].
  - unfold validate. case_bool_decide as Herr; [done|]. intros Hne. by destruct Hne.
Qed.

(** X15. The rule the routes use for a mandatory text member,
    [{ field, required: true, type: 'string', minLength }], accepts
    exactly the requests whose merged data hold a non-empty string of at
    least [minLength] characters under that name (a bound of 0 asks
    nothing); the value it looks at is the route parameter of that name
    when there is one, else the member of the query string, else the
    member of the body. *)
Theorem required_string_rule_accepts js f minLength req :
  (validate js [rule_required_string f minLength] req = Next tt
   <-> exists s, member (request_data req) f = JString s
         /\ s <> ""
         /\ match minLength with
            | Some n => n = 0 \/ n <= Z.of_nat (String.length s)
            | None => True
            end)
  /\ member (request_data req) f
     = match params req !! f with
       | Some v => v
       | None => match query req !! f with
                 | Some v => v
                 | None => default JUndefined (body req !! f)
                 end
       end.
Proof.
  split; [|apply member_request_data].
  rewrite validate_Next. split.
  - intros H. specialize (H _ ltac:(by apply list_elem_of_singleton)).
    unfold rule_errors in H. simpl in H.
    destruct (member (request_data req) f) as [| |b|x|s|items|members]; simpl in H;
      try discriminate.
    exists s. split; [done|]. case_bool_decide as Hs; [discriminate|]. simpl in H.
    split; [done|]. unfold minLength_errors, maxLength_errors in H. simpl in H.
    destruct minLength as [n|]; [|done].
    destruct (decide (n = 0)) as [->|Hn]; [by left|right].
    rewrite (bool_decide_eq_false_2 _ Hn) in H. simpl in H.
    case_bool_decide; [discriminate|lia].
  - intros (s & Hs & Hne & Hlen) rule ->%list_elem_of_singleton.
    unfold rule_errors. simpl. rewrite Hs. simpl.
    rewrite (bool_decide_eq_false_2 _ Hne). simpl.
    unfold minLength_errors, maxLength_errors. simpl.
    destruct minLength as [n|]; [|done].
    destruct Hlen as [->|Hlen]; [done|].
    case_bool_decide; simpl; [done|]. by rewrite bool_decide_eq_false_2 by lia.
Qed.
End Validation.

(** ** The authentication middleware *)

Section Authentication.
Import AuthMiddleware.
Implicit Types (jwt_verify : string -> result UserPayload.t).

Lemma split_nonempty sep s : split sep s <> [].
Proof.
  destruct s as [|c s]; simpl; [done|].
  destruct (Ascii.eqb c sep); [done|]. by destruct (split sep s).
Qed.

Lemma split_cons_other sep c s :
  Ascii.eqb c sep = false ->
  split sep (String c s)
  = String c (List.hd "" (split sep s)) :: List.tl (split sep s).
Proof.
  intros H. simpl. rewrite H. pose proof (split_nonempty sep s).
  by destruct (split sep s).
Qed.

(** The header [Bearer <rest>]: the second element of the split is the
    part of [rest] before its first space. *)
Lemma split_bearer rest :
  split " " ("Bearer " ++ rest) !! 1%nat = Some (List.hd "" (split " " rest)).
Proof.
  change ("Bearer " ++ rest)
    with (String "B" (String "e" (String "a" (String "r" (String "e" (String "r"
            (String " " rest))))))).
  rewrite !split_cons_other by reflexivity.
  change (split " " (String " " rest)) with ("" :: split " " rest). simpl.
  pose proof (split_nonempty " " rest). by destruct (split " " rest).
Qed.

Lemma split_no_separator sep s :
  (forall c, In c (list_ascii_of_string s) -> Ascii.eqb c sep = false) ->
  split sep s = [s].
Proof.
  induction s as [|c s IH]; simpl; [done|]. intros H.
  rewrite (H c) by (by left). rewrite IH; [done|]. intros c' Hc'. apply H. by right.
Qed.

Lemma prefix_app s1 s2 :
  String.prefix s1 s2 = true <-> exists rest, s2 = s1 ++ rest.
Proof.
  revert s2. induction s1 as [|a s1 IH]; intros s2.
  - destruct s2; simpl; split; eauto.
  - destruct s2 as [|b s2]; simpl.
    + split; [discriminate|]. by intros [rest ?].
    + destruct (ascii_dec a b) as [->|Hne].
      * rewrite IH. split; intros [rest Hrest]; exists rest;
          change (String b s1 ++ rest) with (String b (s1 ++ rest)) in *; congruence.
      * split; [discriminate|]. intros [rest Hrest].
        change (String a s1 ++ rest) with (String a (s1 ++ rest)) in Hrest. congruence.
Qed.

Lemma prefix_bearer h :
  String.prefix "Bearer " h = true <-> exists rest, h = "Bearer " ++ rest.
Proof. apply prefix_app. Qed.

Lemma no_bearer_false authorization :
  no_bearer authorization = false <-> exists rest, authorization = Some ("Bearer " ++ rest).
Proof.
  destruct authorization as [h|]; simpl.
  - rewrite orb_false_iff, negb_false_iff, prefix_bearer. split.
    + intros [_ [rest ->]]. by exists rest.
    + intros [rest [= ->]]. split; [|by exists rest]. by apply bool_decide_eq_false_2.
  - split; [discriminate|]. by intros [rest ?].
Qed.

(** X16. [authenticate] hands a request on exactly when its
    Authorization header is [Bearer ] followed by a token that
    [jwt.verify] accepts, the token being what stands between the first
    and the second space of the header, and then [req.user] is the
    decoded payload; every other request is answered 401 ([No token
    provided] without such a header, [Invalid or expired token]
    otherwise). It never throws and changes nothing. *)
Theorem authenticate_accepts_verified_tokens jwt_verify authorization w :
  exec (authenticate jwt_verify authorization) w = w
  /\ (forall payload,
        outcome (authenticate jwt_verify authorization) w = Ok (Next payload)
        <-> exists rest, authorization = Some ("Bearer " ++ rest)
              /\ jwt_verify (List.hd "" (split " " rest)) = Ok payload)
  /\ ((forall rest, authorization <> Some ("Bearer " ++ rest)) ->
      outcome (authenticate jwt_verify authorization) w
      = Ok (Respond (ResponseUtil.unauthorized (Some "No token provided"))))
  /\ (forall rest e,
        authorization = Some ("Bearer " ++ rest) ->
        jwt_verify (List.hd "" (split " " rest)) = Throw e ->
        outcome (authenticate jwt_verify authorization) w
        = Ok (Respond (ResponseUtil.unauthorized (Some "Invalid or expired token"))))
  /\ (forall token payload,
        (forall c, In c (list_ascii_of_string token) -> Ascii.eqb c " " = false) ->
        jwt_verify token = Ok payload ->
        outcome (authenticate jwt_verify (Some ("Bearer " ++ token))) w = Ok (Next payload)).
Proof.
  assert (forall rest,
            authenticate jwt_verify (Some ("Bearer " ++ rest)) w
            = match jwt_verify (List.hd "" (split " " rest)) with
              | Ok payload => (Ok (Next payload), w)
              | Throw _ =>
                  (Ok (Respond (ResponseUtil.unauthorized (Some "Invalid or expired token"))), w)
              end) as Hbearer.
  { intros rest. unfold authenticate.
    rewrite (proj2 (no_bearer_false (Some ("Bearer " ++ rest)))) by (by exists rest).
    change (default "" (Some ("Bearer " ++ rest))) with ("Bearer " ++ rest).
    rewrite split_bearer. unfold TokenService.verifyToken. munfold. simpl.
    by destruct (jwt_verify _). }
  assert ((forall rest, authorization <> Some ("Bearer " ++ rest)) ->
          authenticate jwt_verify authorization w
          = (Ok (Respond (ResponseUtil.unauthorized (Some "No token provided"))), w)) as Hnone.
  { intros Hno. unfold authenticate.
    destruct (no_bearer authorization) eqn:E.
    - reflexivity.
    - apply no_bearer_false in E as [rest ->]. by destruct (Hno rest). }
  assert ((exists rest, authorization = Some ("Bearer " ++ rest))
          \/ (forall rest, authorization <> Some ("Bearer " ++ rest))) as Hcase.
  { destruct (no_bearer authorization) eqn:E.
    - right. intros rest Hrest.
      assert (no_bearer authorization = false) as E' by (apply no_bearer_false; by exists rest).
      congruence.
    - left. by apply no_bearer_false. }
  split; [|split; [|split; [|split]]].
  - unfold exec. destruct Hcase as [[rest ->]|Hno].
    + rewrite Hbearer. by destruct (jwt_verify _).
    + by rewrite Hnone.
  - intros payload. unfold outcome. split.
    + destruct Hcase as [[rest ->]|Hno].
      * rewrite Hbearer. destruct (jwt_verify _) eqn:E; simpl; intros [= <-].
        by exists rest.
      * rewrite Hnone by done. simpl. discriminate.
    + intros (rest & -> & Hv). by rewrite Hbearer, Hv.
  - intros Hno. unfold outcome. by rewrite Hnone.
  - intros rest e -> Hv. unfold outcome. by rewrite Hbearer, Hv.
  - intros token payload Hsp Hv. unfold outcome. rewrite Hbearer.
    rewrite (split_no_separator " " token Hsp). simpl. by rewrite Hv.
Qed.

(** X17. [optionalAuth] never answers a request itself: it always
    hands it on, with a user attached exactly when the header is
    [Bearer ] followed by a token that [jwt.verify] accepts, and without a
    user otherwise; it changes nothing. *)
Theorem optionalAuth_always_hands_on jwt_verify authorization w :
  exec (optionalAuth jwt_verify authorization) w = w
  /\ (exists user, outcome (optionalAuth jwt_verify authorization) w = Ok (Next user))
  /\ (forall payload,
        outcome (optionalAuth jwt_verify authorization) w = Ok (Next (Some payload))
        <-> outcome (authenticate jwt_verify authorization) w = Ok (Next payload)).
Proof.
  unfold exec, outcome, optionalAuth, authenticate.
  destruct (no_bearer authorization) eqn:E; simpl.
  - split; [done|]. split; [by eexists|]. intros payload. split; discriminate.
  - unfold TokenService.verifyToken. munfold.
    destruct (split " " (default "" authorization) !! 1%nat) as [token|]; simpl.
    + destruct (jwt_verify token); simpl.
      * split; [done|]. split; [by eexists|]. intros payload.
        split; intros [= <-]; done.
      * split; [done|]. split; [by eexists|]. intros payload. split; discriminate.
    + split; [done|]. split; [by eexists|]. intros payload. split; discriminate.
Qed.
End Authentication.

(** ** The sockets of a user *)

Section Sockets.
Import SocketConnections.

Lemma bool_decide_union (s s' : string) (X : gset string) :
  bool_decide (s ∈ X ∪ {[s']}) = bool_decide (s' = s) || bool_decide (s ∈ X).
Proof.
  apply eq_true_iff_eq.
  rewrite orb_true_iff, !bool_decide_eq_true, elem_of_union, elem_of_singleton.
  split; intros [?|?]; auto.
Qed.

Lemma bool_decide_difference (s s' : string) (X : gset string) :
  bool_decide (s ∈ X ∖ {[s']}) = negb (bool_decide (s' = s)) && bool_decide (s ∈ X).
Proof.
  apply eq_true_iff_eq.
  rewrite andb_true_iff, negb_true_iff, bool_decide_eq_false, !bool_decide_eq_true,
    elem_of_difference, elem_of_singleton.
  split; intros [? ?]; split; auto.
Qed.

Lemma union_singleton_nonempty (X : gset string) s : X ∪ {[s]} <> ∅.
Proof.
  intros H. assert (s ∈ (∅ : gset string)) as Hin
    by (rewrite <- H; apply elem_of_union; right; by apply elem_of_singleton).
  by apply elem_of_empty in Hin.
Qed.

Lemma handle_result nodeEnv ev c w :
  exists c', fst (handle nodeEnv ev c w) = Ok c'
    /\ c' = match ev with
            | Connection s u =>
                with_userSockets
                  (<[u := sockets_of c u ∪ {[s]}]> (userSockets c))
                  (socket_join (s, u) ("user:" ++ u) c)
            | Disconnect s u =>
                with_userSockets
                  (match userSockets c !! u with
                   | Some sockets =>
                       if bool_decide (size (sockets ∖ {[s]}) = 0%nat)
                       then delete u (userSockets c)
                       else <[u := sockets ∖ {[s]}]> (userSockets c)
                   | None => userSockets c
                   end) c
            | JoinSession s u sessionId => socket_join (s, u) ("session:" ++ sessionId) c
            | LeaveSession s u sessionId => socket_leave (s, u) ("session:" ++ sessionId) c
            end.
Proof.
  destruct ev as [s u|s u|s u sessionId|s u sessionId]; simpl.
  - unfold on_connection. munfold. simpl. eexists. split; [reflexivity|].
    unfold with_userSockets, sockets_of. simpl. f_equal.
    destruct (userSockets c !! u) as [sockets|] eqn:Hu; simpl.
    + by rewrite ?Hu.
    + rewrite ?lookup_insert_eq, ?insert_insert_eq. done.
  - unfold on_disconnect. munfold. simpl. eexists. split; [reflexivity|].
    unfold with_userSockets. f_equal.
    destruct (userSockets c !! u) as [sockets|] eqn:Hu; simpl.
    + rewrite lookup_insert_eq. case_bool_decide; [|done].
      by rewrite delete_insert_eq.
    + by rewrite Hu.
  - unfold on_join_session, logger_debug. munfold.
    case_bool_decide; simpl; by eexists.
  - unfold on_leave_session, logger_debug. munfold.
    case_bool_decide; simpl; by eexists.
Qed.

Lemma run_cons nodeEnv ev evs c w :
  run nodeEnv (ev :: evs) c w
  = match handle nodeEnv ev c w with
    | (Ok c', w') => run nodeEnv evs c' w'
    | (Throw e, w') => (Throw e, w')
    end.
Proof. reflexivity. Qed.

Lemma sockets_of_handle c u ev :
  let c' := match ev with
            | Connection s' u' =>
                with_userSockets
                  (<[u' := sockets_of c u' ∪ {[s']}]> (userSockets c))
                  (socket_join (s', u') ("user:" ++ u') c)
            | Disconnect s' u' =>
                with_userSockets
                  (match userSockets c !! u' with
                   | Some sockets =>
                       if bool_decide (size (sockets ∖ {[s']}) = 0%nat)
                       then delete u' (userSockets c)
                       else <[u' := sockets ∖ {[s']}]> (userSockets c)
                   | None => userSockets c
                   end) c
            | JoinSession s' u' sessionId => socket_join (s', u') ("session:" ++ sessionId) c
            | LeaveSession s' u' sessionId => socket_leave (s', u') ("session:" ++ sessionId) c
            end in
  sockets_of c' u
  = match ev with
    | Connection s' u' => if bool_decide (u' = u) then sockets_of c u ∪ {[s']} else sockets_of c u
    | Disconnect s' u' => if bool_decide (u' = u) then sockets_of c u ∖ {[s']} else sockets_of c u
    | _ => sockets_of c u
    end
  /\ ((forall v, userSockets c !! v <> Some ∅) -> forall v, userSockets c' !! v <> Some ∅).
Proof.
  destruct ev as [s' u'|s' u'|s' u' sessionId|s' u' sessionId]; simpl; [| |done|done].
  - unfold sockets_of. simpl. split.
    + case_bool_decide as Hu.
      * subst u'. by rewrite lookup_insert_eq.
      * by rewrite lookup_insert_ne.
    + intros Hinv v. destruct (decide (u' = v)) as [->|Hv].
      * rewrite lookup_insert_eq. intros Hsome.
        assert (default ∅ (userSockets c !! v) ∪ {[s']} = (∅ : gset string)) as Hempty
          by congruence.
        by apply union_singleton_nonempty in Hempty.
      * rewrite lookup_insert_ne by done. apply Hinv.
  - unfold sockets_of. simpl.
    destruct (userSockets c !! u') as [sockets|] eqn:Hu'.
    + case_bool_decide as Hsize.
      * apply size_empty_iff, leibniz_equiv in Hsize. split.
        -- case_bool_decide as Hu.
           ++ subst u'. rewrite lookup_delete_eq, Hu'. simpl. by rewrite Hsize.
           ++ by rewrite lookup_delete_ne.
        -- intros Hinv v. destruct (decide (u' = v)) as [->|Hv].
           ++ by rewrite lookup_delete_eq.
           ++ rewrite lookup_delete_ne by done. apply Hinv.
      * split.
        -- case_bool_decide as Hu.
           ++ subst u'. by rewrite lookup_insert_eq, Hu'.
           ++ by rewrite lookup_insert_ne.
        -- intros Hinv v. destruct (decide (u' = v)) as [->|Hv].
           ++ rewrite lookup_insert_eq. intros Hsome. apply Hsize.
              assert (sockets ∖ {[s']} = (∅ : gset string)) as -> by congruence.
              apply size_empty.
           ++ rewrite lookup_insert_ne by done. apply Hinv.
    + split; [|done]. case_bool_decide as Hu; [|done]. subst u'. rewrite Hu'. simpl.
      symmetry. apply (difference_disjoint_L (C := gset string)).
      apply disjoint_empty_l.
Qed.

Lemma run_userSockets nodeEnv evs c w :
  exists c', fst (run nodeEnv evs c w) = Ok c'
    /\ ((forall v, userSockets c !! v <> Some ∅) -> forall v, userSockets c' !! v <> Some ∅)
    /\ (forall u s, s ∈ sockets_of c' u
                    <-> connected evs s u (bool_decide (s ∈ sockets_of c u)) = true).
Proof.
  revert c w. induction evs as [|ev evs IH]; intros c w.
  - exists c. split; [done|]. split; [done|]. intros u s. simpl.
    by rewrite bool_decide_eq_true.
  - rewrite run_cons. destruct (handle_result nodeEnv ev c w) as (c1 & H1 & H2).
    destruct (handle nodeEnv ev c w) as [r w1]. simpl in H1. subst r.
    destruct (IH c1 w1) as (c' & I1 & I2 & I3). exists c'. split; [done|].
    split.
    + intros Hinv. apply I2. rewrite H2. by apply (sockets_of_handle c "" ev).
    + intros u s. rewrite I3.
      destruct (sockets_of_handle c u ev) as [Hs _]. rewrite <- H2 in Hs. rewrite Hs.
      destruct ev as [s' u'|s' u'|s' u' sessionId|s' u' sessionId]; simpl; try done.
      * case_bool_decide as Hu; [|done].
        by rewrite bool_decide_union.
      * case_bool_decide as Hu; [|done].
        by rewrite bool_decide_difference.
Qed.

Lemma rooms_of_handle c socket ev :
  let c' := match ev with
            | Connection s' u' =>
                with_userSockets
                  (<[u' := sockets_of c u' ∪ {[s']}]> (userSockets c))
                  (socket_join (s', u') ("user:" ++ u') c)
            | Disconnect s' u' =>
                with_userSockets
                  (match userSockets c !! u' with
                   | Some sockets =>
                       if bool_decide (size (sockets ∖ {[s']}) = 0%nat)
                       then delete u' (userSockets c)
                       else <[u' := sockets ∖ {[s']}]> (userSockets c)
                   | None => userSockets c
                   end) c
            | JoinSession s' u' sessionId => socket_join (s', u') ("session:" ++ sessionId) c
            | LeaveSession s' u' sessionId => socket_leave (s', u') ("session:" ++ sessionId) c
            end in
  forall room, room ∈ rooms_of c' socket ->
    room ∈ rooms_of c socket
    \/ room = "user:" ++ snd socket
    \/ exists sessionId, room = "session:" ++ sessionId.
Proof.
  destruct ev as [s' u'|s' u'|s' u' sessionId|s' u' sessionId]; simpl; intros room;
    unfold rooms_of; simpl; [| by left | |].
  - destruct (decide ((s', u') = socket)) as [<-|Hne].
    + rewrite lookup_insert_eq. simpl. intros [?| ->%elem_of_singleton]%elem_of_union;
        [by left|right; by left].
    + rewrite lookup_insert_ne by done. by left.
  - destruct (decide ((s', u') = socket)) as [<-|Hne].
    + rewrite lookup_insert_eq. simpl. intros [?| ->%elem_of_singleton]%elem_of_union;
        [by left|right; right; by eexists].
    + rewrite lookup_insert_ne by done. by left.
  - destruct (decide ((s', u') = socket)) as [<-|Hne].
    + rewrite lookup_insert_eq. simpl. intros [? _]%elem_of_difference. by left.
    + rewrite lookup_insert_ne by done. by left.
Qed.

Lemma run_rooms nodeEnv evs c w :
  exists c', fst (run nodeEnv evs c w) = Ok c'
    /\ forall socket room, room ∈ rooms_of c' socket ->
         room ∈ rooms_of c socket
         \/ room = "user:" ++ snd socket
         \/ exists sessionId, room = "session:" ++ sessionId.
Proof.
  revert c w. induction evs as [|ev evs IH]; intros c w.
  - exists c. split; [done|]. intros socket room Hin. by left.
  - rewrite run_cons. destruct (handle_result nodeEnv ev c w) as (c1 & H1 & H2).
    destruct (handle nodeEnv ev c w) as [r w1]. simpl in H1. subst r.
    destruct (IH c1 w1) as (c' & I1 & I2). exists c'. split; [done|].
    intros socket room Hin. destruct (I2 socket room Hin) as [Hc1|Hother]; [|by right].
    rewrite H2 in Hc1. by apply (rooms_of_handle c socket ev).
Qed.

(** X18. [userSockets] lists, for every user, exactly the sockets
    of that user whose connection has not been followed by their
    disconnection, whatever the order of the connection, disconnection and
    room events; and it never keeps an entry with an empty set: the
    entry of a user is removed with the user's last socket. *)
Theorem userSockets_lists_the_connected_sockets nodeEnv evs w :
  exists c,
    outcome (run nodeEnv evs no_connections) w = Ok c
    /\ (forall userId, userSockets c !! userId <> Some ∅)
    /\ (forall userId socketId,
          socketId ∈ sockets_of c userId <-> connected evs socketId userId false = true).
Proof.
  destruct (run_userSockets nodeEnv evs no_connections w) as (c & H1 & H2 & H3).
  exists c. split; [exact H1|]. split.
  - apply H2. intros v. unfold no_connections. simpl. by rewrite lookup_empty.
  - intros u s. rewrite H3. unfold sockets_of, no_connections. simpl.
    rewrite lookup_empty. simpl. by rewrite bool_decide_eq_false_2 by apply not_elem_of_empty.
Qed.

Lemma user_room_inj a b : "user:" ++ a = "user:" ++ b -> a = b.
Proof.
  change ("user:" ++ a) with (String "u" (String "s" (String "e" (String "r" (String ":" a))))).
  change ("user:" ++ b) with (String "u" (String "s" (String "e" (String "r" (String ":" b))))).
  congruence.
Qed.

Lemma user_room_not_session a b : "user:" ++ a <> "session:" ++ b.
Proof.
  change ("user:" ++ a) with (String "u" (String "s" (String "e" (String "r" (String ":" a))))).
  change ("session:" ++ b)
    with (String "s" (String "e" (String "s" (String "s" (String "i" (String "o"
            (String "n" (String ":" b)))))))).
  congruence.
Qed.

(** X19. A socket is admitted only with a token that
    [jwt.verify] accepts, under the user identifier that token carries,
    and the handlers put it into one user room only, the one of that
    identifier: whatever [join_session] and [leave_session] requests it
    sends, every room it is in is [user:<its userId>] or a [session:]
    room, so it is never in the room of another user. *)
Theorem sockets_enter_only_their_own_user_room nodeEnv jwt_verify evs w :
  (forall token userId,
     handshake jwt_verify token = Ok userId ->
     exists t payload, token = Some t /\ t <> "" /\ jwt_verify t = Ok payload
       /\ userId = UserPayload.userId payload)
  /\ exists c,
       outcome (run nodeEnv evs no_connections) w = Ok c
       /\ (forall socketId userId room,
             room ∈ rooms_of c (socketId, userId) ->
             room = "user:" ++ userId \/ exists sessionId, room = "session:" ++ sessionId)
       /\ (forall socketId userId other,
             "user:" ++ other ∈ rooms_of c (socketId, userId) -> other = userId).
Proof.
  split.
  - intros token userId. unfold handshake, TokenService.verifyToken.
    destruct token as [t|]; [|discriminate].
    case_bool_decide as Ht; [discriminate|].
    destruct (jwt_verify t) as [payload|e] eqn:Hv; [|discriminate].
    intros [= <-]. by exists t, payload.
  - destruct (run_rooms nodeEnv evs no_connections w) as (c & H1 & H2).
    exists c. split; [exact H1|].
    assert (forall socketId userId room,
              room ∈ rooms_of c (socketId, userId) ->
              room = "user:" ++ userId \/ exists sessionId, room = "session:" ++ sessionId)
      as Hrooms.
    { intros s u room Hin. destruct (H2 (s, u) room Hin) as [Hempty|Hcase]; [|done].
      unfold rooms_of, no_connections in Hempty. simpl in Hempty.
      rewrite lookup_empty in Hempty. by apply elem_of_empty in Hempty. }
    split; [exact Hrooms|].
    intros s u other Hin. destruct (Hrooms s u _ Hin) as [Heq|[sessionId Heq]].
    + by apply user_room_inj.
    + by apply user_room_not_session in Heq.
Qed.
End Sockets.

(** ** Requests on a session *)

Section Ownership.

Lemma same_but_log_refl w : same_but_log w w.
Proof. unfold same_but_log. by destruct w. Qed.

Lemma same_but_log_logged w l : same_but_log w (with_logged l w).
Proof. reflexivity. Qed.

(** X20. The modelled routes on one session (read the record, fetch
    the QR code, disconnect, mark as read, count the unread messages,
    delete a message) serve the owner only. Without [req.user] each of
    them answers 401 and changes nothing; for a user who has no record
    under the session identifier, be it unknown or another user's, each
    answers 404 [Session not found], calls neither the SDK nor the
    teardown, and leaves the collections, the registry and the published
    events untouched (at most a log line is written). *)
Theorem routes_serve_the_owner_only user sessionId request w :
  owned_session w sessionId (UserPayload.userId user) = None ->
  (outcome (serve None sessionId request) w = Ok (ResponseUtil.unauthorized None)
   /\ exec (serve None sessionId request) w = w)
  /\ outcome (serve (Some user) sessionId request) w
     = Ok (ResponseUtil.notFound (Some "Session not found"))
  /\ same_but_log w (exec (serve (Some user) sessionId request) w).
Proof.
  intros Hforeign. unfold owned_session in Hforeign.
  destruct request; simpl;
    unfold outcome, exec, WhatsAppHandlers.getSession, WhatsAppHandlers.getQRCode,
      WhatsAppHandlers.disconnectSession, MessageController.markAsRead,
      MessageController.getUnreadCount, MessageController.deleteMessage,
      Queries.Session_findOne; munfold; wsimpl; rewrite Hforeign; simpl;
    (split; [done|]); (split; [done|]);
    first [apply same_but_log_refl | apply same_but_log_logged].
Qed.

Lemma routes_serve_the_owner_only_witness :
  owned_session (world_s1 READY) "s1" "u2" = None
  /\ outcome (serve (Some user2) "s1" (DisconnectSession (Ok tt))) (world_s1 READY)
     = Ok (ResponseUtil.notFound (Some "Session not found"))
  /\ status_of (exec (serve (Some user2) "s1" (DisconnectSession (Ok tt))) (world_s1 READY)) "s1"
     = Some READY.
Proof.
  split; [reflexivity|].
  destruct (routes_serve_the_owner_only user2 "s1" (DisconnectSession (Ok tt)) (world_s1 READY) eq_refl) as (_ & H1 & H2).
  split; [exact H1|]. rewrite H2. reflexivity.
Defined.
End Ownership.

Section OwnerRequests.
Import SessionManager.

Lemma owned_session_found w sid uid d :
  owned_session w sid uid = Some d -> is_Some (session_of w sid).
Proof.
  unfold owned_session, session_of. intros Hd.
  apply find_some in Hd as [Hin Hd]. unfold Queries.owned_by in Hd.
  apply andb_true_iff in Hd as [Hd _].
  destruct (List.find (Session.has_sessionId sid) (sessionsColl w)) eqn:E; [eauto|].
  apply (find_none _ _ E) in Hin. congruence.
Qed.

(** X21. For the owner, [disconnectSession] answers 200 and leaves
    the session DISCONNECTED without a handle when no handle was registered
    or the teardown succeeds; when the teardown of a registered handle
    throws it answers 500 with the fixed message [Failed to disconnect
    session], not the error's own, and the handle stays registered and the
    records are as before. *)
Theorem disconnectSession_for_the_owner user sid teardown d w :
  owned_session w sid (UserPayload.userId user) = Some d ->
  let m := WhatsAppHandlers.disconnectSession (Some user) sid teardown in
  (sessions w !! sid = None \/ teardown = Ok tt ->
     outcome m w = Ok (ResponseUtil.success "Session disconnected successfully" None None)
     /\ sessions (exec m w) !! sid = None
     /\ status_of (exec m w) sid = Some DISCONNECTED)
  /\ (forall e, is_Some (sessions w !! sid) -> teardown = Throw e ->
        outcome m w = Ok (ResponseUtil.error "Failed to disconnect session" None None)
        /\ sessions (exec m w) = sessions w
        /\ sessionsColl (exec m w) = sessionsColl w
        /\ logged (exec m w) = (logged w ++ [(LError, "Error disconnecting session")])%list).
Proof.
  intros Hd m. subst m.
  pose proof (owned_session_found _ _ _ _ Hd) as [d0 Hd0].
  unfold owned_session in Hd.
  unfold outcome, exec, WhatsAppHandlers.disconnectSession, Queries.Session_findOne.
  set (D := destroySession sid teardown).
  munfold. simpl. rewrite Hd. simpl. subst D.
  split.
  - intros Hcase.
    assert (exists w1, destroySession sid teardown w = (Ok tt, w1)
              /\ sessions w1 !! sid = None
              /\ sessionsColl w1
                 = update_first (Session.has_sessionId sid)
                     (SessionDoc.set_status DISCONNECTED) (sessionsColl w))
      as (w1 & -> & H1 & H2).
    { destruct (sessions w !! sid) as [c|] eqn:Hc.
      - destruct Hcase as [?| ->]; [done|].
        rewrite (destroySession_teardown_ok w sid c Hc). eexists. split; [done|].
        wsimpl. by rewrite lookup_delete_eq.
      - rewrite (destroySession_no_handle w sid teardown Hc). eexists. split; [done|].
        wsimpl. done. }
    simpl. split; [done|]. split; [done|].
    unfold status_of, session_of. rewrite H2.
    rewrite find_update_first_same by done. fold (session_of w sid). by rewrite Hd0.
  - intros e [c Hc] ->. rewrite (destroySession_teardown_throws w sid c e Hc). simpl.
    done.
Qed.

Lemma disconnectSession_for_the_owner_witness :
  owned_session (world_s1 READY) "s1" (UserPayload.userId user1)
    = Some (session_doc "u1" "s1" READY)
  /\ outcome (WhatsAppHandlers.disconnectSession (Some user1) "s1" (Throw boom)) (world_s1 READY)
     = Ok (ResponseUtil.error "Failed to disconnect session" None None)
  /\ sessions (exec (WhatsAppHandlers.disconnectSession (Some user1) "s1" (Throw boom))
                 (world_s1 READY)) = sessions (world_s1 READY).
Proof.
  split; [reflexivity|].
  destruct (disconnectSession_for_the_owner user1 "s1" (Throw boom)
              (session_doc "u1" "s1" READY) (world_s1 READY) eq_refl) as [_ H].
  destruct (H boom ltac:(by eexists) eq_refl) as (H1 & H2 & _).
  split; [exact H1|exact H2].
Defined.
End OwnerRequests.

(** ** Read state of the messages *)

Section ReadState.
Import SessionManager MessageController.

Lemma filter_fmap_length {A B : Type} (p : B -> bool) (f : A -> B) (l : list A) :
  length (List.filter p (f <$> l)) = length (List.filter (fun x => p (f x)) l).
Proof.
  induction l as [|x l IH]; [done|]. rewrite fmap_cons. simpl.
  destruct (p (f x)); simpl; by rewrite IH.
Qed.

Lemma markAsRead_all_effect user sid cid ids seen d w :
  owned_session w sid (UserPayload.userId user) = Some d ->
  ids = None \/ ids = Some [] ->
  outcome (markAsRead (Some user) sid cid ids seen) w
    = Ok (ResponseUtil.success "Messages marked as read" None None)
  /\ messagesColl (exec (markAsRead (Some user) sid cid ids seen) w)
     = read_all sid cid (clock w) <$> messagesColl w
  /\ sessionsColl (exec (markAsRead (Some user) sid cid ids seen) w) = sessionsColl w
  /\ sessions (exec (markAsRead (Some user) sid cid ids seen) w) = sessions w.
Proof.
  intros Hd Hids. unfold owned_session in Hd.
  unfold outcome, exec, markAsRead, Queries.Session_findOne, getSession, sessions_get,
    Queries.Message_updateMany, now.
  munfold. wsimpl. rewrite Hd. simpl.
  destruct (sessions w !! sid); simpl;
    [destruct seen as [[]|e]; simpl|];
    (destruct Hids as [-> | ->]; simpl; done).
Qed.

Lemma unread_in_read_all sid cid t sid' chat d :
  unread_in sid' chat (read_all sid cid t d)
  = unread_in sid' chat d && negb (received_in sid cid d).
Proof.
  unfold read_all. destruct (received_in sid cid d) eqn:E; [|by rewrite andb_true_r].
  rewrite andb_false_r. unfold unread_in. simpl. by rewrite !andb_false_r.
Qed.

(** X22. After the owner marked a conversation as read without naming
    messages, [getUnreadCount] for that conversation answers 0; the unread
    count of every other conversation, of this session or another, is what
    it was; the messages the user sent are not touched; and no message is
    added or removed. Whether the SDK could be told that the chat was seen
    makes no difference. *)
Theorem markAsRead_clears_the_unread_count user sid cid ids seen d w :
  owned_session w sid (UserPayload.userId user) = Some d ->
  ids = None \/ ids = Some [] ->
  cid <> "" ->
  let w' := exec (markAsRead (Some user) sid cid ids seen) w in
  outcome (markAsRead (Some user) sid cid ids seen) w
    = Ok (ResponseUtil.success "Messages marked as read" None None)
  /\ outcome (getUnreadCount (Some user) sid (Some cid)) w'
     = Ok (ResponseUtil.success "Unread count retrieved" (Some (UnreadCountData 0)) None)
  /\ (forall sid' cid', cid' <> "" -> (sid', cid') <> (sid, cid) ->
        unread_count w' sid' (Some cid') = unread_count w sid' (Some cid'))
  /\ (forall m, m ∈ messagesColl w -> MessageDoc.fromMe m = true -> m ∈ messagesColl w')
  /\ length (messagesColl w') = length (messagesColl w).
Proof.
  intros Hd Hids Hcid w'.
  destruct (markAsRead_all_effect user sid cid ids seen d w Hd Hids) as (H1 & H2 & H3 & H4).
  fold w' in H2, H3, H4.
  assert (forall sid' chat,
            unread_count w' sid' chat
            = Z.of_nat (length (List.filter
                                  (fun m => unread_in sid' chat m && negb (received_in sid cid m))
                                  (messagesColl w)))) as Hcount.
  { intros sid' chat. unfold unread_count. rewrite H2, filter_fmap_length. f_equal. f_equal.
    apply filter_ext. intros m. apply unread_in_read_all. }
  split; [exact H1|]. split; [|split; [|split]].
  - unfold outcome, getUnreadCount, Queries.Session_findOne, Queries.Message_countDocuments.
    munfold. simpl. rewrite H3. unfold owned_session in Hd. rewrite Hd. simpl.
    fold (unread_count w' sid (Some cid)). rewrite Hcount.
    replace (List.filter _ (messagesColl w)) with (@nil MessageDoc.t); [done|].
    symmetry. apply existsb_filter_nil. apply not_true_is_false.
    intros (m & _ & Hm)%existsb_exists.
    unfold unread_in, received_in, truthy in Hm.
    rewrite (bool_decide_eq_false_2 _ Hcid) in Hm.
    destruct (bool_decide (MessageDoc.sessionId m = sid)),
      (bool_decide (MessageDoc.chatId m = cid)), (MessageDoc.fromMe m),
      (MessageDoc.isRead m); simpl in Hm; discriminate.
  - intros sid' cid' Hcid' Hne. rewrite Hcount. unfold unread_count. f_equal. f_equal.
    apply filter_ext. intros m.
    unfold unread_in, received_in, truthy. rewrite (bool_decide_eq_false_2 _ Hcid').
    destruct (decide (MessageDoc.sessionId m = sid')) as [Hs|Hs];
      [|by rewrite (bool_decide_eq_false_2 _ Hs)].
    destruct (decide (MessageDoc.chatId m = cid')) as [Hc|Hc];
      [|by rewrite (bool_decide_eq_false_2 _ Hc), !andb_false_r].
    assert (bool_decide (MessageDoc.sessionId m = sid)
            && bool_decide (MessageDoc.chatId m = cid) = false) as Hother.
    { apply not_true_is_false. intros [Ha Hb]%andb_true_iff.
      apply bool_decide_eq_true_1 in Ha, Hb. apply Hne. congruence. }
    rewrite Hother. simpl. by rewrite andb_true_r.
  - intros m Hin Hme. rewrite H2. apply list_elem_of_fmap. exists m. split; [|done].
    unfold read_all, received_in. by rewrite Hme, andb_false_r.
  - by rewrite H2, length_fmap.
Qed.

Lemma markAsRead_witness :
  owned_session world_read "s1" (UserPayload.userId user1) = Some (session_doc "u1" "s1" READY)
  /\ unread_count world_read "s1" (Some "15550002@c.us") = 1
  /\ outcome (getUnreadCount (Some user1) "s1" (Some "15550002@c.us"))
       (exec (markAsRead (Some user1) "s1" "15550002@c.us" None (Throw boom)) world_read)
     = Ok (ResponseUtil.success "Unread count retrieved" (Some (UnreadCountData 0)) None).
Proof.
  split; [reflexivity|]. split; [reflexivity|].
  destruct (markAsRead_clears_the_unread_count user1 "s1" "15550002@c.us" None (Throw boom)
              (session_doc "u1" "s1" READY) world_read eq_refl (or_introl eq_refl)
              ltac:(discriminate)) as (_ & H & _).
  exact H.
Defined.
End ReadState.

(** ** Deleting a message *)

Section DeleteMessage.
Import SessionManager MessageController.

Lemma find_remove_first_other {A : Type} (p q : A -> bool) (l : list A) :
  (forall x, p x = true -> q x = false) ->
  List.find q (Queries.remove_first p l) = List.find q l.
Proof.
  intros H. induction l as [|x l IH]; simpl; [done|].
  destruct (p x) eqn:E; simpl.
  - by rewrite (H x E).
  - by rewrite IH.
Qed.

Lemma filter_remove_first_length {A : Type} (p : A -> bool) (l : list A) :
  length (List.filter p (Queries.remove_first p l)) = pred (length (List.filter p l)).
Proof.
  induction l as [|x l IH]; simpl; [done|].
  destruct (p x) eqn:E; simpl; [done|]. by rewrite E.
Qed.

(** X23. For the owner of a session with a registered handle,
    [deleteMessage] removes the stored row only after the SDK found the
    message and deleted it: it then answers 200, one row of the key is
    gone (none is left when the key was stored once) and every other key
    is as before. When the SDK does not know the message the answer is 404
    and the stored row stays; when the SDK fails the answer is 500 with
    the fixed message and the stored row stays; without a registered
    handle the answer is 400 [Session is not ready] and nothing is
    deleted. *)
Theorem deleteMessage_for_the_owner user sid mid found deleted d w :
  owned_session w sid (UserPayload.userId user) = Some d ->
  let m := deleteMessage (Some user) sid mid found deleted in
  (sessions w !! sid = None ->
     outcome m w = Ok (ResponseUtil.badRequest "Session is not ready" None)
     /\ exec m w = w)
  /\ (is_Some (sessions w !! sid) ->
      (found = Ok true -> deleted = Ok tt ->
         outcome m w = Ok (ResponseUtil.success "Message deleted successfully" None None)
         /\ rows_for (exec m w) sid mid = pred (rows_for w sid mid)
         /\ (forall sid' mid', (sid', mid') <> (sid, mid) ->
               message_of (exec m w) sid' mid' = message_of w sid' mid'))
      /\ (found = Ok false ->
            outcome m w = Ok (ResponseUtil.notFound (Some "Message not found"))
            /\ exec m w = w)
      /\ ((exists e, found = Throw e) \/ (found = Ok true /\ exists e, deleted = Throw e) ->
            outcome m w = Ok (ResponseUtil.error "Failed to delete message" None None)
            /\ messagesColl (exec m w) = messagesColl w)).
Proof.
  intros Hd m. subst m. unfold owned_session in Hd.
  unfold outcome, exec, deleteMessage, Queries.Session_findOne, getSession, sessions_get,
    Queries.Message_findOneAndDelete.
  munfold. wsimpl. rewrite Hd. simpl.
  split.
  - intros ->. simpl. done.
  - intros [c ->]. simpl. split; [|split].
    + intros -> ->. simpl. split; [done|]. split.
      * unfold rows_for. simpl. apply filter_remove_first_length.
      * intros sid' mid' Hne. unfold message_of. simpl.
        apply find_remove_first_other. intros x Hx.
        by apply (has_key_exclusive sid mid sid' mid').
    + intros ->. simpl. done.
    + intros [[e ->]|[-> [e ->]]]; simpl; done.
Qed.

Lemma deleteMessage_witness :
  owned_session world_read "s1" (UserPayload.userId user1) = Some (session_doc "u1" "s1" READY)
  /\ rows_for world_read "s1" "m1" = 1%nat
  /\ outcome (deleteMessage (Some user1) "s1" "m1" (Ok true) (Ok tt)) world_read
     = Ok (ResponseUtil.success "Message deleted successfully" None None)
  /\ rows_for (exec (deleteMessage (Some user1) "s1" "m1" (Ok true) (Ok tt)) world_read)
       "s1" "m1" = 0%nat.
Proof.
  split; [reflexivity|]. split; [reflexivity|].
  destruct (deleteMessage_for_the_owner user1 "s1" "m1" (Ok true) (Ok tt)
              (session_doc "u1" "s1" READY) world_read eq_refl) as [_ H].
  destruct (H ltac:(by eexists)) as [H1 _].
  destruct (H1 eq_refl eq_refl) as (Ha & Hb & _).
  split; [exact Ha|]. rewrite Hb. reflexivity.
Defined.
End DeleteMessage.

(** ** The QR code of a session *)

Section QrCode.
Import SessionManager.

Lemma owned_session_first w sid uid d :
  session_of w sid = Some d -> SessionDoc.userId d = uid ->
  owned_session w sid uid = Some d.
Proof.
  unfold session_of, owned_session, Queries.owned_by. intros Hd Hu.
  induction (sessionsColl w) as [|x l IH]; simpl in *; [done|].
  destruct (Session.has_sessionId sid x) eqn:E; simpl.
  - injection Hd as ->. by rewrite bool_decide_eq_true_2.
  - by apply IH.
Qed.

Lemma owned_session_update w sid uid d f l :
  session_of w sid = Some d -> SessionDoc.userId d = uid ->
  (forall x, Session.has_sessionId sid (f x) = Session.has_sessionId sid x
             /\ SessionDoc.userId (f x) = SessionDoc.userId x) ->
  l = update_first (Session.has_sessionId sid) f (sessionsColl w) ->
  List.find (Queries.owned_by sid uid) l = Some (f d).
Proof.
  unfold session_of, Queries.owned_by. intros Hd Hu Hf ->.
  induction (sessionsColl w) as [|x l IH]; simpl in *; [done|].
  destruct (Session.has_sessionId sid x) eqn:E; simpl.
  - injection Hd as ->. destruct (Hf d) as [-> ->]. rewrite E. simpl.
    by rewrite bool_decide_eq_true_2.
  - rewrite E. simpl. by apply IH.
Qed.

(** X24. The pairing string of a session can be fetched by its owner
    while the session waits for the scan and no longer once it is ready:
    after a [qr] event [getQRCode] answers 200 with the rendering of the
    string of that event as a data URL (the default format), while [getSession] shows the record in QR_SCAN_PENDING without
    the string; after a [ready] event [getQRCode] answers 400 whatever the
    format. *)
Theorem qr_code_is_served_while_pairing lib user sid uid cbs qr wid_user format image d w :
  quiet_callbacks cbs ->
  session_of w sid = Some d ->
  SessionDoc.userId d = UserPayload.userId user ->
  qr <> "" ->
  toDataURL lib qr = Ok image ->
  let paired := exec (on_qr sid uid cbs qr) w in
  let ready := exec (on_ready sid uid cbs wid_user) w in
  outcome (WhatsAppHandlers.getQRCode lib (Some user) sid None) paired
    = Ok (ResponseUtil.success "QR code retrieved" (Some (QrCodeData image)) None)
  /\ (exists d', outcome (WhatsAppHandlers.getSession (Some user) sid) paired
                 = Ok (ResponseUtil.success "Session retrieved" (Some (SessionData d')) None)
        /\ SessionDoc.status d' = QR_SCAN_PENDING
        /\ SessionDoc.qrCode d' = None)
  /\ outcome (WhatsAppHandlers.getQRCode lib (Some user) sid format) ready
     = Ok (ResponseUtil.badRequest
             "QR code not available. Session may already be connected." None).
Proof.
  intros Hq Hd Hu Hqr Himg paired ready.
  destruct (dispatch_frame sid uid cbs (EvQr qr) w Hq) as (_ & Hp & _).
  destruct (dispatch_frame sid uid cbs (EvReady wid_user) w Hq) as (_ & Hr & _).
  simpl in Hp, Hr. fold (exec (on_qr sid uid cbs qr) w) in Hp.
  fold (exec (on_ready sid uid cbs wid_user) w) in Hr. fold paired in Hp. fold ready in Hr.
  pose proof (owned_session_update w sid _ d (record_effect (EvQr qr)) _ Hd Hu
                ltac:(intros x; split; reflexivity) Hp) as Hfp.
  pose proof (owned_session_update w sid _ d (record_effect (EvReady wid_user)) _ Hd Hu
                ltac:(intros x; split; reflexivity) Hr) as Hfr.
  split; [|split].
  - unfold outcome, WhatsAppHandlers.getQRCode, Queries.Session_findOne,
      QRManager.generateQRCodeDataURL.
    munfold. simpl. rewrite Hfp. simpl. rewrite (bool_decide_eq_false_2 _ Hqr). simpl.
    by rewrite Himg.
  - eexists. unfold outcome, WhatsAppHandlers.getSession, Queries.Session_findOne.
    munfold. simpl. rewrite Hfp. simpl. done.
  - unfold outcome, WhatsAppHandlers.getQRCode, Queries.Session_findOne.
    munfold. simpl. rewrite Hfr. simpl. done.
Qed.

Lemma qr_code_witness :
  quiet_callbacks no_callbacks
  /\ session_of (world_s1 INITIALIZING) "s1" = Some (session_doc "u1" "s1" INITIALIZING)
  /\ outcome (WhatsAppHandlers.getQRCode sample_renderer (Some user1) "s1" None)
       (exec (on_qr "s1" "u1" no_callbacks "ABC") (world_s1 INITIALIZING))
     = Ok (ResponseUtil.success "QR code retrieved"
             (Some (QrCodeData "data:image/png;base64,ABC")) None)
  /\ outcome (WhatsAppHandlers.getQRCode sample_renderer (Some user1) "s1" (Some "svg"))
       (exec (on_ready "s1" "u1" no_callbacks "15550001") (world_s1 INITIALIZING))
     = Ok (ResponseUtil.badRequest
             "QR code not available. Session may already be connected." None).
Proof.
  split; [exact no_callbacks_quiet|]. split; [reflexivity|].
  destruct (qr_code_is_served_while_pairing sample_renderer user1 "s1" "u1" no_callbacks
              "ABC" "15550001" (Some "svg") "data:image/png;base64,ABC"
              (session_doc "u1" "s1" INITIALIZING) (world_s1 INITIALIZING)
              no_callbacks_quiet eq_refl eq_refl ltac:(discriminate) eq_refl)
    as (H1 & _ & H3).
  split; [exact H1|exact H3].
Defined.
End QrCode.

(** ** Shutdown *)

Section Shutdown.
Import SessionManager Server.


(** At shutdown a teardown that rejects is caught and logged, and the run
    still ends with code 0; [destroySession] has no such guard around the
    same call. *)
Lemma shutdown_catches_teardown_error :
  outcome (gracefulShutdown "SIGTERM" true (fun _ => Settled (Throw boom)) (Settled (Ok tt)))
    (world_s1 READY) = Ok 0
  /\ (LError, "❌ Error destroying session s1")
       ∈ logged (exec (gracefulShutdown "SIGTERM" true (fun _ => Settled (Throw boom))
                         (Settled (Ok tt))) (world_s1 READY))
  /\ outcome (destroySession "s1" (Throw boom)) (world_s1 READY) = Throw boom.
Proof.
  split; [vm_compute; reflexivity|]. split; [|vm_compute; reflexivity].
  apply list_elem_of_In. vm_compute. eauto 10.
Qed.
End Shutdown.

(** ** The request that creates a session *)

Section CreateRequest.
Import SessionManager.

(** X26. The request that creates a session answers 401
    without a user and otherwise 201 or 400, never a server error: at the
    limit it answers 400 with the capacity message and stores and
    registers nothing; below the limit, with a fresh identifier and a
    client that is constructed, it answers 201 with the generated
    identifier while the record is stored in INITIALIZING; when the
    construction of the client throws, it answers 400 with the message of
    that error (the fixed text when the error has none). *)
Theorem createSession_request_answers user render gen ctor init w :
  let uid := UserPayload.userId user in
  let m := WhatsAppHandlers.createSession (Some user) render gen ctor init in
  (outcome (WhatsAppHandlers.createSession None render gen ctor init) w
     = Ok (ResponseUtil.unauthorized None)
   /\ exec (WhatsAppHandlers.createSession None render gen ctor init) w = w)
  /\ (exists r, outcome m w = Ok r /\ (status_code r = Some 201 \/ status_code r = Some 400))
  /\ (maxSessionsPerUser (config w) <= activeSessionsCount w uid ->
        outcome m w
          = Ok (ResponseUtil.badRequest
                  ("Maximum " ++ pretty (maxSessionsPerUser (config w)) ++ " sessions allowed")
                  None)
        /\ sessionsColl (exec m w) = sessionsColl w
        /\ sessions (exec m w) = sessions w)
  /\ (activeSessionsCount w uid < maxSessionsPerUser (config w) ->
      session_of w gen = None ->
        match ctor with
        | Ok _ =>
            outcome m w
              = Ok (ResponseUtil.success "WhatsApp session created"
                      (Some (SessionIdData gen)) (Some 201))
            /\ status_of (exec m w) gen = Some INITIALIZING
            /\ is_Some (sessions (exec m w) !! gen)
        | Throw e =>
            outcome m w
              = Ok (ResponseUtil.badRequest
                      (or_string (Some (message e)) "Failed to create session") None)
            /\ sessions (exec m w) = sessions w
        end).
Proof.
  intros uid m.
  set (cbs := WhatsAppController.callbacks gen uid render).
  assert (forall r w1, createSession uid cbs gen ctor init w = (r, w1) ->
            outcome m w = match r with
                          | Ok created =>
                              Ok (ResponseUtil.success "WhatsApp session created"
                                    (Some (SessionIdData (fst created))) (Some 201))
                          | Throw e =>
                              Ok (ResponseUtil.badRequest
                                    (or_string (Some (message e)) "Failed to create session")
                                    None)
                          end
            /\ sessionsColl (exec m w) = sessionsColl w1
            /\ sessions (exec m w) = sessions w1) as Hm.
  { intros r w1 E. subst m. unfold outcome, exec, WhatsAppHandlers.createSession.
    munfold. fold uid. fold cbs. rewrite E. destruct r as [created|e]; simpl; done. }
  split; [done|]. split; [|split].
  - destruct (createSession uid cbs gen ctor init w) as [r w1] eqn:E.
    destruct (Hm r w1 eq_refl) as (-> & _). destruct r; eexists; (split; [reflexivity|]).
    + by left.
    + by right.
  - intros Hcap. pose proof (createSession_at_capacity w uid cbs gen ctor init Hcap) as E.
    destruct (Hm _ _ E) as (-> & -> & ->). split; [|done].
    unfold or_string. simpl message. rewrite bool_decide_eq_false_2; [done|].
    change ("Maximum " ++ ?x) with (String "M" ("aximum " ++ x)). discriminate.
  - intros Hlt Hfresh.
    destruct (createSession uid cbs gen ctor init w) as [r w1] eqn:E.
    destruct (Hm r w1 eq_refl) as (-> & Hc & Hs).
    destruct (createSession_below_limit_cases w uid cbs gen ctor init Hlt) as [_ H].
    destruct (H Hfresh) as [Hcoll Hrest]. unfold outcome, exec in Hcoll, Hrest.
    rewrite E in Hcoll, Hrest. simpl in Hcoll, Hrest.
    destruct ctor as [[]|e].
    + destruct Hrest as (-> & Hreg & _). simpl. split; [done|]. split.
      * unfold status_of, session_of. rewrite Hc, Hcoll, find_app.
        unfold session_of in Hfresh. rewrite Hfresh. simpl.
        unfold Session.has_sessionId. simpl. by rewrite bool_decide_eq_true_2.
      * rewrite Hs, Hreg, lookup_insert_eq. by eexists.
    + destruct Hrest as (-> & Hreg & _). split; [done|]. by rewrite Hs, Hreg.
Qed.
End CreateRequest.
